(** * Mantra-Pair: the pairing-session server and its credential exporter

    A shallow embedding of [index.js] (the current revision, together with
    the legacy revision kept in the same file) and of
    [scripts/decrypt-session.js], followed by the properties of the
    session lifecycle manager, the retry policy and the credential
    exporter.

    Conventions.
    - A JavaScript string is a Rocq [string]; a [Buffer] is a
      [list Byte.byte].  A string converted with the 'utf8' encoding is
      the list of its bytes.
    - Numeric options read with [Number(process.env.X || default)] are
      integers ([Z]); an unset or empty variable is [None].
    - [JSON.parse] of the decrypt utility is a parameter of its embedding
      ([JsonReader]); [Json.parse] is the reader of the objects the
      exporter writes.
    - [undefined] and [null] are [None].
    - What the program obtains from outside (the clock, random bytes, the
      Baileys connection, the file system, Node's [crypto]) is an input of
      the function or of the transition that uses it. *)

From Stdlib Require Import ZArith List String Ascii Bool Lia.
From Stdlib Require Import DecimalString DecimalN DecimalPos.
From stdpp Require Import base option list gmap strings.
Import ListNotations.

Local Open Scope string_scope.
Local Open Scope Z_scope.

(* ===================================================================== *)
(** * Part I: definitions *)
(* ===================================================================== *)

(** ** JavaScript string primitives *)

Module Js.

(** [\d] of a regular expression without the [u] flag: [0-9]. *)
Definition is_digit (c : ascii) : bool :=
  ((48 <=? nat_of_ascii c) && (nat_of_ascii c <=? 57))%nat.

(** [s.replace(/\D/g, '')] *)
Fixpoint strip_non_digits (s : string) : string :=
  match s with
  | EmptyString => EmptyString
  | String c r =>
      if is_digit c then String c (strip_non_digits r) else strip_non_digits r
  end.

(** [s.replace(/x/g, 'y')] for single characters [x] and [y]. *)
Fixpoint replace_char (x y : ascii) (s : string) : string :=
  match s with
  | EmptyString => EmptyString
  | String c r =>
      String (if Ascii.eqb c x then y else c) (replace_char x y r)
  end.

(** [s.replace(/=+$/g, '')]: the trailing run of [=] is removed. *)
Fixpoint strip_trailing_eq (s : string) : string :=
  match s with
  | EmptyString => EmptyString
  | String c r =>
      match strip_trailing_eq r with
      | EmptyString => if Ascii.eqb c "="%char then EmptyString else String c EmptyString
      | r' => String c r'
      end
  end.

(** ['='.repeat(n)] *)
Fixpoint repeat_eq (n : nat) : string :=
  match n with
  | O => EmptyString
  | S k => String "="%char (repeat_eq k)
  end.

Definition lower_char (c : ascii) : ascii :=
  let n := nat_of_ascii c in
  if ((65 <=? n) && (n <=? 90))%nat then ascii_of_nat (n + 32) else c.

(** [s.toLowerCase()], on the ASCII letters. *)
Fixpoint toLowerCase (s : string) : string :=
  match s with
  | EmptyString => EmptyString
  | String c r => String (lower_char c) (toLowerCase r)
  end.

(** White space of [String.prototype.trim] in the ASCII range.
    JavaScript trims the white space outside ASCII as well; [trim] below
    is [String.prototype.trim] on the strings that have none. *)
Definition is_space (c : ascii) : bool :=
  let n := nat_of_ascii c in
  ((n =? 32) || ((9 <=? n) && (n <=? 13)))%nat.

Fixpoint trimStart (s : string) : string :=
  match s with
  | EmptyString => EmptyString
  | String c r => if is_space c then trimStart r else s
  end.

Fixpoint trimEnd (s : string) : string :=
  match s with
  | EmptyString => EmptyString
  | String c r =>
      match trimEnd r with
      | EmptyString => if is_space c then EmptyString else String c EmptyString
      | r' => String c r'
      end
  end.

(** [s.trim()] *)
Definition trim (s : string) : string := trimEnd (trimStart s).

(** [String(x || dflt)] for [x] a string or [undefined]: the empty
    string is falsy. *)
Definition or_default (x : option string) (dflt : string) : string :=
  match x with
  | Some s => if String.eqb s "" then dflt else s
  | None => dflt
  end.

(** Truthiness of an optional string. *)
Definition truthy (x : option string) : bool :=
  match x with
  | Some s => negb (String.eqb s "")
  | None => false
  end.

(** [s.startsWith(p)] *)
Definition startsWith (p s : string) : bool := String.prefix p s.

(** [s.slice(n)] for [0 <= n]. *)
Fixpoint slice_from (n : nat) (s : string) : string :=
  match n, s with
  | O, _ => s
  | S k, EmptyString => EmptyString
  | S k, String _ r => slice_from k r
  end.

(** Decimal rendering of an integer, as a template literal or
    [JSON.stringify] renders an integer-valued number. *)
Definition string_of_N (n : N) : string :=
  NilEmpty.string_of_uint (N.to_uint n).

Definition string_of_Z (z : Z) : string :=
  match z with
  | Zneg p => String "-"%char (string_of_N (Npos p))
  | _ => string_of_N (Z.to_N z)
  end.

End Js.

(** ** Configuration read at module load ([index.js], lines 501-528) *)

(** The part of [process.env] the server reads. *)
Record Env := {
  env_PAIR_API_KEY : option string;
  env_SESSION_TTL_MS : option Z;
  env_SESSION_IDLE_TTL_MS : option Z;
  env_MAX_RETRIES : option Z;
  env_RETRY_DELAY_MS : option Z;
  env_RETRY_DELAY_MAX_MS : option Z;
  env_EXPORT_ENCRYPTED : option string;
  env_SESSION_SECRET : option string
}.

(** The module-level constants.  [Number(...)] yields a number; the
    numeric options are whole numbers here, so a setting such as
    [MAX_RETRIES=2.5] is not among the configurations of this model. *)
Record Config := {
  PAIR_API_KEY : string;
  SESSION_TTL_MS : Z;
  SESSION_IDLE_TTL_MS : Z;
  MAX_RETRIES : Z;
  RETRY_DELAY_MS : Z;
  RETRY_DELAY_MAX_MS : Z;
  EXPORT_ENCRYPTED : bool;
  SESSION_SECRET : string
}.

Definition read_config (e : Env) : Config := {|
  PAIR_API_KEY := Js.trim (Js.or_default (env_PAIR_API_KEY e) "");
  SESSION_TTL_MS := default (5 * 60000) (env_SESSION_TTL_MS e);
  SESSION_IDLE_TTL_MS := default (2 * 60000) (env_SESSION_IDLE_TTL_MS e);
  MAX_RETRIES := default 8 (env_MAX_RETRIES e);
  RETRY_DELAY_MS := default 4000 (env_RETRY_DELAY_MS e);
  RETRY_DELAY_MAX_MS := default 30000 (env_RETRY_DELAY_MAX_MS e);
  EXPORT_ENCRYPTED :=
    String.eqb (Js.toLowerCase (Js.or_default (env_EXPORT_ENCRYPTED e) "false")) "true";
  SESSION_SECRET := Js.trim (Js.or_default (env_SESSION_SECRET e) "")
|}.

(** Module load either throws or yields the constants: the [throw] of
    line 527 precedes every route registration and [app.listen]. *)
Definition boot (e : Env) : string + Config :=
  let c := read_config e in
  if EXPORT_ENCRYPTED c && String.eqb (SESSION_SECRET c) ""
  then inl "SESSION_SECRET is required when EXPORT_ENCRYPTED=true"
  else inr c.

(** ** Retry policy *)

(** The members of Baileys' [DisconnectReason] the server names.  The
    enumeration belongs to the protocol library, so its values are a
    parameter. *)
Record DisconnectReasonT := {
  connectionClosed : Z;
  connectionLost : Z;
  timedOut : Z;
  restartRequired : Z;
  unavailableService : Z;
  loggedOut : Z;
  forbidden : Z
}.

(** The values the enumeration has in @whiskeysockets/baileys. *)
Definition Baileys : DisconnectReasonT := {|
  connectionClosed := 428;
  connectionLost := 408;
  timedOut := 408;
  restartRequired := 515;
  unavailableService := 503;
  loggedOut := 401;
  forbidden := 403
|}.

(** The allow-list of known-transient reasons. *)
Definition transient (DR : DisconnectReasonT) : list Z :=
  [connectionClosed DR; connectionLost DR; timedOut DR;
   restartRequired DR; unavailableService DR].

(** [arr.includes(x)] on numbers. *)
Definition includes (l : list Z) (x : Z) : bool := existsb (Z.eqb x) l.

(** [isRetryableDisconnectReason] (lines 584-594). *)
Definition isRetryableDisconnectReason (DR : DisconnectReasonT) (reason : option Z) : bool :=
  match reason with
  | None => true
  | Some r =>
      includes [connectionClosed DR; connectionLost DR; timedOut DR;
                restartRequired DR; unavailableService DR] r
  end.

(** The gate of both retry sites (lines 776 and 819):
    [isRetryableDisconnectReason(reason) && (s.retries || 0) < MAX_RETRIES]. *)
Definition retryGate (DR : DisconnectReasonT) (cfg : Config)
    (retries : nat) (reason : option Z) : bool :=
  isRetryableDisconnectReason DR reason && (Z.of_nat retries <? MAX_RETRIES cfg).

(** [shouldRetry] of the legacy revision (lines 100-110). *)
Definition shouldRetry (DR : DisconnectReasonT) (cfg : Config)
    (retries : nat) (reason : option Z) : bool :=
  if MAX_RETRIES cfg <=? Z.of_nat retries then false
  else match reason with
       | None => true
       | Some r =>
           includes [connectionClosed DR; connectionLost DR; timedOut DR;
                     restartRequired DR] r
       end.

(** [Math.min(RETRY_DELAY_MAX_MS, RETRY_DELAY_MS * s.retries)]
    (lines 780 and 823). *)
Definition backoff (cfg : Config) (retries : nat) : Z :=
  Z.min (RETRY_DELAY_MAX_MS cfg) (RETRY_DELAY_MS cfg * Z.of_nat retries).

(** ** Phone validation (lines 540-546) *)

Definition validatePhone (phone : option string) : string + string :=
  let cleaned := Js.strip_non_digits (Js.or_default phone "") in
  if ((String.length cleaned <? 10) || (15 <? String.length cleaned))%nat
  then inl "Phone number must be 10-15 digits"
  else inr cleaned.

(** ** Base64, as [Buffer] implements it *)

Module Base64.

(** Six bits, most significant first. *)
Definition sextet : Type := bool * bool * bool * bool * bool * bool.

Definition index (s : sextet) : nat :=
  let '(b5, b4, b3, b2, b1, b0) := s in
  (Nat.b2n b5 * 32 + Nat.b2n b4 * 16 + Nat.b2n b3 * 8
   + Nat.b2n b2 * 4 + Nat.b2n b1 * 2 + Nat.b2n b0)%nat.

Definition of_index (n : nat) : sextet :=
  (Nat.testbit n 5, Nat.testbit n 4, Nat.testbit n 3,
   Nat.testbit n 2, Nat.testbit n 1, Nat.testbit n 0).

Definition alphabet : string :=
  "ABCDEFGHIJKLMNOPQRSTUVWXYZabcdefghijklmnopqrstuvwxyz0123456789+/".

Definition char_of_sextet (s : sextet) : ascii :=
  match String.get (index s) alphabet with
  | Some c => c
  | None => "="%char
  end.

(** The decoder accepts the standard and the URL-safe alphabet. *)
Definition sextet_of_char (c : ascii) : option sextet :=
  let n := nat_of_ascii c in
  if ((65 <=? n) && (n <=? 90))%nat then Some (of_index (n - 65))
  else if ((97 <=? n) && (n <=? 122))%nat then Some (of_index (n - 71))
  else if ((48 <=? n) && (n <=? 57))%nat then Some (of_index (n + 4))
  else if ((n =? 43) || (n =? 45))%nat then Some (of_index 62)
  else if ((n =? 47) || (n =? 95))%nat then Some (of_index 63)
  else None.

(** Three bytes are four sextets. *)
Definition enc3 (a b c : Byte.byte) : sextet * sextet * sextet * sextet :=
  let '(a0, (a1, (a2, (a3, (a4, (a5, (a6, a7))))))) := Byte.to_bits a in
  let '(b0, (b1, (b2, (b3, (b4, (b5, (b6, b7))))))) := Byte.to_bits b in
  let '(c0, (c1, (c2, (c3, (c4, (c5, (c6, c7))))))) := Byte.to_bits c in
  ((a7, a6, a5, a4, a3, a2), (a1, a0, b7, b6, b5, b4),
   (b3, b2, b1, b0, c7, c6), (c5, c4, c3, c2, c1, c0)).

Definition byte1 (s1 s2 : sextet) : Byte.byte :=
  let '(a7, a6, a5, a4, a3, a2) := s1 in
  let '(a1, a0, _, _, _, _) := s2 in
  Byte.of_bits (a0, (a1, (a2, (a3, (a4, (a5, (a6, a7))))))).

Definition byte2 (s2 s3 : sextet) : Byte.byte :=
  let '(_, _, b7, b6, b5, b4) := s2 in
  let '(b3, b2, b1, b0, _, _) := s3 in
  Byte.of_bits (b0, (b1, (b2, (b3, (b4, (b5, (b6, b7))))))).

Definition byte3 (s3 s4 : sextet) : Byte.byte :=
  let '(_, _, _, _, c7, c6) := s3 in
  let '(c5, c4, c3, c2, c1, c0) := s4 in
  Byte.of_bits (c0, (c1, (c2, (c3, (c4, (c5, (c6, c7))))))).

Definition zero : Byte.byte := Byte.x00.

(** [buf.toString('base64')]: groups of three bytes, the last group
    padded with [=]. *)
Fixpoint encode (bs : list Byte.byte) : string :=
  match bs with
  | [] => ""
  | [a] =>
      let '(s1, s2, _, _) := enc3 a zero zero in
      String (char_of_sextet s1) (String (char_of_sextet s2) "==")
  | [a; b] =>
      let '(s1, s2, s3, _) := enc3 a b zero in
      String (char_of_sextet s1) (String (char_of_sextet s2)
        (String (char_of_sextet s3) "="))
  | a :: b :: c :: r =>
      let '(s1, s2, s3, s4) := enc3 a b c in
      String (char_of_sextet s1) (String (char_of_sextet s2)
        (String (char_of_sextet s3) (String (char_of_sextet s4) (encode r))))
  end.

(** The legal characters of the input, up to the first [=]: the decoder
    skips a character outside both alphabets and stops at padding. *)
Fixpoint legal (s : string) : list sextet :=
  match s with
  | EmptyString => []
  | String c r =>
      if Ascii.eqb c "="%char then []
      else match sextet_of_char c with
           | Some x => x :: legal r
           | None => legal r
           end
  end.

(** Four sextets give three bytes; a final group of three gives two
    bytes, of two gives one, and a single sextet gives none. *)
Fixpoint bytes_of (l : list sextet) : list Byte.byte :=
  match l with
  | s1 :: s2 :: s3 :: s4 :: r =>
      byte1 s1 s2 :: byte2 s2 s3 :: byte3 s3 s4 :: bytes_of r
  | [s1; s2; s3] => [byte1 s1 s2; byte2 s2 s3]
  | [s1; s2] => [byte1 s1 s2]
  | _ => []
  end.

(** [Buffer.from(s, 'base64')] *)
Definition decode (s : string) : list Byte.byte := bytes_of (legal s).

End Base64.

(** [b64url] (lines 555-557). *)
Definition b64url (buf : list Byte.byte) : string :=
  Js.strip_trailing_eq
    (Js.replace_char "/" "_" (Js.replace_char "+" "-" (Base64.encode buf))).

(** What the two replacements of [b64url] make of one character. *)
Definition to_url (c : ascii) : ascii :=
  let c1 := if Ascii.eqb c "+" then "-"%char else c in
  if Ascii.eqb c1 "/" then "_"%char else c1.

(** The characters of URL-safe base64 without padding. *)
Definition url_safe_char (c : ascii) : bool :=
  let n := nat_of_ascii c in
  ((65 <=? n) && (n <=? 90) || (97 <=? n) && (n <=? 122)
   || (48 <=? n) && (n <=? 57) || (n =? 45) || (n =? 95))%nat.

Fixpoint url_safe (s : string) : bool :=
  match s with
  | EmptyString => true
  | String c r => url_safe_char c && url_safe r
  end.

(** [b64urlDecodeToBuf] ([scripts/decrypt-session.js], lines 4-8). *)
Definition b64urlDecodeToBuf (s : string) : list Byte.byte :=
  let b64 := Js.replace_char "_" "/" (Js.replace_char "-" "+" s) in
  let m := (String.length b64 mod 4)%nat in
  let pad := if (m =? 0)%nat then "" else Js.repeat_eq (4 - m) in
  Base64.decode (b64 ++ pad).

(** ** JSON, for the payload of an encrypted token *)

Module Json.

(** The values a payload member can hold. *)
Inductive value :=
| Num (n : Z)
| Str (s : string).

(** An object, members in source order. *)
Definition object : Type := list (string * value).

Definition dquote : ascii := "034"%char.
Definition backslash : ascii := "092"%char.

Definition hex_digit (n : nat) : ascii :=
  if (n <? 10)%nat then ascii_of_nat (48 + n) else ascii_of_nat (87 + n).

(** One character of a string literal as [JSON.stringify] writes it. *)
Definition escape (c : ascii) : string :=
  let n := nat_of_ascii c in
  if Ascii.eqb c dquote then String backslash (String dquote "")
  else if Ascii.eqb c backslash then String backslash (String backslash "")
  else if (n =? 8)%nat then String backslash "b"
  else if (n =? 12)%nat then String backslash "f"
  else if (n =? 10)%nat then String backslash "n"
  else if (n =? 13)%nat then String backslash "r"
  else if (n =? 9)%nat then String backslash "t"
  else if (n <? 32)%nat then
    String backslash
      (String "u" (String "0" (String "0"
        (String (hex_digit (n / 16)) (String (hex_digit (n mod 16)) "")))))
  else String c "".

Fixpoint escape_all (s : string) : string :=
  match s with
  | EmptyString => EmptyString
  | String c r => escape c ++ escape_all r
  end.

Definition quote (s : string) : string :=
  String dquote (escape_all s ++ String dquote "").

Definition stringify_value (v : value) : string :=
  match v with
  | Num n => Js.string_of_Z n
  | Str s => quote s
  end.

Definition stringify_member (m : string * value) : string :=
  quote (fst m) ++ ":" ++ stringify_value (snd m).

Fixpoint stringify_members (o : object) : string :=
  match o with
  | [] => ""
  | [m] => stringify_member m
  | m :: r => stringify_member m ++ "," ++ stringify_members r
  end.

(** [JSON.stringify(o)] *)
Definition stringify (o : object) : string :=
  "{" ++ stringify_members o ++ "}".

Definition is_ws (c : ascii) : bool :=
  let n := nat_of_ascii c in
  ((n =? 32) || (n =? 9) || (n =? 10) || (n =? 13))%nat.

Fixpoint skip_ws (s : string) : string :=
  match s with
  | EmptyString => EmptyString
  | String c r => if is_ws c then skip_ws r else s
  end.

(** The rest of a string literal after its opening quote, and what
    follows the closing quote.  A [\u] escape is outside the model. *)
Fixpoint parse_string_body (s : string) : option (string * string) :=
  match s with
  | EmptyString => None
  | String c r =>
      if Ascii.eqb c dquote then Some ("", r)
      else if Ascii.eqb c backslash then
        match r with
        | EmptyString => None
        | String e r' =>
            let unescaped :=
              if Ascii.eqb e dquote then Some dquote
              else if Ascii.eqb e backslash then Some backslash
              else if Ascii.eqb e "/" then Some "/"%char
              else if Ascii.eqb e "b" then Some (ascii_of_nat 8)
              else if Ascii.eqb e "f" then Some (ascii_of_nat 12)
              else if Ascii.eqb e "n" then Some (ascii_of_nat 10)
              else if Ascii.eqb e "r" then Some (ascii_of_nat 13)
              else if Ascii.eqb e "t" then Some (ascii_of_nat 9)
              else None in
            match unescaped, parse_string_body r' with
            | Some u, Some (body, rest) => Some (String u body, rest)
            | _, _ => None
            end
        end
      else if (nat_of_ascii c <? 32)%nat then None
      else match parse_string_body r with
           | Some (body, rest) => Some (String c body, rest)
           | None => None
           end
  end.

(** The longest prefix of digits, and the rest. *)
Fixpoint span_digits (s : string) : string * string :=
  match s with
  | EmptyString => ("", "")
  | String c r =>
      if Js.is_digit c
      then let '(d, t) := span_digits r in (String c d, t)
      else ("", s)
  end.

Definition parse_N (s : string) : option (N * string) :=
  let '(d, rest) := span_digits s in
  match d with
  | EmptyString => None
  | _ =>
      match NilEmpty.uint_of_string d with
      | Some u => Some (N.of_uint u, rest)
      | None => None
      end
  end.

(** An integer literal; a fraction or an exponent is outside the model. *)
Definition parse_number (s : string) : option (Z * string) :=
  let signed :=
    match s with
    | String c r =>
        if Ascii.eqb c "-" then
          match parse_N r with
          | Some (n, rest) => Some (- Z.of_N n, rest)
          | None => None
          end
        else
          match parse_N s with
          | Some (n, rest) => Some (Z.of_N n, rest)
          | None => None
          end
    | EmptyString => None
    end in
  match signed with
  | Some (n, rest) =>
      match rest with
      | String c _ =>
          if Ascii.eqb c "." || Ascii.eqb c "e" || Ascii.eqb c "E" then None
          else Some (n, rest)
      | EmptyString => Some (n, rest)
      end
  | None => None
  end.

Definition parse_value (s : string) : option (value * string) :=
  match s with
  | String c r =>
      if Ascii.eqb c dquote then
        match parse_string_body r with
        | Some (body, rest) => Some (Str body, rest)
        | None => None
        end
      else
        match parse_number s with
        | Some (n, rest) => Some (Num n, rest)
        | None => None
        end
  | EmptyString => None
  end.

(** The text after the character [c], when the text starts with it. *)
Definition expect (c : ascii) (s : string) : option string :=
  match s with
  | String c' r => if Ascii.eqb c' c then Some r else None
  | EmptyString => None
  end.

(** The members of an object from the opening quote of a key to the
    closing brace. *)
Fixpoint parse_members (fuel : nat) (s : string) : option (object * string) :=
  match fuel with
  | O => None
  | S fuel' =>
      match expect dquote s with
      | None => None
      | Some r =>
          match parse_string_body r with
          | None => None
          | Some (key, r1) =>
              match expect ":" (skip_ws r1) with
              | None => None
              | Some r2 =>
                  match parse_value (skip_ws r2) with
                  | None => None
                  | Some (v, r3) =>
                      match expect "," (skip_ws r3) with
                      | Some r4 =>
                          match parse_members fuel' (skip_ws r4) with
                          | Some (o, rest) => Some ((key, v) :: o, rest)
                          | None => None
                          end
                      | None =>
                          match expect "}" (skip_ws r3) with
                          | Some r4 => Some ([(key, v)], r4)
                          | None => None
                          end
                      end
                  end
              end
          end
      end
  end.

(** [JSON.parse(s)] on a text whose top level is an object with integer
    and string members, the shape of the payload; [None] is the
    [SyntaxError], and stands for every text outside that shape. *)
Definition parse (s : string) : option object :=
  match expect "{" (skip_ws s) with
  | None => None
  | Some r =>
      match expect "}" (skip_ws r) with
      | Some rest =>
          match skip_ws rest with
          | EmptyString => Some []
          | _ => None
          end
      | None =>
          match parse_members (String.length r) (skip_ws r) with
          | Some (o, rest) =>
              match skip_ws rest with
              | EmptyString => Some o
              | _ => None
              end
          | None => None
          end
      end
  end.

(** [o.k]: the last member named [k] wins. *)
Fixpoint get (k : string) (o : object) : option value :=
  match o with
  | [] => None
  | (k', v) :: r =>
      match get k r with
      | Some v' => Some v'
      | None => if String.eqb k k' then Some v else None
      end
  end.

(** A character that [JSON.stringify] writes as it is. *)
Definition plain (c : ascii) : bool :=
  negb (Ascii.eqb c dquote) && negb (Ascii.eqb c backslash)
  && negb (nat_of_ascii c <? 32)%nat.

Fixpoint all_plain (s : string) : bool :=
  match s with
  | EmptyString => true
  | String c r => plain c && all_plain r
  end.

Definition plain_value (v : value) : bool :=
  match v with
  | Num _ => true
  | Str s => all_plain s
  end.

Definition plain_member (m : string * value) : bool :=
  all_plain (fst m) && plain_value (snd m).

(** What can follow a member: a comma or the closing brace. *)
Definition closes (c : ascii) : Prop := c = ","%char \/ c = "}"%char.

End Json.

(** ** Node's [crypto], as far as the exporter uses it *)

Record Crypto := {
  (** [crypto.scryptSync(password, salt, keylen)] *)
  scryptSync : string -> string -> nat -> list Byte.byte;
  (** [createCipheriv('aes-256-gcm', key, iv)], [update], [final] and
      [getAuthTag]: the ciphertext and the tag. *)
  gcm_encrypt : list Byte.byte -> list Byte.byte -> list Byte.byte ->
                list Byte.byte * list Byte.byte;
  (** [createDecipheriv('aes-256-gcm', key, iv)], [setAuthTag(tag)],
      [update] and [final]: [None] when [final] throws. *)
  gcm_decrypt : list Byte.byte -> list Byte.byte -> list Byte.byte ->
                list Byte.byte -> option (list Byte.byte)
}.

(** Decryption under the same key and nonce, with the tag of the
    encryption, returns the plaintext. *)
Definition gcm_correct (C : Crypto) : Prop :=
  forall key iv p,
    gcm_decrypt C key iv (snd (gcm_encrypt C key iv p)) (fst (gcm_encrypt C key iv p))
    = Some p.

(** GCM is a stream mode with a tag of 16 bytes. *)
Definition gcm_sizes (C : Crypto) : Prop :=
  forall key iv p,
    length (fst (gcm_encrypt C key iv p)) = length p /\
    length (snd (gcm_encrypt C key iv p)) = 16%nat.

(** ** Credential exporter *)

(** [exportSessionTokens] of the legacy revision (lines 87-90). *)
Definition exportSessionTokens (credsContent : list Byte.byte) : list string :=
  let base64Creds := Base64.encode credsContent in
  ["Mantra~" ++ base64Creds].

(** The payload [{ v: 1, creds: base64Creds, ts: now() }]. *)
Definition envelope (base64Creds : string) (ts : Z) : Json.object :=
  [("v", Json.Num 1); ("creds", Json.Str base64Creds); ("ts", Json.Num ts)].

(** [exportTokensFromCreds] (lines 559-575).  [iv] is the result of
    [crypto.randomBytes(12)] and [ts] of [now()]. *)
Definition exportTokensFromCreds (C : Crypto) (cfg : Config)
    (iv : list Byte.byte) (ts : Z) (credsBytes : list Byte.byte) : list string :=
  let base64Creds := Base64.encode credsBytes in
  if negb (EXPORT_ENCRYPTED cfg) then ["Mantra~" ++ base64Creds]
  else
    let key := scryptSync C (SESSION_SECRET cfg) "mantra-pair" 32 in
    let payload := list_byte_of_string (Json.stringify (envelope base64Creds ts)) in
    let '(ciphertext, tag) := gcm_encrypt C key iv payload in
    ["MantraEnc~" ++ b64url (iv ++ tag ++ ciphertext)].

(** ** The decrypt utility ([scripts/decrypt-session.js]) *)

Inductive Outcome :=
| Exit (code : nat) (stderr : string)
| Stdout (bytes : list Byte.byte).

Definition usage : Outcome :=
  Exit 2 "Usage: SESSION_SECRET=... node scripts/decrypt-session.js MantraEnc~<token>".

(** The script with the payload read by [Json.parse], from its argument
    [process.argv[2]] and the variable [SESSION_SECRET] of its
    environment; it is [decrypt_session_with] below at the reader
    [flat_json] ([decrypt_session_flat]).  The messages of the two
    [catch] branches are given without the text of the exception. *)
Definition decrypt_session (C : Crypto) (argv2 : option string)
    (env_secret : option string) : Outcome :=
  match argv2 with
  | None => usage
  | Some token =>
      if String.eqb token "" || negb (Js.startsWith "MantraEnc~" token) then usage
      else
        let secret := Js.trim (Js.or_default env_secret "") in
        if String.eqb secret "" then Exit 2 "SESSION_SECRET is required"
        else
          let packed := b64urlDecodeToBuf (Js.slice_from 10 token) in
          if (length packed <? 12 + 16 + 1)%nat then Exit 2 "Token too short"
          else
            let iv := take 12 packed in
            let tag := take 16 (drop 12 packed) in
            let ciphertext := drop 28 packed in
            let key := scryptSync C secret "mantra-pair" 32 in
            match gcm_decrypt C key iv tag ciphertext with
            | None => Exit 1 "Decrypt failed"
            | Some plaintext =>
                match Json.parse (string_of_list_byte plaintext) with
                | None => Exit 1 "Invalid payload JSON"
                | Some parsed =>
                    match Json.get "v" parsed, Json.get "creds" parsed with
                    | Some (Json.Num 1), Some (Json.Str creds) =>
                        Stdout (Base64.decode creds)
                    | _, _ => Exit 1 "Unexpected payload format"
                    end
                end
            end
  end.

(** What the script takes from [JSON.parse] (lines 46-57).  The text
    of the payload is parsed to a value, or a [SyntaxError] is thrown
    ([None]); of the value the script reads whether it is falsy
    ([!parsed]), whether its member [v] is the number 1
    ([parsed.v !== 1]), and its member [creds] when that is a string
    ([typeof parsed.creds !== 'string']). *)
Record JsonReader := {
  jvalue : Type;
  JSON_parse : string -> option jvalue;
  falsy : jvalue -> bool;
  v_is_one : jvalue -> bool;
  creds_string : jvalue -> option string
}.

(** The script over any [JSON.parse], from its argument
    [process.argv[2]] and the variable [SESSION_SECRET] of its
    environment.  The messages of the two [catch] branches are given
    without the text of the exception. *)
Definition decrypt_session_with (J : JsonReader) (C : Crypto)
    (argv2 : option string) (env_secret : option string) : Outcome :=
  match argv2 with
  | None => usage
  | Some token =>
      if String.eqb token "" || negb (Js.startsWith "MantraEnc~" token) then usage
      else
        let secret := Js.trim (Js.or_default env_secret "") in
        if String.eqb secret "" then Exit 2 "SESSION_SECRET is required"
        else
          let packed := b64urlDecodeToBuf (Js.slice_from 10 token) in
          if (length packed <? 12 + 16 + 1)%nat then Exit 2 "Token too short"
          else
            let iv := take 12 packed in
            let tag := take 16 (drop 12 packed) in
            let ciphertext := drop 28 packed in
            let key := scryptSync C secret "mantra-pair" 32 in
            match gcm_decrypt C key iv tag ciphertext with
            | None => Exit 1 "Decrypt failed"
            | Some plaintext =>
                match JSON_parse J (string_of_list_byte plaintext) with
                | None => Exit 1 "Invalid payload JSON"
                | Some parsed =>
                    if falsy J parsed || negb (v_is_one J parsed)
                    then Exit 1 "Unexpected payload format"
                    else
                      match creds_string J parsed with
                      | Some creds => Stdout (Base64.decode creds)
                      | None => Exit 1 "Unexpected payload format"
                      end
                end
            end
  end.

(** The reader of this file: [Json.parse], which reads the objects the
    exporter writes.  An object is never falsy. *)
Definition flat_json : JsonReader :=
  {| jvalue := Json.object;
     JSON_parse := Json.parse;
     falsy := fun _ => false;
     v_is_one := fun o =>
       match Json.get "v" o with Some (Json.Num 1) => true | _ => false end;
     creds_string := fun o =>
       match Json.get "creds" o with Some (Json.Str c) => Some c | _ => None end |}.

(** ** The session store and the pairing state machine *)

(** The server is one thread of cooperative tasks.  A task runs from one
    [await] to the next without interruption; what is suspended at an
    [await] is a continuation in the store, and the environment decides
    when it resumes and, for an external call, with which result. *)

(** A connection returned by [makeWASocket]. *)
Abbreviation Handle := nat (only parsing).
(** The identity of a session object. *)
Abbreviation Addr := nat (only parsing).
Abbreviation TimerId := nat (only parsing).
Abbreviation TaskId := nat (only parsing).

(** What [s.emitter] emits. *)
Inductive Emitted :=
| EStatus (status : string) (retry : option (nat * Z))
| ECode (code : option string)
| EQr (qr : string)
| EExported (format : string)
| ESessionError (message : string).

(** The session object built by the creation request (lines 902-916). *)
Record Session := {
  id : string;
  streamKey : string;
  method : string;
  phone : option string;
  createdAt : Z;
  lastEventAt : Z;
  dir : string;
  emitted : list Emitted;
  sock : option Handle;
  lastQr : option string;
  lastCode : option string;
  retries : nat;
  timers_ttl : option TimerId;
  timers_idle : option TimerId
}.

Definition set_lastEventAt (t : Z) (s : Session) : Session :=
  {| id := id s; streamKey := streamKey s; method := method s; phone := phone s;
     createdAt := createdAt s; lastEventAt := t; dir := dir s;
     emitted := emitted s; sock := sock s; lastQr := lastQr s;
     lastCode := lastCode s; retries := retries s;
     timers_ttl := timers_ttl s; timers_idle := timers_idle s |}.

Definition set_emitted (l : list Emitted) (s : Session) : Session :=
  {| id := id s; streamKey := streamKey s; method := method s; phone := phone s;
     createdAt := createdAt s; lastEventAt := lastEventAt s; dir := dir s;
     emitted := l; sock := sock s; lastQr := lastQr s;
     lastCode := lastCode s; retries := retries s;
     timers_ttl := timers_ttl s; timers_idle := timers_idle s |}.

Definition set_sock (h : option Handle) (s : Session) : Session :=
  {| id := id s; streamKey := streamKey s; method := method s; phone := phone s;
     createdAt := createdAt s; lastEventAt := lastEventAt s; dir := dir s;
     emitted := emitted s; sock := h; lastQr := lastQr s;
     lastCode := lastCode s; retries := retries s;
     timers_ttl := timers_ttl s; timers_idle := timers_idle s |}.

Definition set_lastQr (q : option string) (s : Session) : Session :=
  {| id := id s; streamKey := streamKey s; method := method s; phone := phone s;
     createdAt := createdAt s; lastEventAt := lastEventAt s; dir := dir s;
     emitted := emitted s; sock := sock s; lastQr := q;
     lastCode := lastCode s; retries := retries s;
     timers_ttl := timers_ttl s; timers_idle := timers_idle s |}.

Definition set_lastCode (c : option string) (s : Session) : Session :=
  {| id := id s; streamKey := streamKey s; method := method s; phone := phone s;
     createdAt := createdAt s; lastEventAt := lastEventAt s; dir := dir s;
     emitted := emitted s; sock := sock s; lastQr := lastQr s;
     lastCode := c; retries := retries s;
     timers_ttl := timers_ttl s; timers_idle := timers_idle s |}.

Definition set_retries (n : nat) (s : Session) : Session :=
  {| id := id s; streamKey := streamKey s; method := method s; phone := phone s;
     createdAt := createdAt s; lastEventAt := lastEventAt s; dir := dir s;
     emitted := emitted s; sock := sock s; lastQr := lastQr s;
     lastCode := lastCode s; retries := n;
     timers_ttl := timers_ttl s; timers_idle := timers_idle s |}.

Definition set_timers_ttl (t : option TimerId) (s : Session) : Session :=
  {| id := id s; streamKey := streamKey s; method := method s; phone := phone s;
     createdAt := createdAt s; lastEventAt := lastEventAt s; dir := dir s;
     emitted := emitted s; sock := sock s; lastQr := lastQr s;
     lastCode := lastCode s; retries := retries s;
     timers_ttl := t; timers_idle := timers_idle s |}.

Definition set_timers_idle (t : option TimerId) (s : Session) : Session :=
  {| id := id s; streamKey := streamKey s; method := method s; phone := phone s;
     createdAt := createdAt s; lastEventAt := lastEventAt s; dir := dir s;
     emitted := emitted s; sock := sock s; lastQr := lastQr s;
     lastCode := lastCode s; retries := retries s;
     timers_ttl := timers_ttl s; timers_idle := t |}.

(** A connection as the server sees it: the session it was opened for,
    whether [end()] was called on it, whether it announced its close, and
    [sock.user.id]. *)
Record SockInfo := {
  owner : Addr;
  ended : bool;
  closed : bool;
  user_id : option string
}.

Definition live (k : SockInfo) : bool := negb (ended k) && negb (closed k).

(** An error object, as far as [statusCodeFromError] and the messages
    read it. *)
Record JsError := {
  err_output_statusCode : option Z;
  err_data_statusCode : option Z;
  err_statusCode : option Z;
  err_response_status : option Z;
  err_message : option string
}.

(** A [connection.update] event: [connection], [qr] and
    [lastDisconnect.error]. *)
Record Update := {
  connection : option string;
  qr : option string;
  lastDisconnect_error : option JsError
}.

(** Who called [startPairing], which decides the [.catch] that runs when
    it rejects: the creation request (line 924), the retry after a close
    (line 783) or the retry after a failed code request (line 826). *)
Inductive Caller := Initial | RetryClose | RetryCode.

(** The callbacks given to [setTimeout]. *)
Inductive TimerCb :=
| TtlExpired (s : Addr)
| IdleExpired (s : Addr).

(** The suspended continuations, named after the [await] they wait at. *)
Inductive Cont :=
| K_ensureDir (s : Addr) (who : Caller)
| K_authState (s : Addr) (who : Caller)
| K_version (s : Addr) (who : Caller)
| K_settle (s : Addr) (sock : Handle)
| K_reqCode (s : Addr) (sock : Handle)
| K_retryEnd (s : Addr) (who : Caller)
| K_endSocketOnly (s : Addr) (who : Caller)
| K_backoff (s : Addr) (who : Caller)
| K_qr (s : Addr) (sock : Handle) (u : Update)
| K_openSettle (s : Addr) (sock : Handle)
| K_readFile (s : Addr) (sock : Handle)
| K_sendToken (s : Addr) (sock : Handle) (jid : string) (rest : list string)
| K_tokenGap (s : Addr) (sock : Handle) (jid : string) (rest : list string)
| K_sendConfirm (s : Addr)
| K_grace (s : Addr)
| K_cleanEnd (s : Addr)
| K_cleanRemove (s : Addr).

(** What a continuation waits for: a [delay] that ends at a given time,
    or an external call. *)
Inductive Await :=
| AwaitDelay (due : Z)
| AwaitIO.

(** The calls the server makes on its collaborators. *)
Inductive Effect :=
| FsEnsureDir (d : string)
| FsRemove (d : string)
| MakeSocket (h : Handle) (s : Addr)
| SockEnd (h : Handle)
| RequestPairingCode (h : Handle) (phone : option string)
| SendMessage (h : Handle) (jid : string) (text : string)
| SetTimeout (t : TimerId) (ms : Z)
| ClearTimeout (t : TimerId).

(** An HTTP response: the status and the fields of the JSON body. *)
Record Response := {
  status : nat;
  res_ok : bool;
  res_id : option string;
  res_streamKey : option string;
  res_error : option string
}.

Record World := {
  clock : Z;
  heap : list Session;
  sessions : list (string * Addr);
  socks : list SockInfo;
  timers : gmap TimerId (TimerCb * Z);
  next_timer : TimerId;
  tasks : gmap TaskId (Cont * Await);
  next_task : TaskId;
  effects : list Effect;
  responses : list Response
}.

Definition with_clock (x : Z) (w : World) : World :=
  {| clock := x; heap := heap w; sessions := sessions w; socks := socks w;
     timers := timers w; next_timer := next_timer w; tasks := tasks w;
     next_task := next_task w; effects := effects w;
     responses := responses w |}.

Definition with_heap (x : list Session) (w : World) : World :=
  {| clock := clock w; heap := x; sessions := sessions w; socks := socks w;
     timers := timers w; next_timer := next_timer w; tasks := tasks w;
     next_task := next_task w; effects := effects w;
     responses := responses w |}.

Definition with_sessions (x : list (string * Addr)) (w : World) : World :=
  {| clock := clock w; heap := heap w; sessions := x; socks := socks w;
     timers := timers w; next_timer := next_timer w; tasks := tasks w;
     next_task := next_task w; effects := effects w;
     responses := responses w |}.

Definition with_socks (x : list SockInfo) (w : World) : World :=
  {| clock := clock w; heap := heap w; sessions := sessions w; socks := x;
     timers := timers w; next_timer := next_timer w; tasks := tasks w;
     next_task := next_task w; effects := effects w;
     responses := responses w |}.

Definition with_timers (x : gmap TimerId (TimerCb * Z)) (w : World) : World :=
  {| clock := clock w; heap := heap w; sessions := sessions w;
     socks := socks w; timers := x; next_timer := next_timer w;
     tasks := tasks w; next_task := next_task w; effects := effects w;
     responses := responses w |}.

Definition with_next_timer (x : TimerId) (w : World) : World :=
  {| clock := clock w; heap := heap w; sessions := sessions w;
     socks := socks w; timers := timers w; next_timer := x; tasks := tasks w;
     next_task := next_task w; effects := effects w;
     responses := responses w |}.

Definition with_tasks (x : gmap TaskId (Cont * Await)) (w : World) : World :=
  {| clock := clock w; heap := heap w; sessions := sessions w;
     socks := socks w; timers := timers w; next_timer := next_timer w;
     tasks := x; next_task := next_task w; effects := effects w;
     responses := responses w |}.

Definition with_next_task (x : TaskId) (w : World) : World :=
  {| clock := clock w; heap := heap w; sessions := sessions w;
     socks := socks w; timers := timers w; next_timer := next_timer w;
     tasks := tasks w; next_task := x; effects := effects w;
     responses := responses w |}.

Definition with_effects (x : list Effect) (w : World) : World :=
  {| clock := clock w; heap := heap w; sessions := sessions w;
     socks := socks w; timers := timers w; next_timer := next_timer w;
     tasks := tasks w; next_task := next_task w; effects := x;
     responses := responses w |}.

Definition with_responses (x : list Response) (w : World) : World :=
  {| clock := clock w; heap := heap w; sessions := sessions w;
     socks := socks w; timers := timers w; next_timer := next_timer w;
     tasks := tasks w; next_task := next_task w; effects := effects w;
     responses := x |}.

(** The server before any request. *)
Definition init : World :=
  {| clock := 0; heap := []; sessions := []; socks := [];
     timers := ∅; next_timer := O; tasks := ∅; next_task := O;
     effects := []; responses := [] |}.

(** *** The [Map] of sessions: keys in insertion order *)

Fixpoint map_get (k : string) (m : list (string * Addr)) : option Addr :=
  match m with
  | [] => None
  | (k', a) :: r => if String.eqb k k' then Some a else map_get k r
  end.

Definition map_has (k : string) (m : list (string * Addr)) : bool :=
  match map_get k m with Some _ => true | None => false end.

Fixpoint map_set (k : string) (a : Addr) (m : list (string * Addr)) :
    list (string * Addr) :=
  match m with
  | [] => [(k, a)]
  | (k', a') :: r =>
      if String.eqb k k' then (k, a) :: r else (k', a') :: map_set k a r
  end.

Fixpoint map_delete (k : string) (m : list (string * Addr)) :
    list (string * Addr) :=
  match m with
  | [] => []
  | (k', a) :: r =>
      if String.eqb k k' then map_delete k r else (k', a) :: map_delete k r
  end.

(** *** Primitive actions *)

Definition perform (e : Effect) (w : World) : World :=
  with_effects (e :: effects w) w.

Definition respond (r : Response) (w : World) : World :=
  with_responses (r :: responses w) w.

(** A field update on the session object at [a]. *)
Definition update (a : Addr) (f : Session -> Session) (w : World) : World :=
  with_heap (alter f a (heap w)) w.

(** [setTimeout(cb, ms)] *)
Definition setTimeout (cb : TimerCb) (ms : Z) (w : World) : TimerId * World :=
  let t := next_timer w in
  (t, perform (SetTimeout t ms)
        (with_next_timer (S t) (with_timers (<[t := (cb, clock w + ms)]> (timers w)) w))).

(** [clearTimeout(t)] *)
Definition clearTimeout (t : TimerId) (w : World) : World :=
  perform (ClearTimeout t) (with_timers (delete t (timers w)) w).

(** [if (t) clearTimeout(t)] *)
Definition clearTimeout_if (t : option TimerId) (w : World) : World :=
  match t with
  | Some t => clearTimeout t w
  | None => w
  end.

(** The running task stops at an [await]; [k] resumes it. *)
Definition suspend (k : Cont) (aw : Await) (w : World) : World :=
  with_next_task (S (next_task w))
    (with_tasks (<[next_task w := (k, aw)]> (tasks w)) w).

(** [await delay(ms)] *)
Definition delay (ms : Z) (k : Cont) (w : World) : World :=
  suspend k (AwaitDelay (clock w + ms)) w.

Definition mark_ended (k : SockInfo) : SockInfo :=
  {| owner := owner k; ended := true; closed := closed k; user_id := user_id k |}.

(** [h.end()]: the call is made, and the connection is no longer live. *)
Definition sock_end (h : Handle) (w : World) : World :=
  perform (SockEnd h) (with_socks (alter mark_ended h (socks w)) w).

(** [makeWASocket(...)]: a fresh connection of the session at [a]. *)
Definition makeWASocket (a : Addr) (w : World) : Handle * World :=
  let h := length (socks w) in
  (h, perform (MakeSocket h a)
        (with_socks (socks w ++ [{| owner := a; ended := false;
                                    closed := false; user_id := None |}]) w)).

(** [emit(s, event, data)] (lines 645-648). *)
Definition emit (a : Addr) (e : Emitted) (w : World) : World :=
  update a (fun s => set_emitted (e :: emitted s) (set_lastEventAt (clock w) s)) w.

(** [s.emitter.emit(event, data)] *)
Definition emitter_emit (a : Addr) (e : Emitted) (w : World) : World :=
  update a (fun s => set_emitted (e :: emitted s) s) w.

(** *** Helpers of the session code *)

(** [statusCodeFromError] (lines 596-604). *)
Definition statusCodeFromError (e : JsError) : option Z :=
  match err_output_statusCode e with
  | Some c => Some c
  | None =>
      match err_data_statusCode e with
      | Some c => Some c
      | None =>
          match err_statusCode e with
          | Some c => Some c
          | None => err_response_status e
          end
      end
  end.

(** [${e.message}] *)
Definition message_of (e : JsError) : string := default "undefined" (err_message e).

(** [e?.message || 'Unknown error'] *)
Definition message_or_unknown (e : JsError) : string :=
  Js.or_default (err_message e) "Unknown error".

Definition nl : string := String "010"%char "".

Definition is_line_terminator (c : ascii) : bool :=
  ((nat_of_ascii c =? 10) || (nat_of_ascii c =? 13))%nat.

(** [raw.match(/.{1,4}/g)]: runs of at most four characters other than
    line terminators; [cur] is the run being read. *)
Fixpoint match_groups (cur : string) (s : string) : list string :=
  match s with
  | EmptyString => if String.eqb cur "" then [] else [cur]
  | String c r =>
      if is_line_terminator c then
        (if String.eqb cur "" then [] else [cur]) ++ match_groups "" r
      else
        let cur' := cur ++ String c "" in
        if (String.length cur' =? 4)%nat then cur' :: match_groups "" r
        else match_groups cur' r
  end.

(** [raw?.match(/.{1,4}/g)?.join('-') || raw] (line 810). *)
Definition formatCode (raw : option string) : option string :=
  match raw with
  | None => None
  | Some r =>
      match match_groups "" r with
      | [] => Some r
      | g => Some (String.concat "-" g)
      end
  end.

(** The text before the first occurrence of [c]: [s.split(c)[0]]. *)
Fixpoint before (c : ascii) (s : string) : string :=
  match s with
  | EmptyString => EmptyString
  | String x r => if Ascii.eqb x c then EmptyString else String x (before c r)
  end.

(** [safeSelfJid] (lines 548-553), from [sock?.user?.id]. *)
Definition safeSelfJid (user : option string) : option string :=
  let id := Js.or_default user "" in
  let left := before "@" id in
  let number := Js.trim (before ":" left) in
  if String.eqb number "" then None else Some (number ++ "@s.whatsapp.net").

(** [s.replace(c, by)]: the first occurrence only. *)
Fixpoint replace_first (c : ascii) (by_ : string) (s : string) : string :=
  match s with
  | EmptyString => EmptyString
  | String x r => if Ascii.eqb x c then by_ ++ r else String x (replace_first c by_ r)
  end.

(** The message that carries a token (line 732). *)
Definition token_message (t : string) : string :=
  "```" ++ nl ++ t ++ nl ++ "```".

(** The confirmation message (lines 736-754); [iso] is
    [new Date().toISOString()]. *)
Definition confirmation (cfg : Config) (iso : string) : string :=
  let tokenHint := if EXPORT_ENCRYPTED cfg then "MantraEnc~..." else "Mantra~..." in
  let pairedAt := replace_first "Z" " UTC" (replace_first "T" " " iso) in
  "*MANTRA PAIR COMPLETE* âœ…" ++ nl ++
  "Paired: " ++ pairedAt ++ nl ++ nl ++
  "*What you received*" ++ nl ++
  "- Session token (starts with " ++ tokenHint ++ ")" ++ nl ++ nl ++
  "*Next steps*" ++ nl ++
  "1) Copy the token message above" ++ nl ++
  "2) Paste it into your bot config as the session value" ++ nl ++
  "3) Start/restart the bot" ++ nl ++ nl ++
  "*Security*" ++ nl ++
  "- Do NOT share this token" ++ nl ++
  "- Anyone with it can control this WhatsApp session" ++ nl ++
  "- To revoke: WhatsApp -> Linked devices -> Log out" ++ nl ++ nl ++
  "_Powered by Mantra Inc_".

(** [randomId(prefix)] (line 537); [hex] is the random part. *)
Definition randomId (prefix : string) (now : Z) (hex : string) : string :=
  prefix ++ "_" ++ Js.string_of_Z now ++ "_" ++ hex.

(** [sessionDir] (line 611), relative to [__dirname]. *)
Definition sessionDir (id : string) : string := "temp/" ++ id.

(** *** The session code *)

(** What the server takes from its libraries: the enumeration of
    disconnect reasons, [crypto], and the rendering of a date. *)
Record Lib := {
  DR : DisconnectReasonT;
  crypto : Crypto;
  toISOString : Z -> string
}.

(** The result an [await] resumes with, together with what the
    continuation reads from outside before it suspends again. *)
Inductive Res :=
| Done
| Failed (e : JsError)
| Exists (b : bool)
| Bytes (b : list Byte.byte) (iv : list Byte.byte)
| Code (raw : option string)
| DataUrl (url : string).

Section Machine.

Variable L : Lib.
Variable cfg : Config.

(** [s.sock === h] *)
Definition is_current (s : Session) (h : Handle) : bool :=
  match sock s with
  | Some h' => (h' =? h)%nat
  | None => false
  end.

(** [touchIdle] (lines 637-643). *)
Definition touchIdle (a : Addr) (w : World) : World :=
  match heap w !! a with
  | None => w
  | Some s =>
      let w1 := clearTimeout_if (timers_idle s) w in
      let '(t, w2) := setTimeout (IdleExpired a) (SESSION_IDLE_TTL_MS cfg) w1 in
      update a (set_timers_idle (Some t)) w2
  end.

(** [cleanupSession] (lines 614-628), up to its first [await]: the
    timers are cancelled, then either [s.sock.end()] or, without a
    connection, [fs.remove(s.dir)] is called. *)
Definition cleanupSession (a : Addr) (w : World) : World :=
  match heap w !! a with
  | None => w
  | Some s =>
      let w1 := clearTimeout_if (timers_ttl s) w in
      let w2 := clearTimeout_if (timers_idle s) w1 in
      match sock s with
      | Some h => suspend (K_cleanEnd a) AwaitIO (sock_end h w2)
      | None => suspend (K_cleanRemove a) AwaitIO (perform (FsRemove (dir s)) w2)
      end
  end.

(** After [s.sock.end()] in [cleanupSession]: [fs.remove(s.dir)]. *)
Definition cleanup_remove (a : Addr) (w : World) : World :=
  match heap w !! a with
  | None => w
  | Some s => suspend (K_cleanRemove a) AwaitIO (perform (FsRemove (dir s)) w)
  end.

(** After [fs.remove(s.dir)]: [sessions.delete(s.id)]. *)
Definition cleanup_delete (a : Addr) (w : World) : World :=
  match heap w !! a with
  | None => w
  | Some s => with_sessions (map_delete (id s) (sessions w)) w
  end.

(** The retry once [await endSocketOnly(s)] has resumed (lines 780-781
    and 823-824): the task waits
    [Math.min(RETRY_DELAY_MAX_MS, RETRY_DELAY_MS * s.retries)], with the
    count the session has at that moment. *)
Definition retry_wait (a : Addr) (who : Caller) (w : World) : World :=
  match heap w !! a with
  | None => w
  | Some s => delay (backoff cfg (retries s)) (K_backoff a who) w
  end.

(** The end of [endSocketOnly] (line 634): the handle field is cleared
    and the function returns.  The retry that called it with [await]
    resumes in a later task, so other handlers can run between the
    clearing of the field and the reading of the count. *)
Definition end_returns (a : Addr) (who : Caller) (w : World) : World :=
  suspend (K_endSocketOnly a who) AwaitIO (update a (set_sock None) w).

(** [endSocketOnly] (lines 630-635) as the retry calls it: with a
    connection in the handle field it waits for [s.sock.end()], without
    one it goes on to its end. *)
Definition endSocketOnly (a : Addr) (who : Caller) (w : World) : World :=
  match heap w !! a with
  | None => w
  | Some s =>
      match sock s with
      | Some h => suspend (K_retryEnd a who) AwaitIO (sock_end h w)
      | None => end_returns a who w
      end
  end.

(** The retry branch (lines 777-779 and 820-822). *)
Definition retry (a : Addr) (who : Caller) (w : World) : World :=
  match heap w !! a with
  | None => w
  | Some s =>
      let n := S (retries s) in
      endSocketOnly a who
        (emit a (EStatus "retrying" (Some (n, MAX_RETRIES cfg)))
           (update a (set_retries n) w))
  end.

(** [startPairing] (line 650) up to [await fs.ensureDir(s.dir)]. *)
Definition startPairing (a : Addr) (who : Caller) (w : World) : World :=
  match heap w !! a with
  | None => w
  | Some s => suspend (K_ensureDir a who) AwaitIO (perform (FsEnsureDir (dir s)) w)
  end.

(** The [.catch] of the caller of [startPairing] (lines 924-928,
    783-787, 826-830). *)
Definition rejected (a : Addr) (who : Caller) (w : World) : World :=
  match who with
  | Initial =>
      cleanupSession a
        (emitter_emit a (ESessionError "Failed to start pairing session.") w)
  | RetryClose =>
      cleanupSession a (emit a (ESessionError "Retry failed. Try again.") w)
  | RetryCode =>
      cleanupSession a (emit a (ESessionError "Retry failed. Try QR instead.") w)
  end.

(** Lines 665-686 and 804-806, 841-843: the connection is made and
    becomes the session's handle; a code session then waits five
    seconds, a QR session is done. *)
Definition open_socket (a : Addr) (w : World) : World :=
  let '(h, w1) := makeWASocket a w in
  let w2 := update a (set_sock (Some h)) w1 in
  match heap w2 !! a with
  | None => w2
  | Some s =>
      if String.eqb (method s) "code"
      then delay 5000 (K_settle a h) (emit a (EStatus "requesting_code" None) w2)
      else emit a (EStatus "waiting_qr" None) w2
  end.

(** The message of a close that is not retried (lines 791-797). *)
Definition close_message (s : Session) (reason : option Z) : string :=
  if bool_decide (reason = Some (unavailableService (DR L))) then
    if String.eqb (method s) "code"
    then "WhatsApp service is temporarily unavailable for phone-number pairing (503). Try QR, or wait 5-10 minutes and retry."
    else "WhatsApp service is temporarily unavailable (503). Wait a bit and try again."
  else
    "Couldn't login. Connection closed" ++
    match reason with
    | Some r => if (r =? 0)%Z then "" else " (code " ++ Js.string_of_Z r ++ ")"
    | None => ""
    end ++ ".".

(** [connection === 'close'] (lines 765-801). *)
Definition on_close (a : Addr) (u : Update) (w : World) : World :=
  let reason := lastDisconnect_error u ≫= err_output_statusCode in
  if bool_decide (reason = Some (loggedOut (DR L))) then
    cleanupSession a
      (emit a (ESessionError "Logged out by WhatsApp. Start pairing again.") w)
  else
    match heap w !! a with
    | None => w
    | Some s =>
        if retryGate (DR L) cfg (retries s) reason then retry a RetryClose w
        else cleanupSession a (emit a (ESessionError (close_message s reason)) w)
    end.

(** The handler after its QR part (lines 712-802). *)
Definition after_qr (a : Addr) (h : Handle) (u : Update) (w : World) : World :=
  if bool_decide (connection u = Some "open") then
    delay 1200 (K_openSettle a h)
      (emit a (EStatus "connected" None) (update a (set_retries 0) w))
  else if bool_decide (connection u = Some "close") then on_close a u w
  else w.

(** The [connection.update] handler of the connection [h]
    (lines 689-710): an event of a connection that is not the
    session's current one is dropped. *)
Definition on_update (h : Handle) (u : Update) (w : World) : World :=
  match socks w !! h with
  | None => w
  | Some k =>
      let a := owner k in
      match heap w !! a with
      | None => w
      | Some s =>
          if negb (is_current s h) then w
          else
            let w1 :=
              match connection u with
              | Some c =>
                  if String.eqb c "" then w
                  else touchIdle a (emit a (EStatus c None) w)
              | None => w
              end in
            if Js.truthy (qr u) && String.eqb (method s) "qr"
            then suspend (K_qr a h u) AwaitIO w1
            else after_qr a h u w1
      end
  end.

(** The export failed (lines 757-761). *)
Definition export_failed (a : Addr) (m : string) (w : World) : World :=
  delay 2500 (K_grace a)
    (emit a (ESessionError ("Failed to export session: " ++ m)) w).

(** The confirmation follows the tokens (lines 736-754). *)
Definition send_confirmation (a : Addr) (h : Handle) (jid : string)
    (w : World) : World :=
  suspend (K_sendConfirm a) AwaitIO
    (perform (SendMessage h jid (confirmation cfg (toISOString L (clock w)))) w).

(** [for (const t of tokens)] (lines 730-734), one message at a time. *)
Definition send_tokens (a : Addr) (h : Handle) (jid : string)
    (tokens : list string) (w : World) : World :=
  match tokens with
  | t :: rest =>
      suspend (K_sendToken a h jid rest) AwaitIO
        (perform (SendMessage h jid (token_message t)) w)
  | [] => send_confirmation a h jid w
  end.

(** A failed [requestPairingCode] (lines 814-840). *)
Definition code_failed (a : Addr) (e : JsError) (w : World) : World :=
  match heap w !! a with
  | None => w
  | Some s =>
      let code := statusCodeFromError e in
      if retryGate (DR L) cfg (retries s) code then retry a RetryCode w
      else if bool_decide (code = Some (forbidden (DR L))) then
        emit a (ESessionError "Pairing code isn't available right now. Use QR Scan.") w
      else
        emit a (ESessionError
                  ("Failed to generate pairing code: " ++ message_or_unknown e)) w
  end.

(** A continuation resumes with a result; [None] when the result is
    not one its [await] can produce.  [fetchLatestBaileysVersion] is a
    function of the library and its failure is only logged, and
    [makeWASocket] returns a connection. *)
Definition resume (k : Cont) (r : Res) (w : World) : option World :=
  match k, r with
  | K_ensureDir a who, Done =>
      Some (suspend (K_authState a who) AwaitIO (touchIdle a w))
  | K_ensureDir a who, Failed _ => Some (rejected a who w)
  | K_authState a who, Done => Some (suspend (K_version a who) AwaitIO w)
  | K_authState a who, Failed _ => Some (rejected a who w)
  | K_version a _, Done | K_version a _, Failed _ => Some (open_socket a w)
  | K_settle a h, Done =>
      s ← heap w !! a;
      if negb (is_current s h) then Some w
      else Some (suspend (K_reqCode a h) AwaitIO
                   (perform (RequestPairingCode h (phone s)) w))
  | K_reqCode a h, Code raw =>
      let formatted := formatCode raw in
      Some (touchIdle a (emit a (ECode formatted)
                           (update a (set_lastCode formatted) w)))
  | K_reqCode a h, Failed e => Some (code_failed a e w)
  | K_retryEnd a who, Done | K_retryEnd a who, Failed _ => Some (end_returns a who w)
  | K_endSocketOnly a who, Done => Some (retry_wait a who w)
  | K_backoff a who, Done =>
      s ← heap w !! a;
      if negb (map_has (id s) (sessions w)) then Some w
      else Some (startPairing a who w)
  | K_qr a h u, DataUrl url =>
      Some (after_qr a h u
              (touchIdle a (emit a (EQr url) (update a (set_lastQr (Some url)) w))))
  | K_qr a h u, Failed e =>
      Some (after_qr a h u
              (emit a (ESessionError ("Failed to render QR: " ++ message_of e)) w))
  | K_openSettle a h, Exists false =>
      Some (cleanupSession a
              (emit a (ESessionError "creds.json not found after connect") w))
  | K_openSettle a h, Exists true => Some (suspend (K_readFile a h) AwaitIO w)
  | K_readFile a h, Bytes b iv =>
      let tokens := exportTokensFromCreds (crypto L) cfg iv (clock w) b in
      match safeSelfJid (socks w !! h ≫= user_id) with
      | None => Some (export_failed a "Could not resolve self JID" w)
      | Some jid => Some (send_tokens a h jid tokens w)
      end
  | K_readFile a h, Failed e => Some (export_failed a (message_of e) w)
  | K_sendToken a h jid rest, Done => Some (delay 300 (K_tokenGap a h jid rest) w)
  | K_sendToken a h jid rest, Failed e => Some (export_failed a (message_of e) w)
  | K_tokenGap a h jid rest, Done => Some (send_tokens a h jid rest w)
  | K_sendConfirm a, Done =>
      Some (delay 2500 (K_grace a)
              (emit a (EExported (if EXPORT_ENCRYPTED cfg then "encrypted"
                                  else "legacy")) w))
  | K_sendConfirm a, Failed e => Some (export_failed a (message_of e) w)
  | K_grace a, Done => Some (cleanupSession a w)
  | K_cleanEnd a, Done | K_cleanEnd a, Failed _ => Some (cleanup_remove a w)
  | K_cleanRemove a, Done | K_cleanRemove a, Failed _ => Some (cleanup_delete a w)
  | _, _ => None
  end.

(** A timer fires (lines 639-642 and 919-922). *)
Definition fire (cb : TimerCb) (w : World) : World :=
  match cb with
  | TtlExpired a =>
      cleanupSession a (emitter_emit a (ESessionError "Session expired.") w)
  | IdleExpired a =>
      cleanupSession a
        (emitter_emit a (ESessionError "Session expired due to inactivity.") w)
  end.

(** [sweepExpired] (lines 846-854). *)
Definition sweepExpired (w : World) : World :=
  let t := clock w in
  fold_left
    (fun w '(_, a) =>
       match heap w !! a with
       | None => w
       | Some s =>
           if (SESSION_TTL_MS cfg <? t - createdAt s)%Z
           then cleanupSession a (emitter_emit a (ESessionError "Session expired.") w)
           else w
       end)
    (sessions w) w.

(** *** The HTTP surface *)

Definition json_error (code : nat) (msg : string) : Response :=
  {| status := code; res_ok := false; res_id := None;
     res_streamKey := None; res_error := Some msg |}.

(** The message [Invalid method. Use "code" or "qr".] *)
Definition invalid_method : string :=
  let q := String Json.dquote "" in
  "Invalid method. Use " ++ q ++ "code" ++ q ++ " or " ++ q ++ "qr" ++ q ++ ".".

(** [requireApiKey] (lines 577-582): [true] when the request goes on. *)
Definition requireApiKey (header : option string) : bool :=
  if String.eqb (PAIR_API_KEY cfg) "" then true
  else
    let key := Js.trim (Js.or_default header "") in
    negb (String.eqb key "") && String.eqb key (PAIR_API_KEY cfg).

(** The handler of [POST /api/pair] (lines 886-937), for a body with
    the fields [method] and [phone]; [hex] and [key] are the random
    parts of the id and of the stream key. *)
Definition post_pair (req_method req_phone : option string)
    (hex key : string) (w : World) : World :=
  let method := Js.or_default req_method "code" in
  if negb (String.eqb method "code" || String.eqb method "qr") then
    respond (json_error 400 invalid_method) w
  else
    let checked :=
      if String.eqb method "code" then
        match validatePhone req_phone with
        | inl err => inl err
        | inr p => inr (Some p)
        end
      else inr None in
    match checked with
    | inl err => respond (json_error 400 err) w
    | inr phone =>
        let id := randomId "sess" (clock w) hex in
        let a := length (heap w) in
        let s := {| id := id; streamKey := key; method := method; phone := phone;
                    createdAt := clock w; lastEventAt := clock w;
                    dir := sessionDir id; emitted := []; sock := None;
                    lastQr := None; lastCode := None; retries := 0;
                    timers_ttl := None; timers_idle := None |} in
        let w1 := with_sessions (map_set id a (sessions w))
                    (with_heap (heap w ++ [s]) w) in
        let '(t, w2) := setTimeout (TtlExpired a) (SESSION_TTL_MS cfg) w1 in
        let w3 := update a (set_timers_ttl (Some t)) w2 in
        let w4 := startPairing a Initial w3 in
        respond {| status := 200; res_ok := true; res_id := Some id;
                   res_streamKey :=
                     if String.eqb (PAIR_API_KEY cfg) "" then None else Some key;
                   res_error := None |} w4
    end.

(** The route [POST /api/pair], behind [requireApiKey], for a request
    that the rate limiter lets through. *)
Definition route_pair (header req_method req_phone : option string)
    (hex key : string) (w : World) : World :=
  if requireApiKey header then post_pair req_method req_phone hex key w
  else respond (json_error 401 "Unauthorized") w.

(** [GET /api/sessions/:id/events] (lines 939-953), up to the opening
    of the stream. *)
Definition get_events (id : string) (key : option string) (w : World) : World :=
  match map_get id (sessions w) ≫= (fun a => heap w !! a) with
  | None => respond (json_error 404 "Session not found") w
  | Some s =>
      let k := Js.trim (Js.or_default key "") in
      if negb (String.eqb (PAIR_API_KEY cfg) "")
         && (String.eqb k "" || negb (String.eqb k (streamKey s)))
      then respond (json_error 401 "Unauthorized") w
      else respond {| status := 200; res_ok := true; res_id := None;
                      res_streamKey := None; res_error := None |} w
  end.

(** *** Transitions *)

(** What the environment can do to the server. *)
Inductive Label :=
| Tick (dt : Z)
| PostPair (header req_method req_phone : option string) (hex key : string)
| GetEvents (id : string) (key : option string)
| SockUser (h : Handle) (uid : string)
| ConnUpdate (h : Handle) (u : Update)
| Resume (t : TaskId) (r : Res)
| TimerFire (t : TimerId)
| Sweep.

(** A delay resumes only when it is over, and with no error. *)
Definition may_resume (aw : Await) (r : Res) (now : Z) : bool :=
  match aw with
  | AwaitIO => true
  | AwaitDelay due =>
      (due <=? now)%Z && match r with Done | Exists _ => true | _ => false end
  end.

(** One transition; [None] when the environment cannot do this here. *)
Definition step (l : Label) (w : World) : option World :=
  match l with
  | Tick dt => if (0 <=? dt)%Z then Some (with_clock (clock w + dt) w) else None
  | PostPair header m p hex key => Some (route_pair header m p hex key w)
  | GetEvents i key => Some (get_events i key w)
  | SockUser h uid =>
      k ← socks w !! h;
      Some (with_socks (<[h := {| owner := owner k; ended := ended k;
                                  closed := closed k; user_id := Some uid |}]>
                          (socks w)) w)
  | ConnUpdate h u =>
      k ← socks w !! h;
      let w1 :=
        if bool_decide (connection u = Some "close")
        then with_socks (<[h := {| owner := owner k; ended := ended k;
                                   closed := true; user_id := user_id k |}]>
                           (socks w)) w
        else w in
      Some (on_update h u w1)
  | Resume t r =>
      '(k, aw) ← tasks w !! t;
      if may_resume aw r (clock w)
      then resume k r (with_tasks (delete t (tasks w)) w)
      else None
  | TimerFire t =>
      '(cb, due) ← timers w !! t;
      if (due <=? clock w)%Z
      then Some (fire cb (with_timers (delete t (timers w)) w))
      else None
  | Sweep => Some (sweepExpired w)
  end.

(** A run of the server. *)
Fixpoint run (ls : list Label) (w : World) : option World :=
  match ls with
  | [] => Some w
  | l :: r => w' ← step l w; run r w'
  end.

End Machine.

(** The connections of the session at [a] that are live. *)
Definition live_handles (a : Addr) (w : World) : list Handle :=
  List.filter (fun h => match socks w !! h with
                   | Some k => (owner k =? a)%nat && live k
                   | None => false
                   end)
         (seq 0 (length (socks w))).

(** *** The process *)

(** The process after module load: it is down when the load threw. *)
Inductive Process :=
| Crashed (message : string)
| Up (cfg : Config) (w : World).

Definition start (e : Env) : Process :=
  match boot e with
  | inl m => Crashed m
  | inr c => Up c init
  end.

(** The process takes a transition only while it is up. *)
Definition deliver (L : Lib) (l : Label) (p : Process) : Process :=
  match p with
  | Crashed m => Crashed m
  | Up c w =>
      match step L c l w with
      | Some w' => Up c w'
      | None => Up c w
      end
  end.

(** The number of digits in a string. *)
Definition digit_count (s : string) : nat :=
  length (List.filter Js.is_digit (list_ascii_of_string s)).

(** The process takes the transitions of [ls] in order. *)
Definition deliver_all (L : Lib) (ls : list Label) (p : Process) : Process :=
  fold_left (fun p l => deliver L l p) ls p.

(** ** Concrete inputs for the examples *)

(** No variable is set: every option has its default. *)
Definition default_env : Env :=
  {| env_PAIR_API_KEY := None; env_SESSION_TTL_MS := None;
     env_SESSION_IDLE_TTL_MS := None; env_MAX_RETRIES := None;
     env_RETRY_DELAY_MS := None; env_RETRY_DELAY_MAX_MS := None;
     env_EXPORT_ENCRYPTED := None; env_SESSION_SECRET := None |}.

Definition default_config : Config := read_config default_env.

(** Encrypted export with the secret [s3cret]. *)
Definition encrypted_env : Env :=
  {| env_PAIR_API_KEY := None; env_SESSION_TTL_MS := None;
     env_SESSION_IDLE_TTL_MS := None; env_MAX_RETRIES := None;
     env_RETRY_DELAY_MS := None; env_RETRY_DELAY_MAX_MS := None;
     env_EXPORT_ENCRYPTED := Some "TRUE"; env_SESSION_SECRET := Some " s3cret " |}.

Definition encrypted_config : Config := read_config encrypted_env.

(** The API key [letmein] is configured. *)
Definition keyed_env : Env :=
  {| env_PAIR_API_KEY := Some "letmein"; env_SESSION_TTL_MS := None;
     env_SESSION_IDLE_TTL_MS := None; env_MAX_RETRIES := None;
     env_RETRY_DELAY_MS := None; env_RETRY_DELAY_MAX_MS := None;
     env_EXPORT_ENCRYPTED := None; env_SESSION_SECRET := None |}.

Definition keyed_config : Config := read_config keyed_env.

(** A stand-in for [crypto] that satisfies [gcm_correct] and
    [gcm_sizes]: the ciphertext is the plaintext, and the tag is sixteen
    fixed bytes. *)
Definition toy_crypto : Crypto :=
  {| scryptSync := fun _ _ n => repeat Byte.x5a n;
     gcm_encrypt := fun _ _ p => (p, repeat Byte.x2a 16);
     gcm_decrypt := fun _ _ tag c =>
       if (length tag =? 16)%nat then Some c else None |}.

Definition example_lib : Lib :=
  {| DR := Baileys; crypto := toy_crypto;
     toISOString := fun _ => "2026-01-01T00:00:00.000Z" |}.

Definition boom (code : Z) (m : string) : JsError :=
  {| err_output_statusCode := Some code; err_data_statusCode := None;
     err_statusCode := None; err_response_status := None;
     err_message := Some m |}.

Definition close_with (code : Z) : Update :=
  {| connection := Some "close"; qr := None;
     lastDisconnect_error := Some (boom code "Connection Closed") |}.

Definition opened : Update :=
  {| connection := Some "open"; qr := None; lastDisconnect_error := None |}.

Definition qr_pushed (payload : string) : Update :=
  {| connection := None; qr := Some payload; lastDisconnect_error := None |}.

(** *** Runs of one session *)

(** The directories [fs.remove] was called on, latest first. *)
Definition removals_of (w : World) : list string :=
  omap (fun e => match e with FsRemove d => Some d | _ => None end) (effects w).

(** The connections [end()] was called on, latest first. *)
Definition ends_of (w : World) : list Handle :=
  omap (fun e => match e with SockEnd h => Some h | _ => None end) (effects w).

(** The timers left by a cleanup of [s]. *)
Definition cancelled (s : Session) (m : gmap nat (TimerCb * Z)) :
    gmap nat (TimerCb * Z) :=
  let m1 := match timers_ttl s with Some t => delete t m | None => m end in
  match timers_idle s with Some t => delete t m1 | None => m1 end.

(** The connections left by a cleanup of [s]. *)
Definition ended_by (s : Session) (l : list SockInfo) : list SockInfo :=
  match sock s with Some h => alter mark_ended h l | None => l end.

(** The server after one creation request for a QR session. *)
Definition created : World :=
  route_pair default_config None (Some "qr") None "ab12" "k1" init.

(** One cleanup from its call to its last step, with nothing between. *)
Definition cleanup_to_completion (L : Lib) (cfg : Config) (a : Addr)
    (w : World) : option World :=
  match heap w !! a ≫= sock with
  | Some _ =>
      run L cfg [Resume (next_task w) Done; Resume (S (next_task w)) Done]
        (cleanupSession a w)
  | None => run L cfg [Resume (next_task w) Done] (cleanupSession a w)
  end.

(** A code session whose connection closes while the pairing code is
    being requested: the library reports the close (reason 428) and
    rejects the request with the same reason.  Both retries end the
    connection, wait, and start pairing. *)
Definition racing_retries : list Label :=
  [ PostPair None (Some "code") (Some "15551234567") "ab12" "k1";
    Resume 0 Done; Resume 1 Done; Resume 2 Done;
    Tick 5000; Resume 3 Done;
    ConnUpdate 0 (close_with 428);
    Resume 4 (Failed (boom 428 "Connection Closed"));
    Resume 5 Done; Resume 6 Done;
    Resume 7 Done; Resume 8 Done;
    Tick 8000;
    Resume 9 Done; Resume 10 Done;
    Resume 11 Done; Resume 13 Done; Resume 14 Done;
    Resume 12 Done; Resume 16 Done; Resume 17 Done ].

(** A QR session: created at time 0, its connection made, two QR codes
    pushed and rendered, 297 seconds gone. *)
Definition waiting_qr : list Label :=
  [ PostPair None (Some "qr") None "ab12" "k1";
    Resume 0 Done; Resume 1 Done; Resume 2 Done;
    Tick 100000; ConnUpdate 0 (qr_pushed "2@abc");
    Resume 3 (DataUrl "data:image/png;base64,AAAA");
    Tick 100000; ConnUpdate 0 (qr_pushed "2@def");
    Resume 4 (DataUrl "data:image/png;base64,BBBB");
    Tick 97000 ].

(** The code is scanned: the connection opens and the credentials are
    about to be read. *)
Definition paired : list Label :=
  (waiting_qr ++
   [ SockUser 0 "15551234567:12@s.whatsapp.net"; ConnUpdate 0 opened;
     Tick 1200; Resume 5 (Exists true) ])%list.

(** The token and the confirmation are sent; the grace delay of 2500 ms
    runs until 301000. *)
Definition delivered : list Label :=
  (paired ++
   [ Resume 6 (Bytes [Byte.x7b; Byte.x7d] (repeat Byte.x07 12));
     Resume 7 Done; Tick 300; Resume 8 Done; Resume 9 Done ])%list.

(** At 300000 the TTL timer fires during the grace delay: cleanup
    begins. *)
Definition ttl_fires : list Label :=
  (delivered ++ [Tick 1500; TimerFire 0])%list.

(** The cleanup of the timer completes; then the grace delay ends and
    the cleanup of the completed export runs. *)
Definition grace_over : list Label :=
  (ttl_fires ++
   [ Resume 11 Done; Resume 12 Done;
     Tick 1000; Resume 10 Done; Resume 13 Done; Resume 14 Done ])%list.

(** The connection of the waiting QR session closes (reason 408) at
    297000, the retry waits until 301000, and meanwhile the TTL timer
    fires and its cleanup removes the session. *)
Definition removed_during_backoff : list Label :=
  (waiting_qr ++
   [ ConnUpdate 0 (close_with 408); Resume 5 Done; Resume 6 Done;
     Tick 3000; TimerFire 0; Resume 8 Done; Tick 1000 ])%list.

(** The two retries of [racing_retries] when [end()] returns at once:
    the close handler has cleared the handle field before the rejection
    of [requestPairingCode] is handled, and both retries are suspended
    at [await endSocketOnly(s)] with the counter at two. *)
Definition retries_overlap : list Label :=
  [ PostPair None (Some "code") (Some "15551234567") "ab12" "k1";
    Resume 0 Done; Resume 1 Done; Resume 2 Done;
    Tick 5000; Resume 3 Done;
    ConnUpdate 0 (close_with 428);
    Resume 5 Done;
    Resume 4 (Failed (boom 428 "Connection Closed")) ].

(** The idle timer of a waiting QR session fires at 120000 and its
    cleanup calls [end()]; the connection reports its close while the
    cleanup waits for that call; then the cleanup runs to its last
    step. *)
Definition closes_during_cleanup : list Label :=
  [ PostPair None (Some "qr") None "ab12" "k1";
    Resume 0 Done; Resume 1 Done; Resume 2 Done;
    Tick 120000; TimerFire 1;
    ConnUpdate 0 (close_with 428);
    Resume 3 Done; Resume 5 Done ].

(** Cleanup as a guarded single shot: in no run is the working directory
    of a session removed twice. *)
Definition cleanup_single_shot (L : Lib) (cfg : Config) : Prop :=
  forall ls w, run L cfg ls init = Some w -> NoDup (removals_of w).

(** A session whose cleanup has begun, and is suspended at one of its
    two awaits, is no longer found in the registry. *)
Definition unreachable_once_cleanup_begins (L : Lib) (cfg : Config) : Prop :=
  forall ls w t a s,
    run L cfg ls init = Some w ->
    heap w !! a = Some s ->
    tasks w !! t = Some (K_cleanEnd a, AwaitIO)
    \/ tasks w !! t = Some (K_cleanRemove a, AwaitIO) ->
    map_get (id s) (sessions w) = None.

(** At most one live connection per session, in every reachable state. *)
Definition one_live_handle (L : Lib) (cfg : Config) : Prop :=
  forall ls w a, run L cfg ls init = Some w -> (length (live_handles a w) <= 1)%nat.

(** ** The phone check of the page, and predicates on strings *)

(** Every character of the string is a digit. *)
Fixpoint digits_only (s : string) : bool :=
  match s with
  | EmptyString => true
  | String c r => Js.is_digit c && digits_only r
  end.

(** The character occurs in the string. *)
Fixpoint occurs (c : ascii) (s : string) : bool :=
  match s with
  | EmptyString => false
  | String x r => Ascii.eqb x c || occurs c r
  end.

(** The phone check of the page before it posts ([public/app.js],
    lines 127-134): [Some phone] is the field of the request body, [None]
    the alert that stops the request. *)
Definition client_phone (input : string) : option string :=
  let phone := Js.strip_non_digits input in
  if (String.length phone <? 10)%nat then None else Some phone.

(** No character of the string is a line terminator. *)
Fixpoint one_line (s : string) : bool :=
  match s with
  | EmptyString => true
  | String c r => negb (is_line_terminator c) && one_line r
  end.

(** The session whose export a continuation belongs to, for the
    continuations inside the [try] of lines 724-757 that wait for a call
    that can fail. *)
Definition export_step (k : Cont) : option Addr :=
  match k with
  | K_readFile a _ | K_sendToken a _ _ _ | K_sendConfirm a => Some a
  | _ => None
  end.

(** *** What every reachable state satisfies *)

(** A retry announced to the client: [retry] is a count whose
    predecessor passed the gate [retries < MAX_RETRIES], and [maxRetries]
    is [MAX_RETRIES]. *)
Definition announced_ok (cfg : Config) (e : Emitted) : Prop :=
  match e with
  | EStatus _ (Some (n, m)) =>
      (1 <= n)%nat /\ Z.of_nat n - 1 < MAX_RETRIES cfg /\ m = MAX_RETRIES cfg
  | _ => True
  end.

(** A phone number as [validatePhone] returns it. *)
Definition valid_phone (p : option string) : Prop :=
  exists c, p = Some c /\ digits_only c = true /\ (10 <= String.length c <= 15)%nat.

Record sound (cfg : Config) (s : Session) : Prop := {
  sound_dir : dir s = sessionDir (id s);
  sound_retries : retries s = 0%nat \/ Z.of_nat (retries s) - 1 < MAX_RETRIES cfg;
  sound_emitted : Forall (announced_ok cfg) (emitted s);
  sound_phone : method s = "code" -> valid_phone (phone s)
}.

(** The session a timer was armed for, and the field that holds the
    timer: [s.timers.ttl] or [s.timers.idle]. *)
Definition timer_owner (cb : TimerCb) : Addr :=
  match cb with TtlExpired a | IdleExpired a => a end.

Definition timer_field (cb : TimerCb) (s : Session) : option TimerId :=
  match cb with
  | TtlExpired _ => timers_ttl s
  | IdleExpired _ => timers_idle s
  end.

Definition set_timer_field (cb : TimerCb) (t : option TimerId) (s : Session) : Session :=
  match cb with
  | TtlExpired _ => set_timers_ttl t s
  | IdleExpired _ => set_timers_idle t s
  end.

(** The session a pending timer belongs to holds its id in the field
    of its kind. *)
Definition owns (w : World) (t : TimerId) (cb : TimerCb) : Prop :=
  exists s, heap w !! timer_owner cb = Some s /\ timer_field cb s = Some t.

Record consistent (cfg : Config) (w : World) : Prop := {
  registry_sound : forall k a, In (k, a) (sessions w) ->
    exists s, heap w !! a = Some s /\ id s = k;
  heap_sound : forall a s, heap w !! a = Some s -> sound cfg s;
  timers_owned : forall t cb due, timers w !! t = Some (cb, due) -> owns w t cb;
  tasks_sound : forall t a h aw, tasks w !! t = Some (K_settle a h, aw) ->
    exists s, heap w !! a = Some s /\ method s = "code";
  effects_sound : forall h p, In (RequestPairingCode h p) (effects w) -> valid_phone p
}.

(** A field update that leaves the identity, the method and the timer
    fields of [s], and keeps it sound. *)
Definition keeps (cfg : Config) (f : Session -> Session) (s : Session) : Prop :=
  id (f s) = id s /\ method (f s) = method s /\
  timers_ttl (f s) = timers_ttl s /\ timers_idle (f s) = timers_idle s /\
  (sound cfg s -> sound cfg (f s)).

(** *** Shutdown *)

(** The [SIGINT] handler (lines 992-999) before [process.exit(0)]: the
    sessions of the registry are cleaned in insertion order, each
    cleanup awaited before the next begins; [l] is what is left of the
    iteration over [sessions.values()]. *)
Fixpoint shutdown (L : Lib) (cfg : Config) (l : list (string * Addr)) (w : World) :
    option World :=
  match l with
  | [] => Some w
  | (_, a) :: r => w' ← cleanup_to_completion L cfg a w; shutdown L cfg r w'
  end.

Definition on_sigint (L : Lib) (cfg : Config) (w : World) : option World :=
  shutdown L cfg (sessions w) w.

(* ===================================================================== *)
(** * Part II: properties *)
(* ===================================================================== *)

(** ** The model on known values *)

(** The test vectors of RFC 4648. *)
Example base64_rfc4648 :
  map (fun s => Base64.encode (list_byte_of_string s))
      [""; "f"; "fo"; "foo"; "foob"; "fooba"; "foobar"]
  = [""; "Zg=="; "Zm8="; "Zm9v"; "Zm9vYg=="; "Zm9vYmE="; "Zm9vYmFy"].
Proof. reflexivity. Qed.

Example b64url_example :
  b64url [Byte.xfb; Byte.xff] = "-_8" /\
  b64urlDecodeToBuf "-_8" = [Byte.xfb; Byte.xff] /\
  Base64.decode "+/8=" = [Byte.xfb; Byte.xff].
Proof. repeat split. Qed.

Example validatePhone_examples :
  validatePhone (Some "+1 (555) 123-4567") = inr "15551234567" /\
  validatePhone (Some "15551234567") = inr "15551234567" /\
  validatePhone (Some "123456789") = inl "Phone number must be 10-15 digits" /\
  validatePhone (Some "1234567890123456") = inl "Phone number must be 10-15 digits" /\
  validatePhone (Some "not a number") = inl "Phone number must be 10-15 digits".
Proof. repeat split. Qed.

Example formatCode_examples :
  formatCode (Some "ABCD1234") = Some "ABCD-1234" /\
  formatCode (Some "ABCDE") = Some "ABCD-E" /\
  formatCode (Some "") = Some "" /\
  formatCode None = None.
Proof. repeat split. Qed.

Example safeSelfJid_examples :
  safeSelfJid (Some "15551234567:12@s.whatsapp.net") = Some "15551234567@s.whatsapp.net" /\
  safeSelfJid (Some "@s.whatsapp.net") = None /\
  safeSelfJid None = None.
Proof. repeat split. Qed.

Example stringify_envelope_example :
  Json.stringify (envelope "e30=" 1700000000000)
  = "{" ++ String Json.dquote "v" ++ String Json.dquote ":1,"
    ++ String Json.dquote "creds" ++ String Json.dquote ":"
    ++ String Json.dquote "e30=" ++ String Json.dquote ","
    ++ String Json.dquote "ts" ++ String Json.dquote ":1700000000000}".
Proof. reflexivity. Qed.

Example read_config_examples :
  boot default_env = inr default_config /\
  EXPORT_ENCRYPTED default_config = false /\
  MAX_RETRIES default_config = 8 /\
  boot encrypted_env = inr encrypted_config /\
  EXPORT_ENCRYPTED encrypted_config = true /\
  SESSION_SECRET encrypted_config = "s3cret".
Proof. repeat split. Qed.

(** ** Base64 *)

Section Base64Facts.
Import Base64.

Lemma sextet_of_char_of_sextet (s : sextet) :
  sextet_of_char (char_of_sextet s) = Some s.
Proof.
  destruct s as [[[[[b5 b4] b3] b2] b1] b0].
  destruct b5, b4, b3, b2, b1, b0; reflexivity.
Qed.

Lemma char_of_sextet_not_eq (s : sextet) :
  Ascii.eqb (char_of_sextet s) "="%char = false.
Proof.
  destruct s as [[[[[b5 b4] b3] b2] b1] b0].
  destruct b5, b4, b3, b2, b1, b0; reflexivity.
Qed.

Lemma legal_char_of_sextet (s : sextet) (r : string) :
  legal (String (char_of_sextet s) r) = s :: legal r.
Proof.
  cbn [legal]. rewrite char_of_sextet_not_eq, sextet_of_char_of_sextet.
  reflexivity.
Qed.

Lemma dec_enc3 (a b c : Byte.byte) :
  let '(s1, s2, s3, s4) := enc3 a b c in
  byte1 s1 s2 = a /\ byte2 s2 s3 = b /\ byte3 s3 s4 = c.
Proof.
  unfold enc3.
  destruct (Byte.to_bits a) as (a0 & a1 & a2 & a3 & a4 & a5 & a6 & a7) eqn:Ea.
  destruct (Byte.to_bits b) as (b0 & b1 & b2 & b3 & b4 & b5 & b6 & b7) eqn:Eb.
  destruct (Byte.to_bits c) as (c0 & c1 & c2 & c3 & c4 & c5 & c6 & c7) eqn:Ec.
  cbn [byte1 byte2 byte3].
  rewrite <- Ea, <- Eb, <- Ec, !Byte.of_bits_to_bits. auto.
Qed.

(** Induction three bytes at a time. *)
Lemma bytes_ind3 (P : list Byte.byte -> Prop) :
  P [] -> (forall a, P [a]) -> (forall a b, P [a; b]) ->
  (forall a b c r, P r -> P (a :: b :: c :: r)) ->
  forall bs, P bs.
Proof.
  intros H0 H1 H2 H3.
  fix IH 1. intros [|a [|b [|c r]]];
    [exact H0 | exact (H1 a) | exact (H2 a b) | exact (H3 a b c r (IH r))].
Qed.

Lemma decode_encode (bs : list Byte.byte) : decode (encode bs) = bs.
Proof.
  unfold decode. induction bs as [|a|a b|a b c r IH] using bytes_ind3.
  - reflexivity.
  - cbn [encode]. pose proof (dec_enc3 a zero zero) as H.
    destruct (enc3 a zero zero) as [[[s1 s2] s3] s4].
    rewrite !legal_char_of_sextet. cbn. destruct H as (-> & _). reflexivity.
  - cbn [encode]. pose proof (dec_enc3 a b zero) as H.
    destruct (enc3 a b zero) as [[[s1 s2] s3] s4].
    rewrite !legal_char_of_sextet. cbn. destruct H as (-> & -> & _). reflexivity.
  - cbn [encode]. pose proof (dec_enc3 a b c) as H.
    destruct (enc3 a b c) as [[[s1 s2] s3] s4].
    rewrite !legal_char_of_sextet. cbn [bytes_of]. rewrite IH.
    destruct H as (-> & -> & ->). reflexivity.
Qed.

End Base64Facts.

(** The URL-safe form decodes to the same bytes. *)

Section B64UrlFacts.
Import Base64.

Lemma legal_replace_plus (s : string) :
  legal (Js.replace_char "+" "-" s) = legal s.
Proof.
  induction s as [|c r IH]; [reflexivity|].
  cbn [Js.replace_char legal]. rewrite IH.
  destruct (Ascii.eqb c "+") eqn:E; [|reflexivity].
  apply Ascii.eqb_eq in E. subst c. reflexivity.
Qed.

Lemma legal_replace_slash (s : string) :
  legal (Js.replace_char "/" "_" s) = legal s.
Proof.
  induction s as [|c r IH]; [reflexivity|].
  cbn [Js.replace_char legal]. rewrite IH.
  destruct (Ascii.eqb c "/") eqn:E; [|reflexivity].
  apply Ascii.eqb_eq in E. subst c. reflexivity.
Qed.

Lemma legal_replace_minus (s : string) :
  legal (Js.replace_char "-" "+" s) = legal s.
Proof.
  induction s as [|c r IH]; [reflexivity|].
  cbn [Js.replace_char legal]. rewrite IH.
  destruct (Ascii.eqb c "-") eqn:E; [|reflexivity].
  apply Ascii.eqb_eq in E. subst c. reflexivity.
Qed.

Lemma legal_replace_underscore (s : string) :
  legal (Js.replace_char "_" "/" s) = legal s.
Proof.
  induction s as [|c r IH]; [reflexivity|].
  cbn [Js.replace_char legal]. rewrite IH.
  destruct (Ascii.eqb c "_") eqn:E; [|reflexivity].
  apply Ascii.eqb_eq in E. subst c. reflexivity.
Qed.

Lemma legal_strip_trailing_eq (s : string) :
  legal (Js.strip_trailing_eq s) = legal s.
Proof.
  induction s as [|c r IH]; [reflexivity|].
  cbn [Js.strip_trailing_eq].
  destruct (Js.strip_trailing_eq r) as [|c' r'] eqn:E.
  - cbn [legal] in *. rewrite <- IH.
    destruct (Ascii.eqb c "=") eqn:Ec; cbn [legal]; rewrite ?Ec; reflexivity.
  - cbn [legal] in *. rewrite IH. reflexivity.
Qed.

Lemma legal_repeat_eq (n : nat) : legal (Js.repeat_eq n) = [].
Proof. destruct n; reflexivity. Qed.

Lemma legal_app_padding (s : string) (n : nat) :
  legal (s ++ Js.repeat_eq n) = legal s.
Proof.
  induction s as [|c r IH]; [apply legal_repeat_eq|].
  change (legal (String c (r ++ Js.repeat_eq n)) = legal (String c r)).
  cbn [legal]. rewrite IH. reflexivity.
Qed.

Lemma b64urlDecodeToBuf_legal (s : string) :
  b64urlDecodeToBuf s = bytes_of (legal s).
Proof.
  unfold b64urlDecodeToBuf, decode.
  set (b64 := Js.replace_char "_" "/" (Js.replace_char "-" "+" s)).
  assert (H : legal b64 = legal s).
  { unfold b64. rewrite legal_replace_underscore, legal_replace_minus. reflexivity. }
  destruct (String.length b64 mod 4 =? 0)%nat.
  - change (b64 ++ "") with (b64 ++ Js.repeat_eq 0).
    rewrite legal_app_padding, H. reflexivity.
  - rewrite legal_app_padding, H. reflexivity.
Qed.

Lemma b64url_roundtrip (buf : list Byte.byte) :
  b64urlDecodeToBuf (b64url buf) = buf.
Proof.
  rewrite b64urlDecodeToBuf_legal. unfold b64url.
  rewrite legal_strip_trailing_eq, legal_replace_slash, legal_replace_plus.
  apply decode_encode.
Qed.

End B64UrlFacts.

(** ** JSON: a payload is read back as it was written *)

Section JsonFacts.
Import Json.

Lemma string_app_cons (c : ascii) (r t : string) : String c r ++ t = String c (r ++ t).
Proof. reflexivity. Qed.

Lemma string_app_nil (t : string) : "" ++ t = t.
Proof. reflexivity. Qed.

Lemma string_app_assoc (a b c : string) : (a ++ b) ++ c = a ++ (b ++ c).
Proof. induction a as [|x a IH]; [reflexivity|]. rewrite !string_app_cons, IH. reflexivity. Qed.

Ltac by_cases_on c H :=
  destruct c as [[] [] [] [] [] [] [] []]; vm_compute in H |- *;
  try reflexivity; discriminate H.

Lemma escape_plain (c : ascii) : plain c = true -> escape c = String c "".
Proof. intros H. by_cases_on c H. Qed.

Lemma escape_all_plain (s : string) : all_plain s = true -> escape_all s = s.
Proof.
  induction s as [|c r IH]; [reflexivity|].
  cbn [all_plain escape_all]. intros [Hc Hr]%andb_prop.
  rewrite (escape_plain c Hc), (IH Hr). reflexivity.
Qed.

Lemma parse_string_body_plain (s rest : string) :
  all_plain s = true ->
  parse_string_body (s ++ String dquote rest) = Some (s, rest).
Proof.
  induction s as [|c r IH]; intros H.
  - reflexivity.
  - cbn [all_plain] in H. apply andb_prop in H as [Hc Hr].
    rewrite string_app_cons. cbn [parse_string_body]. rewrite (IH Hr).
    unfold plain in Hc.
    destruct (Ascii.eqb c dquote); [discriminate|].
    destruct (Ascii.eqb c backslash); [discriminate|].
    destruct (nat_of_ascii c <? 32)%nat; [discriminate|]. reflexivity.
Qed.

Lemma closes_not_digit (c : ascii) : closes c -> Js.is_digit c = false.
Proof. intros [-> | ->]; reflexivity. Qed.

Lemma span_digits_uint (d : Decimal.uint) (c : ascii) (r : string) :
  Js.is_digit c = false ->
  span_digits (NilEmpty.string_of_uint d ++ String c r)
  = (NilEmpty.string_of_uint d, String c r).
Proof.
  intros Hc.
  induction d; cbn [NilEmpty.string_of_uint]; rewrite ?string_app_cons, ?string_app_nil;
    cbn [span_digits]; rewrite ?IHd, ?Hc; reflexivity.
Qed.

Lemma string_of_N_head (n : N) :
  exists c r, Js.string_of_N n = String c r /\ Js.is_digit c = true.
Proof.
  unfold Js.string_of_N.
  assert (H : N.to_uint n <> Decimal.Nil).
  { destruct n as [|p]; [discriminate|]. apply DecimalPos.Unsigned.to_uint_nonnil. }
  destruct (N.to_uint n); [congruence | cbn [NilEmpty.string_of_uint]; eauto ..].
Qed.

Lemma parse_N_string_of_N (n : N) (c : ascii) (r : string) :
  Js.is_digit c = false ->
  parse_N (Js.string_of_N n ++ String c r) = Some (n, String c r).
Proof.
  intros Hc. unfold parse_N.
  destruct (string_of_N_head n) as (d & t & E & _).
  unfold Js.string_of_N in *. rewrite span_digits_uint by exact Hc.
  rewrite NilEmpty.usu, DecimalN.Unsigned.of_to, E. reflexivity.
Qed.

Lemma digit_not_minus (c : ascii) : Js.is_digit c = true -> Ascii.eqb c "-" = false.
Proof. intros H. by_cases_on c H. Qed.

Lemma digit_not_dquote (c : ascii) : Js.is_digit c = true -> Ascii.eqb c dquote = false.
Proof. intros H. by_cases_on c H. Qed.

Lemma digit_not_ws (c : ascii) : Js.is_digit c = true -> is_ws c = false.
Proof. intros H. by_cases_on c H. Qed.

Lemma plain_not_ws_dquote : is_ws dquote = false.
Proof. reflexivity. Qed.

Lemma parse_number_string_of_Z (z : Z) (c : ascii) (r : string) :
  closes c ->
  parse_number (Js.string_of_Z z ++ String c r) = Some (z, String c r).
Proof.
  intros Hc. pose proof (closes_not_digit c Hc) as Hd.
  assert (Hk : Ascii.eqb c "." || Ascii.eqb c "e" || Ascii.eqb c "E" = false)
    by (destruct Hc as [-> | ->]; reflexivity).
  assert (HN : forall n, parse_number (Js.string_of_N n ++ String c r)
                         = Some (Z.of_N n, String c r)).
  { intros n. pose proof (parse_N_string_of_N n c r Hd) as HN.
    destruct (string_of_N_head n) as (d & t & E & Hdd).
    rewrite E in *. rewrite string_app_cons in *.
    unfold parse_number. rewrite (digit_not_minus d Hdd), HN.
    cbv beta iota zeta. rewrite Hk. reflexivity. }
  destruct z as [|p|p].
  - apply (HN 0%N).
  - apply (HN (Npos p)).
  - cbn [Js.string_of_Z]. rewrite string_app_cons. unfold parse_number.
    change (Ascii.eqb "-" "-") with true. cbv iota.
    rewrite parse_N_string_of_N by exact Hd.
    cbv beta iota zeta. rewrite Hk. reflexivity.
Qed.

Lemma skip_ws_keep (c : ascii) (r : string) :
  is_ws c = false -> skip_ws (String c r) = String c r.
Proof. intros H. cbn [skip_ws]. rewrite H. reflexivity. Qed.

Lemma parse_value_stringify (v : value) (c : ascii) (r : string) :
  plain_value v = true -> closes c ->
  parse_value (skip_ws (stringify_value v ++ String c r)) = Some (v, String c r).
Proof.
  intros Hv Hc. destruct v as [z|s]; cbn [stringify_value].
  - pose proof (parse_number_string_of_Z z c r Hc) as H.
    assert (Hd : exists d t, Js.string_of_Z z = String d t /\
                 is_ws d = false /\ Ascii.eqb d dquote = false).
    { destruct z as [|p|p].
      - exists "0"%char, "". repeat split.
      - destruct (string_of_N_head (Npos p)) as (d & t & E & Hd).
        exists d, t. change (Js.string_of_Z (Z.pos p)) with (Js.string_of_N (Npos p)).
        rewrite E. auto using digit_not_ws, digit_not_dquote.
      - exists "-"%char, (Js.string_of_N (Npos p)). repeat split. }
    destruct Hd as (d & t & E & Hs & Hq).
    rewrite E in *. rewrite string_app_cons in *. rewrite (skip_ws_keep _ _ Hs).
    unfold parse_value. rewrite Hq, H. reflexivity.
  - cbn [plain_value] in Hv. unfold quote.
    rewrite (escape_all_plain s Hv), string_app_cons, string_app_assoc, string_app_cons, string_app_nil.
    rewrite (skip_ws_keep _ _ plain_not_ws_dquote).
    unfold parse_value. change (Ascii.eqb dquote dquote) with true. cbv iota.
    rewrite (parse_string_body_plain s _ Hv). reflexivity.
Qed.

Lemma closes_not_ws (c : ascii) : closes c -> is_ws c = false.
Proof. intros [-> | ->]; reflexivity. Qed.

Lemma parse_member_stringify (m : string * value) (c : ascii) (r : string) :
  plain_member m = true -> closes c ->
  exists r0,
    stringify_member m ++ String c r = String dquote r0 /\
    exists r1, parse_string_body r0 = Some (fst m, r1) /\
    exists r2, expect ":" (skip_ws r1) = Some r2 /\
    parse_value (skip_ws r2) = Some (snd m, String c r).
Proof.
  intros [Hk Hv]%andb_prop Hc. unfold stringify_member, quote.
  rewrite (escape_all_plain _ Hk).
  repeat (rewrite string_app_cons || rewrite string_app_nil || rewrite string_app_assoc).
  eexists; split; [reflexivity|].
  eexists; split; [apply parse_string_body_plain, Hk|].
  eexists; split; [reflexivity|].
  apply parse_value_stringify; assumption.
Qed.

Lemma parse_members_stringify (o : object) :
  o <> [] -> forallb plain_member o = true ->
  forall fuel rest, (length o <= fuel)%nat ->
    parse_members fuel (stringify_members o ++ String "}" rest) = Some (o, rest).
Proof.
  induction o as [|m o IH]; [congruence|].
  intros _ [Hm Ho]%andb_prop fuel rest Hf.
  destruct fuel as [|fuel]; [cbn in Hf; lia|].
  destruct o as [|m' o'].
  - cbn [stringify_members].
    destruct (parse_member_stringify m "}" rest Hm (or_intror eq_refl))
      as (r0 & E0 & r1 & E1 & r2 & E2 & E3).
    cbn [parse_members]. rewrite E0. cbn [expect].
    change (Ascii.eqb dquote dquote) with true. cbv iota.
    rewrite E1, E2, E3. destruct m as [k v]. reflexivity.
  - change (stringify_members (m :: m' :: o'))
      with (stringify_member m ++ "," ++ stringify_members (m' :: o')).
    rewrite !string_app_assoc, string_app_cons, string_app_nil.
    destruct (parse_member_stringify m ","
                (stringify_members (m' :: o') ++ String "}" rest) Hm (or_introl eq_refl))
      as (r0 & E0 & r1 & E1 & r2 & E2 & E3).
    cbn [parse_members]. rewrite E0. cbn [expect].
    change (Ascii.eqb dquote dquote) with true. cbv iota.
    rewrite E1, E2, E3.
    change (skip_ws (String "," ?x)) with (String "," x).
    cbn [expect]. change (Ascii.eqb "," ",") with true. cbv iota.
    assert (Hs : exists t, stringify_members (m' :: o') ++ String "}" rest = String dquote t).
    { destruct o'; unfold stringify_members, stringify_member, quote;
        repeat (rewrite string_app_cons || rewrite string_app_nil || rewrite string_app_assoc); eauto. }
    destruct Hs as (t & Et). rewrite Et at 1.
    rewrite (skip_ws_keep _ _ plain_not_ws_dquote), <- Et.
    rewrite (IH ltac:(discriminate) Ho fuel rest) by (cbn in Hf |- *; lia).
    destruct m as [k v]. reflexivity.
Qed.
Lemma string_length_app (a b : string) :
  String.length (a ++ b) = (String.length a + String.length b)%nat.
Proof. induction a as [|c a IH]; [reflexivity|]. rewrite string_app_cons. cbn [String.length]. rewrite IH. reflexivity. Qed.

Lemma stringify_member_head (m : string * value) :
  exists t, stringify_member m = String dquote t.
Proof. unfold stringify_member, quote. rewrite string_app_cons. eauto. Qed.

Lemma length_stringify_members (o : object) :
  (length o <= String.length (stringify_members o))%nat.
Proof.
  induction o as [|m o IH]; [cbn; lia|].
  destruct (stringify_member_head m) as (t & Et).
  destruct o as [|m' o'].
  - cbn [stringify_members]. rewrite Et. cbn. lia.
  - change (stringify_members (m :: m' :: o'))
      with (stringify_member m ++ "," ++ stringify_members (m' :: o')).
    rewrite Et, !string_length_app. cbn [String.length length] in *. lia.
Qed.

Lemma parse_stringify (o : object) :
  o <> [] -> forallb plain_member o = true -> parse (stringify o) = Some o.
Proof.
  intros Hne Hp. unfold stringify.
  pose proof (parse_members_stringify o Hne Hp
                (String.length (stringify_members o ++ "}")) ""
                ltac:(rewrite string_length_app; pose proof (length_stringify_members o); lia)) as H.
  assert (Hs : exists t, stringify_members o ++ "}" = String dquote t).
  { destruct o as [|m o]; [congruence|].
    destruct (stringify_member_head m) as (t & Et).
    destruct o; [cbn [stringify_members] | change (stringify_members (m :: ?p :: ?q))
      with (stringify_member m ++ "," ++ stringify_members (p :: q))];
      rewrite Et, string_app_cons; eauto. }
  destruct Hs as (t & Et).
  rewrite string_app_cons, string_app_nil. unfold parse.
  set (body := stringify_members o ++ "}") in *.
  change (skip_ws (String "{" body)) with (String "{" body). cbn [expect].
  change (Ascii.eqb "{" "{") with true. cbv iota.
  assert (Hk : skip_ws body = body)
    by (rewrite Et; apply skip_ws_keep, plain_not_ws_dquote).
  assert (Hx : expect "}" body = None) by (rewrite Et; reflexivity).
  rewrite Hk, Hx, H. reflexivity.
Qed.

Lemma plain_char_of_sextet (s : Base64.sextet) : plain (Base64.char_of_sextet s) = true.
Proof.
  destruct s as [[[[[b5 b4] b3] b2] b1] b0].
  destruct b5, b4, b3, b2, b1, b0; reflexivity.
Qed.

Lemma all_plain_encode (bs : list Byte.byte) : all_plain (Base64.encode bs) = true.
Proof.
  induction bs as [|a|a b|a b c r IH] using bytes_ind3; cbn [Base64.encode].
  - reflexivity.
  - destruct (Base64.enc3 a Base64.zero Base64.zero) as [[[s1 s2] s3] s4].
    cbn [all_plain]. rewrite !plain_char_of_sextet. reflexivity.
  - destruct (Base64.enc3 a b Base64.zero) as [[[s1 s2] s3] s4].
    cbn [all_plain]. rewrite !plain_char_of_sextet. reflexivity.
  - destruct (Base64.enc3 a b c) as [[[s1 s2] s3] s4].
    cbn [all_plain]. rewrite !plain_char_of_sextet, IH. reflexivity.
Qed.

Lemma parse_stringify_envelope (bs : list Byte.byte) (ts : Z) :
  parse (stringify (envelope (Base64.encode bs) ts)) = Some (envelope (Base64.encode bs) ts).
Proof.
  apply parse_stringify; [discriminate|].
  unfold envelope, forallb, plain_member, plain_value, fst, snd.
  rewrite all_plain_encode. reflexivity.
Qed.
End JsonFacts.

(** ** Retry policy *)

Section RetryPolicy.

Variable DR : DisconnectReasonT.
Variable cfg : Config.

Lemma includes_true (l : list Z) (x : Z) : includes l x = true <-> In x l.
Proof.
  unfold includes. rewrite existsb_exists. split.
  - intros (y & Hy & E). apply Z.eqb_eq in E. subst. exact Hy.
  - intros H. exists x. split; [exact H | apply Z.eqb_refl].
Qed.

Lemma includes_false (l : list Z) (x : Z) : includes l x = false <-> ~ In x l.
Proof.
  rewrite <- includes_true. destruct (includes l x); split; congruence.
Qed.

Lemma retryGate_at_max (n : nat) (r : option Z) :
  MAX_RETRIES cfg <= Z.of_nat n -> retryGate DR cfg n r = false.
Proof.
  intros H. unfold retryGate.
  assert (E : (Z.of_nat n <? MAX_RETRIES cfg) = false) by (apply Z.ltb_ge; exact H).
  rewrite E. apply andb_false_r.
Qed.

Lemma retryGate_below_max (n : nat) (r : option Z) :
  Z.of_nat n < MAX_RETRIES cfg ->
  retryGate DR cfg n r = isRetryableDisconnectReason DR r.
Proof.
  intros H. unfold retryGate.
  assert (E : (Z.of_nat n <? MAX_RETRIES cfg) = true) by (apply Z.ltb_lt; exact H).
  rewrite E. apply andb_true_r.
Qed.

End RetryPolicy.

(** C4: whatever the failure reason, there is no retry once the attempt
    count has reached [MAX_RETRIES]: the gate of both retry sites and the
    legacy [shouldRetry] are false, a close then ends the session with an
    error, and a failed code request reports an error and starts
    nothing. *)
Theorem no_retry_at_max (L : Lib) (cfg : Config) (n : nat) (r : option Z) :
  MAX_RETRIES cfg <= Z.of_nat n ->
  retryGate (DR L) cfg n r = false /\
  shouldRetry (DR L) cfg n r = false /\
  (forall w a s u,
     heap w !! a = Some s -> retries s = n ->
     exists m, on_close L cfg a u w = cleanupSession a (emit a (ESessionError m) w)) /\
  (forall w a s e,
     heap w !! a = Some s -> retries s = n ->
     exists m, code_failed L cfg a e w = emit a (ESessionError m) w).
Proof.
  intros H. split; [apply retryGate_at_max; exact H|]. split.
  { unfold shouldRetry.
    assert (E : (MAX_RETRIES cfg <=? Z.of_nat n) = true) by (apply Z.leb_le; exact H).
    rewrite E. reflexivity. }
  split.
  - intros w a s u Hs Hn. unfold on_close.
    destruct (bool_decide _); [eauto|].
    rewrite Hs, Hn, retryGate_at_max by exact H. eauto.
  - intros w a s e Hs Hn. unfold code_failed.
    rewrite Hs, Hn, retryGate_at_max by exact H.
    destruct (bool_decide _); eauto.
Qed.

Lemma no_retry_at_max_witness :
  MAX_RETRIES default_config <= Z.of_nat 8 /\
  retryGate Baileys default_config 8 (Some 428) = false.
Proof.
  split; [vm_compute; discriminate|].
  apply (no_retry_at_max example_lib default_config 8 (Some 428)).
  vm_compute; discriminate.
Defined.

(** C5: below [MAX_RETRIES] the retry decision is the allow-list: an
    absent reason is retried, a reason of the list (connection closed,
    connection lost, timed out, restart required, service unavailable) is
    retried, a reason outside the list is not, and a close with the
    logged-out reason ends the session before the list is consulted; with
    the values of Baileys the logged-out reason is outside the list. *)
Theorem retry_decision_below_max (L : Lib) (cfg : Config) (n : nat) :
  Z.of_nat n < MAX_RETRIES cfg ->
  retryGate (DR L) cfg n None = true /\
  (forall r, In r (transient (DR L)) -> retryGate (DR L) cfg n (Some r) = true) /\
  (forall r, ~ In r (transient (DR L)) -> retryGate (DR L) cfg n (Some r) = false) /\
  (forall w a u,
     lastDisconnect_error u ≫= err_output_statusCode = Some (loggedOut (DR L)) ->
     on_close L cfg a u w =
     cleanupSession a
       (emit a (ESessionError "Logged out by WhatsApp. Start pairing again.") w)) /\
  ~ In (loggedOut Baileys) (transient Baileys).
Proof.
  intros H. repeat split.
  - rewrite retryGate_below_max by exact H. reflexivity.
  - intros r Hr. rewrite retryGate_below_max by exact H.
    apply includes_true. exact Hr.
  - intros r Hr. rewrite retryGate_below_max by exact H.
    apply includes_false. exact Hr.
  - intros w a u Hu. unfold on_close. rewrite Hu.
    rewrite bool_decide_eq_true_2 by reflexivity. reflexivity.
  - cbn. intros [E | [E | [E | [E | [E | []]]]]]; discriminate E.
Qed.

Lemma retry_decision_below_max_witness :
  Z.of_nat 2 < MAX_RETRIES default_config /\
  In 503 (transient Baileys) /\ ~ In 440 (transient Baileys) /\
  retryGate Baileys default_config 2 None = true /\
  retryGate Baileys default_config 2 (Some 503) = true /\
  retryGate Baileys default_config 2 (Some 440) = false.
Proof.
  assert (H : Z.of_nat 2 < MAX_RETRIES default_config) by reflexivity.
  assert (Hin : In 503 (transient Baileys)) by (cbn; tauto).
  assert (Hout : ~ In 440 (transient Baileys))
    by (cbn; intros [E | [E | [E | [E | [E | []]]]]]; discriminate E).
  destruct (retry_decision_below_max example_lib default_config 2 H)
    as (Hnone & Hlist & Hother & _).
  split; [exact H|]. split; [exact Hin|]. split; [exact Hout|].
  split; [exact Hnone|]. split; [exact (Hlist 503 Hin) | exact (Hother 440 Hout)].
Defined.

(** The legacy [shouldRetry] has the same decision with a list of four:
    service unavailable is not retried there. *)
Lemma legacy_shouldRetry_below_max (DR : DisconnectReasonT) (cfg : Config)
    (n : nat) (r : option Z) :
  Z.of_nat n < MAX_RETRIES cfg ->
  shouldRetry DR cfg n r =
  match r with
  | None => true
  | Some x => includes [connectionClosed DR; connectionLost DR; timedOut DR;
                        restartRequired DR] x
  end.
Proof.
  intros H. unfold shouldRetry.
  assert (E : (MAX_RETRIES cfg <=? Z.of_nat n) = false) by (apply Z.leb_gt; exact H).
  rewrite E. reflexivity.
Qed.

(** C6: the delay waited before a retry re-enters [startPairing] is
    [min(RETRY_DELAY_MAX_MS, RETRY_DELAY_MS * n)] for the attempt count
    [n] the session then has; it never exceeds the cap and, the base
    delay being a duration (not negative), it does not decrease with
    [n]. *)
Theorem backoff_linear_with_cap (cfg : Config) (n : nat) :
  (1 <= n)%nat ->
  backoff cfg n = Z.min (RETRY_DELAY_MAX_MS cfg) (RETRY_DELAY_MS cfg * Z.of_nat n) /\
  backoff cfg n <= RETRY_DELAY_MAX_MS cfg /\
  (0 <= RETRY_DELAY_MS cfg ->
   forall m, (n <= m)%nat -> backoff cfg n <= backoff cfg m) /\
  (forall w a who s,
     heap w !! a = Some s -> retries s = n ->
     tasks (retry_wait cfg a who w) !! next_task w
     = Some (K_backoff a who, AwaitDelay (clock w + backoff cfg n))).
Proof.
  intros _. unfold backoff. repeat split.
  - apply Z.le_min_l.
  - intros Hb m Hm. apply Z.min_le_compat_l. nia.
  - intros w a who s Hs Hn. unfold retry_wait. rewrite Hs.
    unfold delay, suspend. cbn [tasks with_tasks with_next_task next_task].
    rewrite lookup_insert_eq, Hn. reflexivity.
Qed.

Lemma backoff_linear_with_cap_witness :
  (1 <= 3)%nat /\ 0 <= RETRY_DELAY_MS default_config /\ (3 <= 9)%nat /\
  backoff default_config 3 = 12000 /\
  backoff default_config 3 <= backoff default_config 9.
Proof.
  assert (H1 : (1 <= 3)%nat) by lia.
  assert (H0 : 0 <= RETRY_DELAY_MS default_config) by (vm_compute; discriminate).
  assert (H3 : (3 <= 9)%nat) by lia.
  destruct (backoff_linear_with_cap default_config 3 H1) as (E & _ & Hmono & _).
  split; [exact H1|]. split; [exact H0|]. split; [exact H3|].
  split; [rewrite E; reflexivity | exact (Hmono H0 9%nat H3)].
Defined.

(** ** Phone validation and the creation request *)

Lemma strip_non_digits_filter (s : string) :
  list_ascii_of_string (Js.strip_non_digits s)
  = List.filter Js.is_digit (list_ascii_of_string s).
Proof.
  induction s as [|c r IH]; [reflexivity|].
  cbn [Js.strip_non_digits list_ascii_of_string List.filter].
  destruct (Js.is_digit c); cbn [list_ascii_of_string]; rewrite IH; reflexivity.
Qed.

Lemma length_list_ascii (s : string) :
  length (list_ascii_of_string s) = String.length s.
Proof. induction s as [|c r IH]; [reflexivity|]. cbn. rewrite IH. reflexivity. Qed.

Lemma length_strip_non_digits (s : string) :
  String.length (Js.strip_non_digits s) = digit_count s.
Proof.
  unfold digit_count. rewrite <- strip_non_digits_filter. symmetry.
  apply length_list_ascii.
Qed.

Lemma or_default_strip (s : string) :
  Js.strip_non_digits (Js.or_default (Some s) "") = Js.strip_non_digits s.
Proof. destruct s; reflexivity. Qed.

Lemma validatePhone_accepts (s : string) :
  (10 <= digit_count s <= 15)%nat ->
  validatePhone (Some s) = inr (Js.strip_non_digits s).
Proof.
  intros H. unfold validatePhone. rewrite or_default_strip, length_strip_non_digits.
  destruct (Nat.ltb_spec (digit_count s) 10); [lia|].
  destruct (Nat.ltb_spec 15 (digit_count s)); [lia|]. reflexivity.
Qed.

Lemma validatePhone_rejects (s : string) :
  (digit_count s < 10 \/ 15 < digit_count s)%nat ->
  validatePhone (Some s) = inl "Phone number must be 10-15 digits".
Proof.
  intros H. unfold validatePhone. rewrite or_default_strip, length_strip_non_digits.
  destruct (Nat.ltb_spec (digit_count s) 10); [reflexivity|].
  destruct (Nat.ltb_spec 15 (digit_count s)); [reflexivity|]. lia.
Qed.

(** C8: validation keeps the digits of its input and accepts exactly
    when there are 10 to 15 of them, so the empty string and a string
    without digits are rejected; a creation request with method [code]
    (given or by default) and a phone that is rejected is answered 400
    with the validation error and no id, and it leaves the registry, the
    session objects, the timers and the tasks as they were.  The same
    holds of the route behind [requireApiKey], where a request without
    the key is answered 401 before its body is looked at. *)
Theorem invalid_phone_is_rejected (cfg : Config) (phone : string) :
  list_ascii_of_string (Js.strip_non_digits phone)
    = List.filter Js.is_digit (list_ascii_of_string phone) /\
  ((10 <= digit_count phone <= 15)%nat ->
     validatePhone (Some phone) = inr (Js.strip_non_digits phone)) /\
  ((digit_count phone < 10 \/ 15 < digit_count phone)%nat ->
     validatePhone (Some phone) = inl "Phone number must be 10-15 digits") /\
  validatePhone (Some "") = inl "Phone number must be 10-15 digits" /\
  validatePhone None = inl "Phone number must be 10-15 digits" /\
  (forall req_method req_phone hex key w err,
     Js.or_default req_method "code" = "code" ->
     validatePhone req_phone = inl err ->
     let w' := post_pair cfg req_method req_phone hex key w in
     w' = respond (json_error 400 err) w /\
     head (responses w') = Some (json_error 400 err) /\
     res_id (json_error 400 err) = None /\
     sessions w' = sessions w /\ heap w' = heap w /\
     tasks w' = tasks w /\ timers w' = timers w /\ effects w' = effects w) /\
  (forall header req_method req_phone hex key w err,
     Js.or_default req_method "code" = "code" ->
     validatePhone req_phone = inl err ->
     let w' := route_pair cfg header req_method req_phone hex key w in
     (requireApiKey cfg header = true ->
      head (responses w') = Some (json_error 400 err)) /\
     (requireApiKey cfg header = false ->
      head (responses w') = Some (json_error 401 "Unauthorized")) /\
     sessions w' = sessions w /\ heap w' = heap w /\
     tasks w' = tasks w /\ timers w' = timers w /\ effects w' = effects w).
Proof.
  assert (Hpost : forall req_method req_phone hex key w err,
             Js.or_default req_method "code" = "code" ->
             validatePhone req_phone = inl err ->
             post_pair cfg req_method req_phone hex key w
             = respond (json_error 400 err) w).
  { intros req_method req_phone hex key w err Hm Hp.
    unfold post_pair. rewrite Hm, Hp. reflexivity. }
  split; [apply strip_non_digits_filter|].
  split; [apply validatePhone_accepts|].
  split; [apply validatePhone_rejects|].
  split; [reflexivity|]. split; [reflexivity|]. split.
  - intros req_method req_phone hex key w err Hm Hp.
    cbv zeta. rewrite (Hpost _ _ hex key w _ Hm Hp). repeat split.
  - intros header req_method req_phone hex key w err Hm Hp.
    cbv zeta. unfold route_pair.
    destruct (requireApiKey cfg header).
    + rewrite (Hpost _ _ hex key w _ Hm Hp). repeat split. discriminate.
    + repeat split. discriminate.
Qed.

Lemma invalid_phone_is_rejected_witness :
  (digit_count "555-1234" < 10 \/ 15 < digit_count "555-1234")%nat /\
  validatePhone (Some "555-1234") = inl "Phone number must be 10-15 digits" /\
  sessions (post_pair default_config (Some "code") (Some "555-1234") "ab12" "k1" init)
  = [].
Proof.
  assert (H : (digit_count "555-1234" < 10 \/ 15 < digit_count "555-1234")%nat)
    by (left; vm_compute; lia).
  destruct (invalid_phone_is_rejected default_config "555-1234")
    as (_ & _ & Hrej & _ & _ & Hreq & _).
  split; [exact H|]. split; [exact (Hrej H)|].
  destruct (Hreq (Some "code") (Some "555-1234") "ab12" "k1" init _
              eq_refl (Hrej H)) as (_ & _ & _ & Hs & _).
  exact Hs.
Defined.

(** ** Module load *)

Lemma deliver_all_crashed (L : Lib) (ls : list Label) (m : string) :
  deliver_all L ls (Crashed m) = Crashed m.
Proof. induction ls as [|l ls IH]; [reflexivity | exact IH]. Qed.

Lemma deliver_all_config (L : Lib) (ls : list Label) (c c' : Config) (w w' : World) :
  deliver_all L ls (Up c w) = Up c' w' -> c' = c.
Proof.
  revert w. induction ls as [|l ls IH]; intros w H.
  - injection H as -> _. reflexivity.
  - cbn [deliver_all fold_left deliver] in H.
    destruct (step L c l w); exact (IH _ H).
Qed.

Lemma or_default_unset (x : option string) (d : string) :
  x = None \/ x = Some "" -> Js.or_default x d = d.
Proof. intros [-> | ->]; reflexivity. Qed.

(** C9: with encrypted export enabled and the secret absent or empty,
    module load throws, and the process that results takes no request;
    conversely a process that is up in encrypted mode has a secret that is
    not empty. *)
Theorem encrypted_mode_requires_secret (e : Env) :
  (EXPORT_ENCRYPTED (read_config e) = true ->
   env_SESSION_SECRET e = None \/ env_SESSION_SECRET e = Some "" ->
   boot e = inl "SESSION_SECRET is required when EXPORT_ENCRYPTED=true" /\
   forall L ls,
     deliver_all L ls (start e)
     = Crashed "SESSION_SECRET is required when EXPORT_ENCRYPTED=true") /\
  (forall L ls c w,
     deliver_all L ls (start e) = Up c w ->
     EXPORT_ENCRYPTED c = true -> SESSION_SECRET c <> "").
Proof.
  split.
  - intros Henc Hsec.
    assert (Hb : boot e = inl "SESSION_SECRET is required when EXPORT_ENCRYPTED=true").
    { unfold boot. rewrite Henc. cbn [read_config SESSION_SECRET].
      rewrite (or_default_unset _ _ Hsec). reflexivity. }
    split; [exact Hb|]. intros L ls. unfold start. rewrite Hb.
    apply deliver_all_crashed.
  - intros L ls c w Hrun Henc Hsec. unfold start, boot in Hrun.
    destruct (EXPORT_ENCRYPTED (read_config e)
              && String.eqb (SESSION_SECRET (read_config e)) "") eqn:E.
    + rewrite deliver_all_crashed in Hrun. discriminate Hrun.
    + apply deliver_all_config in Hrun. subst c.
      rewrite Henc, Hsec in E. discriminate E.
Qed.

Lemma encrypted_mode_requires_secret_witness :
  EXPORT_ENCRYPTED (read_config
    {| env_PAIR_API_KEY := None; env_SESSION_TTL_MS := None;
       env_SESSION_IDLE_TTL_MS := None; env_MAX_RETRIES := None;
       env_RETRY_DELAY_MS := None; env_RETRY_DELAY_MAX_MS := None;
       env_EXPORT_ENCRYPTED := Some "true"; env_SESSION_SECRET := None |}) = true /\
  boot {| env_PAIR_API_KEY := None; env_SESSION_TTL_MS := None;
          env_SESSION_IDLE_TTL_MS := None; env_MAX_RETRIES := None;
          env_RETRY_DELAY_MS := None; env_RETRY_DELAY_MAX_MS := None;
          env_EXPORT_ENCRYPTED := Some "true"; env_SESSION_SECRET := None |}
  = inl "SESSION_SECRET is required when EXPORT_ENCRYPTED=true".
Proof.
  split; [reflexivity|].
  apply (encrypted_mode_requires_secret
           {| env_PAIR_API_KEY := None; env_SESSION_TTL_MS := None;
              env_SESSION_IDLE_TTL_MS := None; env_MAX_RETRIES := None;
              env_RETRY_DELAY_MS := None; env_RETRY_DELAY_MAX_MS := None;
              env_EXPORT_ENCRYPTED := Some "true"; env_SESSION_SECRET := None |});
    [reflexivity | left; reflexivity].
Defined.

(** ** The credential exporter and the decrypt utility *)

Section UrlSafe.
Import Base64.

Lemma to_url_sextet (s : sextet) :
  url_safe_char (to_url (char_of_sextet s)) = true /\
  Ascii.eqb (to_url (char_of_sextet s)) "=" = false.
Proof.
  destruct s as [[[[[b5 b4] b3] b2] b1] b0].
  destruct b5, b4, b3, b2, b1, b0; split; reflexivity.
Qed.

Lemma strip_keep (c : ascii) (x : string) :
  Ascii.eqb c "=" = false ->
  Js.strip_trailing_eq (String c x) = String c (Js.strip_trailing_eq x).
Proof.
  intros H. cbn [Js.strip_trailing_eq].
  destruct (Js.strip_trailing_eq x); [rewrite H|]; reflexivity.
Qed.

Lemma replace_cons (c : ascii) (x : string) :
  Js.replace_char "/" "_" (Js.replace_char "+" "-" (String c x))
  = String (to_url c) (Js.replace_char "/" "_" (Js.replace_char "+" "-" x)).
Proof. reflexivity. Qed.

Lemma b64url_cons (s : sextet) (x : string) :
  Js.strip_trailing_eq
    (Js.replace_char "/" "_" (Js.replace_char "+" "-" (String (char_of_sextet s) x)))
  = String (to_url (char_of_sextet s))
      (Js.strip_trailing_eq (Js.replace_char "/" "_" (Js.replace_char "+" "-" x))).
Proof. rewrite replace_cons. apply strip_keep, to_url_sextet. Qed.

Lemma url_safe_b64url (bs : list Byte.byte) : url_safe (b64url bs) = true.
Proof.
  unfold b64url.
  induction bs as [|a|a b|a b c r IH] using bytes_ind3; cbn [encode].
  - reflexivity.
  - destruct (enc3 a zero zero) as [[[s1 s2] s3] s4].
    rewrite !b64url_cons. cbn [url_safe].
    rewrite !(proj1 (to_url_sextet _)). reflexivity.
  - destruct (enc3 a b zero) as [[[s1 s2] s3] s4].
    rewrite !b64url_cons. cbn [url_safe].
    rewrite !(proj1 (to_url_sextet _)). reflexivity.
  - destruct (enc3 a b c) as [[[s1 s2] s3] s4].
    rewrite !b64url_cons. cbn [url_safe].
    rewrite !(proj1 (to_url_sextet _)), IH. reflexivity.
Qed.
End UrlSafe.

Lemma toy_crypto_correct : gcm_correct toy_crypto.
Proof. intros key iv p. reflexivity. Qed.

Lemma toy_crypto_sizes : gcm_sizes toy_crypto.
Proof. intros key iv p. split; reflexivity. Qed.

Lemma export_singleton (C : Crypto) (cfg : Config) (iv : list Byte.byte) (ts : Z)
    (b : list Byte.byte) :
  exists token, exportTokensFromCreds C cfg iv ts b = [token].
Proof.
  unfold exportTokensFromCreds. destruct (EXPORT_ENCRYPTED cfg); cbn [negb].
  - destruct (gcm_encrypt C _ iv _) as [ciphertext tag]. eauto.
  - eauto.
Qed.

Section ExporterFacts.

Variable C : Crypto.
Hypothesis correct : gcm_correct C.
Hypothesis sizes : gcm_sizes C.

Lemma prefix_app (p x : string) : String.prefix p (p ++ x) = true.
Proof.
  induction p as [|a p IH]; [destruct x; reflexivity|].
  rewrite string_app_cons. cbn [String.prefix].
  destruct (ascii_dec a a); [exact IH | congruence].
Qed.

Lemma slice_from_app (p x : string) : Js.slice_from (String.length p) (p ++ x) = x.
Proof. induction p as [|a p IH]; [destruct x; reflexivity | exact IH]. Qed.

Lemma decrypt_session_export (cfg : Config) (env_secret : option string)
    (iv : list Byte.byte) (ts : Z) (b : list Byte.byte) :
  SESSION_SECRET cfg <> "" ->
  Js.trim (Js.or_default env_secret "") = SESSION_SECRET cfg ->
  length iv = 12%nat ->
  let key := scryptSync C (SESSION_SECRET cfg) "mantra-pair" 32 in
  let payload := list_byte_of_string (Json.stringify (envelope (Base64.encode b) ts)) in
  let ciphertext := fst (gcm_encrypt C key iv payload) in
  let tag := snd (gcm_encrypt C key iv payload) in
  decrypt_session C (Some ("MantraEnc~" ++ b64url (iv ++ tag ++ ciphertext))) env_secret
  = Stdout b.
Proof.
  intros Hne Hsec Hiv key payload ciphertext tag.
  destruct (sizes key iv payload) as [Hct Htag]. fold ciphertext in Hct. fold tag in Htag.
  unfold decrypt_session. cbv zeta.
  set (X := b64url (iv ++ tag ++ ciphertext)).
  assert (E1 : String.eqb ("MantraEnc~" ++ X) "" = false) by reflexivity.
  rewrite E1. unfold Js.startsWith. rewrite prefix_app. cbn [negb orb].
  rewrite Hsec.
  assert (E2 : String.eqb (SESSION_SECRET cfg) "" = false)
    by (apply String.eqb_neq; exact Hne).
  rewrite E2.
  assert (E0 : Js.slice_from 10 ("MantraEnc~" ++ X) = X) by reflexivity.
  rewrite E0.
  unfold X. rewrite b64url_roundtrip.
  assert (Hp : (1 <= length payload)%nat).
  { unfold payload, Json.stringify. rewrite string_app_cons. cbn. lia. }
  assert (E3 : (length (iv ++ tag ++ ciphertext) <? 12 + 16 + 1)%nat = false).
  { apply Nat.ltb_ge. rewrite !length_app. lia. }
  rewrite E3.
  rewrite (take_app_length' iv) by (symmetry; exact Hiv).
  rewrite (drop_app_length' iv) by (symmetry; exact Hiv).
  rewrite (take_app_length' tag) by (symmetry; exact Htag).
  change 28%nat with (12 + 16)%nat. rewrite <- drop_drop.
  rewrite (drop_app_length' iv) by (symmetry; exact Hiv).
  rewrite (drop_app_length' tag) by (symmetry; exact Htag).
  fold key. unfold tag, ciphertext. rewrite correct.
  unfold payload. rewrite string_of_list_byte_of_string, parse_stringify_envelope.
  change (Json.get "v" (envelope (Base64.encode b) ts)) with (Some (Json.Num 1)).
  change (Json.get "creds" (envelope (Base64.encode b) ts))
    with (Some (Json.Str (Base64.encode b))).
  cbv beta iota. rewrite decode_encode. reflexivity.
Qed.

End ExporterFacts.

(** C2: in encrypted mode the exporter returns the token
    [MantraEnc~] followed by [b64url(nonce || tag || ciphertext)], a text
    of URL-safe base64 characters without padding that decodes to those
    bytes, with a nonce of 12 and a tag of 16 bytes; the ciphertext
    decrypts under the scrypt-derived key to the UTF-8 bytes of the JSON
    text of [{v:1, creds:<base64 of b>, ts}], and the decrypt utility, run
    on the token with the same secret, writes exactly [b]. *)
Theorem encrypted_export_roundtrip (C : Crypto) (cfg : Config)
    (env_secret : option string) (iv : list Byte.byte) (ts : Z) (b : list Byte.byte) :
  gcm_correct C -> gcm_sizes C ->
  EXPORT_ENCRYPTED cfg = true ->
  SESSION_SECRET cfg <> "" ->
  Js.trim (Js.or_default env_secret "") = SESSION_SECRET cfg ->
  length iv = 12%nat ->
  let key := scryptSync C (SESSION_SECRET cfg) "mantra-pair" 32 in
  let payload := list_byte_of_string (Json.stringify (envelope (Base64.encode b) ts)) in
  let ciphertext := fst (gcm_encrypt C key iv payload) in
  let tag := snd (gcm_encrypt C key iv payload) in
  let token := "MantraEnc~" ++ b64url (iv ++ tag ++ ciphertext) in
  exportTokensFromCreds C cfg iv ts b = [token] /\
  decrypt_session C (Some token) env_secret = Stdout b /\
  url_safe (b64url (iv ++ tag ++ ciphertext)) = true /\
  b64urlDecodeToBuf (b64url (iv ++ tag ++ ciphertext)) = (iv ++ tag ++ ciphertext)%list /\
  length tag = 16%nat /\
  gcm_decrypt C key iv tag ciphertext = Some payload /\
  Json.parse (string_of_list_byte payload) = Some (envelope (Base64.encode b) ts) /\
  Base64.decode (Base64.encode b) = b.
Proof.
  intros Hc Hs Henc Hne Hsec Hiv key payload ciphertext tag token.
  split.
  { unfold exportTokensFromCreds. rewrite Henc. cbn [negb]. fold key payload.
    unfold token, ciphertext, tag.
    destruct (gcm_encrypt C key iv payload) as [ct tg]. reflexivity. }
  split; [exact (decrypt_session_export C Hc Hs cfg env_secret iv ts b Hne Hsec Hiv)|].
  split; [apply url_safe_b64url|].
  split; [apply b64url_roundtrip|].
  split; [apply Hs|].
  split; [apply Hc|].
  split; [unfold payload; rewrite string_of_list_byte_of_string;
          apply parse_stringify_envelope|].
  apply decode_encode.
Qed.

Lemma encrypted_export_roundtrip_witness :
  gcm_correct toy_crypto /\ gcm_sizes toy_crypto /\
  EXPORT_ENCRYPTED encrypted_config = true /\
  SESSION_SECRET encrypted_config <> "" /\
  Js.trim (Js.or_default (Some "s3cret") "") = SESSION_SECRET encrypted_config /\
  length (repeat Byte.x07 12) = 12%nat /\
  decrypt_session toy_crypto
    (head (exportTokensFromCreds toy_crypto encrypted_config (repeat Byte.x07 12)
             1700000000000 [Byte.x7b; Byte.x00; Byte.xff; Byte.x7d]))
    (Some "s3cret")
  = Stdout [Byte.x7b; Byte.x00; Byte.xff; Byte.x7d].
Proof.
  assert (Hne : SESSION_SECRET encrypted_config <> "") by (vm_compute; discriminate).
  destruct (encrypted_export_roundtrip toy_crypto encrypted_config (Some "s3cret")
              (repeat Byte.x07 12) 1700000000000
              [Byte.x7b; Byte.x00; Byte.xff; Byte.x7d]
              toy_crypto_correct toy_crypto_sizes eq_refl Hne eq_refl eq_refl)
    as (Hexp & Hdec & _).
  repeat (split; [first [exact toy_crypto_correct | exact toy_crypto_sizes
                        | exact Hne | reflexivity]|]).
  rewrite Hexp. exact Hdec.
Defined.

(** C10: in both modes, and in the legacy exporter, the result is a list
    of exactly one token; when the self JID resolves and both sends
    succeed, the delivery started by reading the credentials sends that
    token's message and then the confirmation, and nothing between. *)
Theorem export_yields_one_token (L : Lib) (cfg : Config) (iv : list Byte.byte)
    (ts : Z) (b : list Byte.byte) :
  length (exportTokensFromCreds (crypto L) cfg iv ts b) = 1%nat /\
  length (exportSessionTokens b) = 1%nat /\
  forall w t a h jid,
    tasks w !! t = Some (K_readFile a h, AwaitIO) ->
    safeSelfJid (socks w !! h ≫= user_id) = Some jid ->
    exists token w',
      exportTokensFromCreds (crypto L) cfg iv (clock w) b = [token] /\
      run L cfg [Resume t (Bytes b iv); Resume (next_task w) Done;
                 Tick 300; Resume (S (next_task w)) Done] w = Some w' /\
      effects w' =
        SendMessage h jid (confirmation cfg (toISOString L (clock w + 300)))
        :: SendMessage h jid (token_message token) :: effects w.
Proof.
  split.
  { destruct (export_singleton (crypto L) cfg iv ts b) as (t & ->). reflexivity. }
  split; [reflexivity|].
  intros w t a h jid Ht Hjid.
  destruct (export_singleton (crypto L) cfg iv (clock w) b) as (token & Htok).
  set (w1 := suspend (K_sendToken a h jid []) AwaitIO
               (perform (SendMessage h jid (token_message token))
                  (with_tasks (delete t (tasks w)) w))).
  set (w2 := delay 300 (K_tokenGap a h jid [])
               (with_tasks (delete (next_task w) (tasks w1)) w1)).
  set (w3 := with_clock (clock w2 + 300) w2).
  set (w4 := send_tokens L cfg a h jid []
               (with_tasks (delete (S (next_task w)) (tasks w3)) w3)).
  assert (S1 : step L cfg (Resume t (Bytes b iv)) w = Some w1).
  { unfold step. rewrite Ht. cbn [mbind option_bind may_resume]. unfold resume.
    change (socks (with_tasks (delete t (tasks w)) w)) with (socks w).
    change (clock (with_tasks (delete t (tasks w)) w)) with (clock w).
    rewrite Hjid, Htok. reflexivity. }
  assert (S2 : step L cfg (Resume (next_task w) Done) w1 = Some w2).
  { assert (E : tasks w1 !! next_task w = Some (K_sendToken a h jid [], AwaitIO))
      by apply lookup_insert_eq.
    unfold step. rewrite E. reflexivity. }
  assert (S3 : step L cfg (Tick 300) w2 = Some w3) by reflexivity.
  assert (S4 : step L cfg (Resume (S (next_task w)) Done) w3 = Some w4).
  { assert (E : tasks w3 !! S (next_task w)
                = Some (K_tokenGap a h jid [], AwaitDelay (clock w + 300)))
      by apply lookup_insert_eq.
    unfold step. rewrite E. cbn [mbind option_bind may_resume].
    change (clock w3) with (clock w + 300). rewrite Z.leb_refl. reflexivity. }
  exists token, w4. split; [exact Htok|]. split.
  - cbn [run]. rewrite S1. cbn [mbind option_bind]. rewrite S2.
    cbn [mbind option_bind]. rewrite S3. cbn [mbind option_bind]. rewrite S4.
    reflexivity.
  - reflexivity.
Qed.

Lemma export_yields_one_token_witness :
  exists w token w',
    run example_lib default_config paired init = Some w /\
    tasks w !! 6%nat = Some (K_readFile 0 0, AwaitIO) /\
    safeSelfJid (socks w !! 0%nat ≫= user_id) = Some "15551234567@s.whatsapp.net" /\
    exportTokensFromCreds toy_crypto default_config (repeat Byte.x07 12) (clock w)
      [Byte.x7b; Byte.x7d] = [token] /\
    effects w' =
      SendMessage 0 "15551234567@s.whatsapp.net"
        (confirmation default_config (toISOString example_lib (clock w + 300)))
      :: SendMessage 0 "15551234567@s.whatsapp.net" (token_message token)
      :: effects w.
Proof.
  destruct (run example_lib default_config paired init) as [w|] eqn:E;
    [|vm_compute in E; discriminate E].
  assert (Ht : tasks w !! 6%nat = Some (K_readFile 0 0, AwaitIO))
    by (vm_compute in E; injection E as <-; reflexivity).
  assert (Hj : safeSelfJid (socks w !! 0%nat ≫= user_id)
               = Some "15551234567@s.whatsapp.net")
    by (vm_compute in E; injection E as <-; reflexivity).
  destruct (export_yields_one_token example_lib default_config (repeat Byte.x07 12)
              0 [Byte.x7b; Byte.x7d]) as (_ & _ & Hsend).
  destruct (Hsend w 6%nat 0%nat 0%nat _ Ht Hj) as (token & w' & Htok & _ & Heff).
  exists w, token, w'. split; [reflexivity|]. split; [exact Ht|].
  split; [exact Hj|]. split; [exact Htok | exact Heff].
Defined.

(** ** The session state machine *)

(** An event of a connection that is not the session's current handle
    changes nothing. *)
Lemma stale_update_is_dropped (L : Lib) (cfg : Config) (h : nat) (u : Update)
    (w : World) (k : SockInfo) (s : Session) :
  socks w !! h = Some k -> heap w !! owner k = Some s ->
  is_current s h = false ->
  on_update L cfg h u w = w.
Proof. intros Hk Hs Hc. unfold on_update. rewrite Hk, Hs, Hc. reflexivity. Qed.

Lemma heap_update (a : nat) (f : Session -> Session) (w : World) :
  heap (update a f w) !! a = f <$> heap w !! a.
Proof. unfold update. cbn [heap with_heap]. apply list_lookup_alter_eq. Qed.

(** A retry ends the connection in the handle field before it waits. *)
Lemma retry_ends_current_handle (cfg : Config) (a : nat) (who : Caller)
    (w : World) (s : Session) (h : nat) :
  heap w !! a = Some s -> sock s = Some h ->
  effects (retry cfg a who w) = SockEnd h :: effects w /\
  tasks (retry cfg a who w) !! next_task w = Some (K_retryEnd a who, AwaitIO).
Proof.
  intros Hs Hh. unfold retry. rewrite Hs. unfold endSocketOnly, emit.
  rewrite !heap_update, Hs. cbn [fmap option_fmap option_map].
  cbn [sock set_emitted set_lastEventAt set_retries]. rewrite Hh.
  split; [reflexivity | apply lookup_insert_eq].
Qed.

(** [startPairing] puts the connection it makes in the handle field,
    whatever was there. *)
Lemma open_socket_replaces_handle (a : nat) (w : World) (s : Session) :
  heap w !! a = Some s ->
  heap (open_socket a w) !! a ≫= sock = Some (length (socks w)) /\
  length (socks (open_socket a w)) = S (length (socks w)) /\
  ends_of (open_socket a w) = ends_of w.
Proof.
  intros Hs. unfold open_socket, makeWASocket.
  set (w1 := perform _ _).
  assert (H1 : heap (update a (set_sock (Some (length (socks w)))) w1) !! a
               = Some (set_sock (Some (length (socks w))) s)).
  { rewrite heap_update. change (heap w1) with (heap w). rewrite Hs. reflexivity. }
  rewrite H1. cbn [method set_sock].
  destruct (String.eqb (method s) "code").
  - unfold delay, suspend, emit. cbn [heap with_next_task with_tasks].
    rewrite heap_update, H1. cbn. rewrite length_app. cbn. split; [reflexivity|].
    split; [lia | reflexivity].
  - unfold emit. rewrite heap_update, H1. cbn. rewrite length_app. cbn.
    split; [reflexivity|]. split; [lia | reflexivity].
Qed.

(** While the session is in the registry the retry goes on. *)
Lemma retry_proceeds_when_session_present (L : Lib) (cfg : Config) (w : World)
    (t a : nat) (who : Caller) (due : Z) (s : Session) :
  tasks w !! t = Some (K_backoff a who, AwaitDelay due) ->
  due <= clock w ->
  heap w !! a = Some s ->
  map_has (id s) (sessions w) = true ->
  step L cfg (Resume t Done) w
  = Some (startPairing a who (with_tasks (delete t (tasks w)) w)).
Proof.
  intros Ht Hdue Hs Hin. unfold step. rewrite Ht.
  cbn [mbind option_bind may_resume].
  assert (E : (due <=? clock w) = true) by (apply Z.leb_le; exact Hdue).
  rewrite E. cbn [andb resume].
  change (heap (with_tasks (delete t (tasks w)) w)) with (heap w).
  change (sessions (with_tasks (delete t (tasks w)) w)) with (sessions w).
  rewrite Hs. cbn [mbind option_bind]. rewrite Hin. reflexivity.
Qed.

(** C1 (the code departs from the claim): in the run [racing_retries]
    the two retries of one session each open a connection, and the
    second replaces the first in the handle field without ending it: the
    session has two live connections. *)
Theorem two_live_handles_after_racing_retries :
  live_handles 0 <$> run example_lib default_config racing_retries init
    = Some [1%nat; 2%nat] /\
  (run example_lib default_config racing_retries init
     ≫= fun w => heap w !! 0%nat ≫= sock) = Some 2%nat /\
  ends_of <$> run example_lib default_config racing_retries init
    = Some [0%nat; 0%nat] /\
  ~ one_live_handle example_lib default_config.
Proof.
  split; [vm_compute; reflexivity|].
  split; [vm_compute; reflexivity|].
  split; [vm_compute; reflexivity|].
  intros H.
  destruct (run example_lib default_config racing_retries init) as [w|] eqn:E;
    [|vm_compute in E; discriminate E].
  specialize (H racing_retries w 0%nat E).
  assert (Hl : live_handles 0 <$> Some w = Some [1%nat; 2%nat])
    by (rewrite <- E; vm_compute; reflexivity).
  injection Hl as Hl. rewrite Hl in H. cbn in H. lia.
Qed.

(** C3: when the backoff delay of a retry elapses and the session is
    no longer in the registry, the resumed retry returns at once: the
    step only retires the waiting task.  No connection is made or ended,
    no timer is set or cancelled, no external call is made, and the
    session object and the registry are as they were. *)
Theorem retry_aborts_when_session_removed (L : Lib) (cfg : Config) (w : World)
    (t a : nat) (who : Caller) (due : Z) (s : Session) :
  tasks w !! t = Some (K_backoff a who, AwaitDelay due) ->
  due <= clock w ->
  heap w !! a = Some s ->
  map_has (id s) (sessions w) = false ->
  exists w',
    step L cfg (Resume t Done) w = Some w' /\
    w' = with_tasks (delete t (tasks w)) w /\
    socks w' = socks w /\ timers w' = timers w /\ next_timer w' = next_timer w /\
    effects w' = effects w /\ heap w' = heap w /\ sessions w' = sessions w /\
    tasks w' = delete t (tasks w).
Proof.
  intros Ht Hdue Hs Hgone. eexists. split.
  - unfold step. rewrite Ht. cbn [mbind option_bind may_resume].
    assert (E : (due <=? clock w) = true) by (apply Z.leb_le; exact Hdue).
    rewrite E. cbn [andb resume].
    change (heap (with_tasks (delete t (tasks w)) w)) with (heap w).
    change (sessions (with_tasks (delete t (tasks w)) w)) with (sessions w).
    rewrite Hs. cbn [mbind option_bind]. rewrite Hgone. reflexivity.
  - repeat split.
Qed.

Lemma retry_aborts_when_session_removed_witness :
  exists w s,
    run example_lib default_config removed_during_backoff init = Some w /\
    tasks w !! 7%nat = Some (K_backoff 0 RetryClose, AwaitDelay 301000) /\
    301000 <= clock w /\
    heap w !! 0%nat = Some s /\
    map_has (id s) (sessions w) = false /\
    exists w', step example_lib default_config (Resume 7%nat Done) w = Some w' /\
               socks w' = socks w /\ timers w' = timers w.
Proof.
  destruct (run example_lib default_config removed_during_backoff init)
    as [w|] eqn:E; [|vm_compute in E; discriminate E].
  vm_compute in E. injection E as <-.
  eexists. eexists. split; [reflexivity|].
  split; [reflexivity|]. split; [vm_compute; discriminate|].
  split; [reflexivity|]. split; [reflexivity|].
  edestruct (retry_aborts_when_session_removed example_lib default_config)
    as (w' & Hstep & _ & Hsocks & Htimers & _);
    [| | | | exists w'; split; [exact Hstep | split; [exact Hsocks | exact Htimers]]].
  - reflexivity.
  - vm_compute; discriminate.
  - reflexivity.
  - reflexivity.
Defined.

(** C7 (the code departs from the claim): [cleanupSession] has no
    single-shot guard and never clears the handle field.  In the run
    [grace_over] the TTL timer fires during the grace delay of a completed
    export, and both triggers run the cleanup in full, so the connection
    is ended twice and the directory removed twice; in the run
    [ttl_fires], where cleanup has begun and waits for [end()], the
    session is still found in the registry; and in the run
    [closes_during_cleanup] the close reported during the cleanup is
    handled as an event of the current connection, so when the cleanup
    has completed and the session is out of the registry, an idle timer
    armed meanwhile is pending, a retry is under way and [end()] was
    called twice. *)
Lemma cleanup_runs_per_trigger_and_deletes_last :
  removals_of <$> run example_lib default_config grace_over init
    = Some ["temp/sess_0_ab12"; "temp/sess_0_ab12"] /\
  ends_of <$> run example_lib default_config grace_over init
    = Some [0%nat; 0%nat] /\
  ~ cleanup_single_shot example_lib default_config /\
  ~ unreachable_once_cleanup_begins example_lib default_config /\
  (exists w,
     run example_lib default_config closes_during_cleanup init = Some w /\
     sessions w = [] /\
     removals_of w = ["temp/sess_0_ab12"] /\
     timers w !! 2%nat = Some (IdleExpired 0, 240000) /\
     tasks w !! 4%nat = Some (K_retryEnd 0 RetryClose, AwaitIO) /\
     ends_of w = [0%nat; 0%nat]).
Proof.
  split; [vm_compute; reflexivity|].
  split; [vm_compute; reflexivity|].
  split; [|split];
    [| |destruct (run example_lib default_config closes_during_cleanup init)
          as [w|] eqn:E; [|vm_compute in E; discriminate E];
        exists w; split; [reflexivity|];
        vm_compute in E; injection E as <-; repeat split; reflexivity].
  - intros H.
    destruct (run example_lib default_config grace_over init) as [w|] eqn:E;
      [|vm_compute in E; discriminate E].
    specialize (H grace_over w E).
    assert (Hr : removals_of <$> Some w
                 = Some ["temp/sess_0_ab12"; "temp/sess_0_ab12"])
      by (rewrite <- E; vm_compute; reflexivity).
    injection Hr as Hr. rewrite Hr in H.
    apply NoDup_cons_1_1 in H. apply H. left.
  - intros H.
    destruct (run example_lib default_config ttl_fires init) as [w|] eqn:E;
      [|vm_compute in E; discriminate E].
    assert (Ht : tasks w !! 11%nat = Some (K_cleanEnd 0, AwaitIO))
      by (vm_compute in E; injection E as <-; reflexivity).
    assert (Hs : exists s, heap w !! 0%nat = Some s /\
                           map_get (id s) (sessions w) = Some 0%nat)
      by (vm_compute in E; injection E as <-; eexists; split; reflexivity).
    destruct Hs as (s & Hs & Hfound).
    rewrite (H ttl_fires w 11%nat 0%nat s E Hs (or_introl Ht)) in Hfound.
    discriminate Hfound.
Qed.

Lemma map_get_delete (k : string) (m : list (string * nat)) :
  map_get k (map_delete k m) = None.
Proof.
  induction m as [|[k' a] m IH]; [reflexivity|].
  cbn [map_delete]. destruct (String.eqb k k') eqn:E; [exact IH|].
  cbn [map_get]. rewrite E. exact IH.
Qed.

Lemma map_delete_idemp (k : string) (m : list (string * nat)) :
  map_delete k (map_delete k m) = map_delete k m.
Proof.
  induction m as [|[k' a] m IH]; [reflexivity|].
  cbn [map_delete]. destruct (String.eqb k k') eqn:E; [exact IH|].
  cbn [map_delete]. rewrite E, IH. reflexivity.
Qed.

Lemma alter_mark_ended_idemp (h : nat) (l : list SockInfo) :
  alter mark_ended h (alter mark_ended h l) = alter mark_ended h l.
Proof.
  revert h. induction l as [|k l IH]; intros [|h]; try reflexivity.
  cbn. rewrite IH. reflexivity.
Qed.

Section Cleanup.

Variable L : Lib.
Variable cfg : Config.

Lemma cleanup_to_completion_result (a : nat) (w : World) (s : Session) :
  heap w !! a = Some s ->
  exists w',
    cleanup_to_completion L cfg a w = Some w' /\
    sessions w' = map_delete (id s) (sessions w) /\
    timers w' = cancelled s (timers w) /\
    socks w' = ended_by s (socks w) /\
    heap w' = heap w /\
    removals_of w' = dir s :: removals_of w.
Proof.
  intros Hs. unfold cleanup_to_completion, cleanupSession. rewrite Hs.
  cbn [mbind option_bind].
  set (w0 := clearTimeout_if (timers_idle s) (clearTimeout_if (timers_ttl s) w)).
  assert (Hh : heap w0 = heap w) by (unfold w0; destruct (timers_idle s), (timers_ttl s); reflexivity).
  assert (Hn : next_task w0 = next_task w) by (unfold w0; destruct (timers_idle s), (timers_ttl s); reflexivity).
  assert (Hse : sessions w0 = sessions w) by (unfold w0; destruct (timers_idle s), (timers_ttl s); reflexivity).
  assert (Hso : socks w0 = socks w) by (unfold w0; destruct (timers_idle s), (timers_ttl s); reflexivity).
  assert (Hti : timers w0 = cancelled s (timers w)) by (unfold w0, cancelled; destruct (timers_idle s), (timers_ttl s); reflexivity).
  assert (Hre : removals_of w0 = removals_of w) by (unfold w0; destruct (timers_idle s), (timers_ttl s); reflexivity).
  unfold ended_by.
  destruct (sock s) as [h|] eqn:Hsock.
  - set (w1 := suspend (K_cleanEnd a) AwaitIO (sock_end h w0)).
    set (w2 := cleanup_remove a (with_tasks (delete (next_task w) (tasks w1)) w1)).
    assert (S1 : step L cfg (Resume (next_task w) Done) w1 = Some w2).
    { assert (E : tasks w1 !! next_task w = Some (K_cleanEnd a, AwaitIO))
        by (rewrite <- Hn; apply lookup_insert_eq).
      unfold step. rewrite E. reflexivity. }
    assert (E2 : w2 = suspend (K_cleanRemove a) AwaitIO
                        (perform (FsRemove (dir s))
                           (with_tasks (delete (next_task w) (tasks w1)) w1))).
    { unfold w2, cleanup_remove.
      change (heap (with_tasks (delete (next_task w) (tasks w1)) w1)) with (heap w0).
      rewrite Hh, Hs. reflexivity. }
    set (w3 := cleanup_delete a (with_tasks (delete (S (next_task w)) (tasks w2)) w2)).
    assert (S2 : step L cfg (Resume (S (next_task w)) Done) w2 = Some w3).
    { assert (E : tasks w2 !! S (next_task w) = Some (K_cleanRemove a, AwaitIO)).
      { rewrite E2. rewrite <- Hn. apply lookup_insert_eq. }
      unfold step. rewrite E. reflexivity. }
    exists w3. split.
    { cbn [run]. rewrite S1. cbn [mbind option_bind]. rewrite S2. reflexivity. }
    assert (E3 : w3 = with_sessions (map_delete (id s) (sessions w))
                        (with_tasks (delete (S (next_task w)) (tasks w2)) w2)).
    { unfold w3, cleanup_delete.
      change (heap (with_tasks (delete (S (next_task w)) (tasks w2)) w2)) with (heap w2).
      rewrite E2.
      change (heap (suspend _ _ _)) with (heap w0).
      change (sessions (with_tasks _ (suspend _ _ _))) with (sessions w0).
      rewrite Hh, Hs, Hse. reflexivity. }
    rewrite E3, E2. repeat split.
    + change (timers w0 = cancelled s (timers w)). exact Hti.
    + change (alter mark_ended h (socks w0) = alter mark_ended h (socks w)).
      rewrite Hso. reflexivity.
    + change (heap w0 = heap w). exact Hh.
    + change (dir s :: removals_of w0 = dir s :: removals_of w).
      rewrite Hre. reflexivity.
  - set (w1 := suspend (K_cleanRemove a) AwaitIO (perform (FsRemove (dir s)) w0)).
    set (w2 := cleanup_delete a (with_tasks (delete (next_task w) (tasks w1)) w1)).
    assert (S1 : step L cfg (Resume (next_task w) Done) w1 = Some w2).
    { assert (E : tasks w1 !! next_task w = Some (K_cleanRemove a, AwaitIO))
        by (rewrite <- Hn; apply lookup_insert_eq).
      unfold step. rewrite E. reflexivity. }
    exists w2. split.
    { cbn [run]. rewrite S1. reflexivity. }
    assert (E2 : w2 = with_sessions (map_delete (id s) (sessions w))
                        (with_tasks (delete (next_task w) (tasks w1)) w1)).
    { unfold w2, cleanup_delete.
      change (heap (with_tasks (delete (next_task w) (tasks w1)) w1)) with (heap w0).
      change (sessions (with_tasks (delete (next_task w) (tasks w1)) w1)) with (sessions w0).
      rewrite Hh, Hs, Hse. reflexivity. }
    rewrite E2. repeat split.
    + change (timers w0 = cancelled s (timers w)). exact Hti.
    + change (socks w0 = socks w). exact Hso.
    + change (heap w0 = heap w). exact Hh.
    + change (dir s :: removals_of w0 = dir s :: removals_of w).
      rewrite Hre. reflexivity.
Qed.
End Cleanup.

Lemma cancelled_lookup (s : Session) (m : gmap nat (TimerCb * Z)) (t : nat) :
  timers_ttl s = Some t \/ timers_idle s = Some t -> cancelled s m !! t = None.
Proof.
  unfold cancelled. intros [H | H]; rewrite H.
  - destruct (timers_idle s) as [t'|]; rewrite ?lookup_delete;
      repeat case_decide; congruence.
  - apply lookup_delete_eq.
Qed.

Lemma cancelled_idemp (s : Session) (m : gmap nat (TimerCb * Z)) :
  cancelled s (cancelled s m) = cancelled s m.
Proof.
  unfold cancelled. apply map_eq. intros i.
  destruct (timers_ttl s), (timers_idle s); rewrite ?lookup_delete;
    repeat case_decide; congruence.
Qed.

Lemma ended_by_idemp (s : Session) (l : list SockInfo) :
  ended_by s (ended_by s l) = ended_by s l.
Proof. unfold ended_by. destruct (sock s); [apply alter_mark_ended_idemp | reflexivity]. Qed.

Lemma ended_by_lookup (s : Session) (l : list SockInfo) (h : nat) (k : SockInfo) :
  sock s = Some h -> ended_by s l !! h = Some k -> ended k = true.
Proof.
  unfold ended_by. intros ->. rewrite list_lookup_alter_eq.
  destruct (l !! h); intros E; [injection E as <-; reflexivity | discriminate E].
Qed.

Lemma cleanupSession_sessions (a : nat) (w : World) :
  sessions (cleanupSession a w) = sessions w.
Proof.
  unfold cleanupSession. destruct (heap w !! a) as [s|]; [|reflexivity].
  destruct (timers_ttl s), (timers_idle s), (sock s); reflexivity.
Qed.

(** A cleanup that runs alone, from its call to its last step with
    nothing handled between: it cancels the timers in the timer fields,
    ends the connection in the handle field, removes the working
    directory and, as its last step, removes the session from the
    registry.  A second such run leaves the registry, the timers, the
    connections and the session object as the first left them, and
    removes the directory once more. *)
Lemma cleanup_alone_is_idempotent_in_result (L : Lib) (cfg : Config) (a : nat)
    (w : World) (s : Session) :
  heap w !! a = Some s ->
  sessions (cleanupSession a w) = sessions w /\
  exists w1,
    cleanup_to_completion L cfg a w = Some w1 /\
    map_get (id s) (sessions w1) = None /\
    (forall t, timers_ttl s = Some t \/ timers_idle s = Some t ->
               timers w1 !! t = None) /\
    (forall h k, sock s = Some h -> socks w1 !! h = Some k -> ended k = true) /\
    removals_of w1 = dir s :: removals_of w /\
    exists w2,
      cleanup_to_completion L cfg a w1 = Some w2 /\
      sessions w2 = sessions w1 /\ timers w2 = timers w1 /\
      socks w2 = socks w1 /\ heap w2 = heap w1 /\
      removals_of w2 = dir s :: removals_of w1.
Proof.
  intros Hs. split; [apply cleanupSession_sessions|].
  destruct (cleanup_to_completion_result L cfg a w s Hs)
    as (w1 & Hrun & Hse & Hti & Hso & Hh & Hre).
  exists w1. split; [exact Hrun|].
  split; [rewrite Hse; apply map_get_delete|].
  split; [intros t Ht; rewrite Hti; apply cancelled_lookup, Ht|].
  split; [intros h k Hk; rewrite Hso; apply ended_by_lookup, Hk|].
  split; [exact Hre|].
  assert (Hs1 : heap w1 !! a = Some s) by (rewrite Hh; exact Hs).
  destruct (cleanup_to_completion_result L cfg a w1 s Hs1)
    as (w2 & Hrun2 & Hse2 & Hti2 & Hso2 & Hh2 & Hre2).
  exists w2. split; [exact Hrun2|].
  split; [rewrite Hse2, Hse; apply map_delete_idemp|].
  split; [rewrite Hti2, Hti; apply cancelled_idemp|].
  split; [rewrite Hso2, Hso; apply ended_by_idemp|].
  split; [exact Hh2 | exact Hre2].
Qed.

(* ===================================================================== *)
(** * Part III: further properties of the code *)
(* ===================================================================== *)

(** ** Sizes of the encodings *)

Section Sizes.
Import Base64.

Lemma encode_length (bs : list Byte.byte) :
  String.length (encode bs) = (4 * ((length bs + 2) / 3))%nat.
Proof.
  induction bs as [|a|a b|a b c r IH] using bytes_ind3; cbn [encode].
  - reflexivity.
  - destruct (enc3 a zero zero) as [[[s1 s2] s3] s4]. reflexivity.
  - destruct (enc3 a b zero) as [[[s1 s2] s3] s4]. reflexivity.
  - destruct (enc3 a b c) as [[[s1 s2] s3] s4].
    cbn [String.length length]. rewrite IH.
    replace (S (S (S (length r))) + 2)%nat with ((length r + 2) + 1 * 3)%nat by lia.
    rewrite Nat.div_add by discriminate. lia.
Qed.

Lemma b64url_length (bs : list Byte.byte) :
  String.length (b64url bs) = ((4 * length bs + 2) / 3)%nat.
Proof.
  unfold b64url.
  induction bs as [|a|a b|a b c r IH] using bytes_ind3; cbn [encode].
  - reflexivity.
  - destruct (enc3 a zero zero) as [[[s1 s2] s3] s4].
    rewrite !b64url_cons. reflexivity.
  - destruct (enc3 a b zero) as [[[s1 s2] s3] s4].
    rewrite !b64url_cons. reflexivity.
  - destruct (enc3 a b c) as [[[s1 s2] s3] s4].
    rewrite !b64url_cons. cbn [String.length length]. rewrite IH.
    replace (4 * S (S (S (length r))) + 2)%nat
      with ((4 * length r + 2) + 4 * 3)%nat by lia.
    rewrite Nat.div_add by discriminate. lia.
Qed.

(** Induction four sextets at a time. *)
Lemma sextets_ind4 (P : list sextet -> Prop) :
  P [] -> (forall a, P [a]) -> (forall a b, P [a; b]) -> (forall a b c, P [a; b; c]) ->
  (forall a b c d r, P r -> P (a :: b :: c :: d :: r)) ->
  forall l, P l.
Proof.
  intros H0 H1 H2 H3 H4.
  fix IH 1. intros [|a [|b [|c [|d r]]]];
    [exact H0 | exact (H1 a) | exact (H2 a b) | exact (H3 a b c)
    | exact (H4 a b c d r (IH r))].
Qed.

Lemma bytes_of_length (l : list sextet) :
  (4 * length (bytes_of l) <= 3 * length l)%nat.
Proof.
  induction l as [|a|a b|a b c|a b c d r IH] using sextets_ind4;
    cbn [bytes_of length] in *; lia.
Qed.

Lemma legal_length (s : string) : (length (legal s) <= String.length s)%nat.
Proof.
  induction s as [|c r IH]; [cbn; lia|].
  cbn [legal String.length].
  destruct (Ascii.eqb c "="); [cbn; lia|].
  destruct (sextet_of_char c); cbn [length]; lia.
Qed.

Lemma b64urlDecodeToBuf_length (s : string) :
  (4 * length (b64urlDecodeToBuf s) <= 3 * String.length s)%nat.
Proof.
  rewrite b64urlDecodeToBuf_legal.
  pose proof (bytes_of_length (legal s)). pose proof (legal_length s). lia.
Qed.

End Sizes.

(** X1: the padded base64 text of [n] bytes has [4 * ceil(n/3)]
    characters, and the text [b64url] makes of them has
    [floor((4n + 2) / 3)]: it grows with the input and carries no
    padding. *)
Theorem encoding_lengths (bs : list Byte.byte) :
  String.length (Base64.encode bs) = (4 * ((length bs + 2) / 3))%nat /\
  String.length (b64url bs) = ((4 * length bs + 2) / 3)%nat.
Proof. split; [apply encode_length | apply b64url_length]. Qed.

(** X2: [b64urlDecodeToBuf] reads the URL-safe text and the standard
    padded text of the same bytes alike, and extra padding at the end
    changes nothing. *)
Theorem b64urlDecodeToBuf_reads_both_forms (bs : list Byte.byte) (n : nat) :
  b64urlDecodeToBuf (Base64.encode bs) = bs /\
  b64urlDecodeToBuf (b64url bs) = bs /\
  b64urlDecodeToBuf (b64url bs ++ Js.repeat_eq n) = bs.
Proof.
  split; [rewrite b64urlDecodeToBuf_legal; apply decode_encode|].
  split; [apply b64url_roundtrip|].
  rewrite b64urlDecodeToBuf_legal, legal_app_padding, <- b64urlDecodeToBuf_legal.
  apply b64url_roundtrip.
Qed.

(** X3: the plain exporter of the current revision and the legacy
    exporter return the same token, [Mantra~] followed by the padded
    base64 of the credentials, whatever the nonce and the clock; decoding
    the text after the prefix gives the credentials back. *)
Theorem plain_export_roundtrip (C : Crypto) (cfg : Config) (iv : list Byte.byte)
    (ts : Z) (b : list Byte.byte) :
  EXPORT_ENCRYPTED cfg = false ->
  exportTokensFromCreds C cfg iv ts b = exportSessionTokens b /\
  exportSessionTokens b = ["Mantra~" ++ Base64.encode b] /\
  Base64.decode (Js.slice_from 7 ("Mantra~" ++ Base64.encode b)) = b.
Proof.
  intros H. unfold exportTokensFromCreds. rewrite H.
  split; [reflexivity|]. split; [reflexivity|].
  change (Js.slice_from 7 ("Mantra~" ++ Base64.encode b)) with (Base64.encode b).
  apply decode_encode.
Qed.

Lemma plain_export_roundtrip_witness :
  EXPORT_ENCRYPTED default_config = false /\
  exportTokensFromCreds toy_crypto default_config [] 0 [Byte.x7b; Byte.x7d]
  = ["Mantra~e30="].
Proof.
  split; [reflexivity|].
  destruct (plain_export_roundtrip toy_crypto default_config [] 0
              [Byte.x7b; Byte.x7d] eq_refl) as (E1 & E2 & _).
  rewrite E1, E2. reflexivity.
Defined.

(** X4: a token whose text after the prefix has at most 38 characters
    cannot hold a nonce, a tag and one byte of ciphertext: with a secret
    set, the utility reports it as too short and exits with 2 before any
    key is derived. *)
Theorem short_token_is_rejected (C : Crypto) (body : string) (env_secret : option string) :
  (String.length body <= 38)%nat ->
  Js.trim (Js.or_default env_secret "") <> "" ->
  decrypt_session C (Some ("MantraEnc~" ++ body)) env_secret
  = Exit 2 "Token too short".
Proof.
  intros Hlen Hsec. unfold decrypt_session.
  assert (E1 : String.eqb ("MantraEnc~" ++ body) "" = false) by reflexivity.
  rewrite E1. unfold Js.startsWith. rewrite prefix_app. cbn [negb orb].
  apply String.eqb_neq in Hsec. rewrite Hsec. cbv zeta.
  assert (E0 : Js.slice_from 10 ("MantraEnc~" ++ body) = body) by reflexivity.
  rewrite E0.
  pose proof (b64urlDecodeToBuf_length body) as Hb.
  assert (E3 : (length (b64urlDecodeToBuf body) <? 12 + 16 + 1)%nat = true)
    by (apply Nat.ltb_lt; lia).
  rewrite E3. reflexivity.
Qed.

Lemma short_token_is_rejected_witness :
  (String.length "AAAA" <= 38)%nat /\
  Js.trim (Js.or_default (Some "s3cret") "") <> "" /\
  decrypt_session toy_crypto (Some "MantraEnc~AAAA") (Some "s3cret")
  = Exit 2 "Token too short".
Proof.
  assert (H1 : (String.length "AAAA" <= 38)%nat) by (cbn; lia).
  assert (H2 : Js.trim (Js.or_default (Some "s3cret") "") <> "")
    by (vm_compute; discriminate).
  split; [exact H1|]. split; [exact H2|].
  exact (short_token_is_rejected toy_crypto "AAAA" (Some "s3cret") H1 H2).
Defined.

(** [decrypt_session] is the script with the reader of this file. *)
Lemma decrypt_session_flat (C : Crypto) (argv2 env_secret : option string) :
  decrypt_session C argv2 env_secret = decrypt_session_with flat_json C argv2 env_secret.
Proof.
  unfold decrypt_session, decrypt_session_with. destruct argv2 as [token|]; [|reflexivity].
  destruct (_ || _); [reflexivity|].
  destruct (String.eqb _ ""); [reflexivity|]. cbv zeta.
  destruct (_ <? _)%nat; [reflexivity|].
  destruct (gcm_decrypt C _ _ _ _) as [plaintext|]; [|reflexivity].
  cbn [JSON_parse flat_json].
  destruct (Json.parse _) as [parsed|]; [|reflexivity].
  cbn [falsy v_is_one creds_string flat_json orb].
  destruct (Json.get "v" parsed) as [[[|[| |]|]|]|]; try reflexivity;
    destruct (Json.get "creds" parsed) as [[|creds]|]; reflexivity.
Qed.

Lemma starts_with_prefix (token : string) :
  Js.startsWith "MantraEnc~" token = true ->
  token = "MantraEnc~" ++ Js.slice_from 10 token.
Proof.
  intros Hp. unfold Js.startsWith in Hp. apply prefix_correct in Hp.
  cbn [String.length] in Hp.
  destruct token as [|c0 [|c1 [|c2 [|c3 [|c4 [|c5 [|c6 [|c7 [|c8 [|c9 r]]]]]]]]]];
    try discriminate Hp.
  cbn [substring] in Hp. injection Hp as -> -> -> -> -> -> -> -> -> ->.
  reflexivity.
Qed.

(** X5: whatever [JSON.parse] is, the utility writes to standard output
    exactly when the argument has the prefix, the secret is not blank,
    at least 29 bytes were decoded, the tag check of AES-GCM passed on
    the bytes after the first 28, and the plaintext parses to a value
    that is not falsy, has [v] equal to 1 and a string [creds]; the
    output is then the base64 decoding of [creds].  In every other case
    it exits with 1 or 2. *)
Theorem decrypt_output_is_authenticated (J : JsonReader) (C : Crypto)
    (argv2 env_secret : option string) :
  let secret := Js.trim (Js.or_default env_secret "") in
  let authenticated (body : string) (creds : string) : Prop :=
    let packed := b64urlDecodeToBuf body in
    secret <> "" /\
    (29 <= length packed)%nat /\
    exists plaintext parsed,
      gcm_decrypt C (scryptSync C secret "mantra-pair" 32) (take 12 packed)
        (take 16 (drop 12 packed)) (drop 28 packed) = Some plaintext /\
      JSON_parse J (string_of_list_byte plaintext) = Some parsed /\
      falsy J parsed = false /\
      v_is_one J parsed = true /\
      creds_string J parsed = Some creds in
  match decrypt_session_with J C argv2 env_secret with
  | Stdout out =>
      exists body creds,
        argv2 = Some ("MantraEnc~" ++ body) /\ authenticated body creds /\
        out = Base64.decode creds
  | Exit code _ => code = 1%nat \/ code = 2%nat
  end /\
  forall body creds,
    authenticated body creds ->
    decrypt_session_with J C (Some ("MantraEnc~" ++ body)) env_secret
    = Stdout (Base64.decode creds).
Proof.
  intros secret authenticated. split.
  - unfold decrypt_session_with. destruct argv2 as [token|]; [|right; reflexivity].
    destruct (String.eqb token "" || negb (Js.startsWith "MantraEnc~" token)) eqn:Hp;
      [right; reflexivity|].
    apply orb_false_elim in Hp as [_ Hp]. apply negb_false_iff in Hp.
    fold secret. destruct (String.eqb secret "") eqn:Hs; [right; reflexivity|].
    cbv zeta.
    destruct (length (b64urlDecodeToBuf (Js.slice_from 10 token)) <? 12 + 16 + 1)%nat eqn:Hl;
      [right; reflexivity|].
    destruct (gcm_decrypt C _ _ _ _) as [plaintext|] eqn:Hd; [|left; reflexivity].
    destruct (JSON_parse J (string_of_list_byte plaintext)) as [parsed|] eqn:Hj;
      [|left; reflexivity].
    destruct (falsy J parsed) eqn:Hf; [left; reflexivity|].
    destruct (v_is_one J parsed) eqn:Hv; [|left; reflexivity].
    cbn [negb orb].
    destruct (creds_string J parsed) as [creds|] eqn:Hc; [|left; reflexivity].
    exists (Js.slice_from 10 token), creds.
    split; [f_equal; apply starts_with_prefix, Hp|]. split; [|reflexivity].
    split; [apply String.eqb_neq; exact Hs|].
    split; [apply Nat.ltb_ge in Hl; exact Hl|].
    exists plaintext, parsed. auto.
  - intros body creds (Hs & Hl & plaintext & parsed & Hd & Hj & Hf & Hv & Hc).
    unfold decrypt_session_with.
    assert (E1 : String.eqb ("MantraEnc~" ++ body) "" = false) by reflexivity.
    rewrite E1. unfold Js.startsWith. rewrite prefix_app. cbn [negb orb].
    fold secret. apply String.eqb_neq in Hs. rewrite Hs. cbv zeta.
    assert (E0 : Js.slice_from 10 ("MantraEnc~" ++ body) = body) by reflexivity.
    rewrite E0.
    assert (E3 : (length (b64urlDecodeToBuf body) <? 12 + 16 + 1)%nat = false)
      by (apply Nat.ltb_ge; exact Hl).
    rewrite E3, Hd, Hj, Hf, Hv. cbn [negb orb]. rewrite Hc. reflexivity.
Qed.

Lemma decrypt_output_is_authenticated_witness :
  exists body,
    head (exportTokensFromCreds toy_crypto encrypted_config (repeat Byte.x07 12) 5
            [Byte.x7b; Byte.x7d]) = Some ("MantraEnc~" ++ body) /\
    decrypt_session_with flat_json toy_crypto (Some ("MantraEnc~" ++ body))
      (Some "s3cret") = Stdout [Byte.x7b; Byte.x7d].
Proof.
  exists (b64url (repeat Byte.x07 12 ++ repeat Byte.x2a 16 ++
                  list_byte_of_string
                    (Json.stringify (envelope (Base64.encode [Byte.x7b; Byte.x7d]) 5)))).
  split; [vm_compute; reflexivity|].
  apply (proj2 (decrypt_output_is_authenticated flat_json toy_crypto None (Some "s3cret"))
           _ "e30=").
  split; [vm_compute; discriminate|]. split; [vm_compute; lia|].
  eexists. eexists.
  split; [vm_compute; reflexivity|]. split; [vm_compute; reflexivity|].
  split; [reflexivity|]. split; reflexivity.
Defined.

(** X6: a token of the plain format, or no argument at all, only gets
    the usage line and exit code 2, whatever the secret. *)
Theorem plain_token_is_not_decrypted (C : Crypto) (b : list Byte.byte)
    (env_secret : option string) :
  decrypt_session C (head (exportSessionTokens b)) env_secret = usage /\
  decrypt_session C None env_secret = usage /\
  decrypt_session C (Some "") env_secret = usage.
Proof. repeat split. Qed.

(** ** Phone numbers *)

Lemma digits_only_strip (s : string) : digits_only (Js.strip_non_digits s) = true.
Proof.
  induction s as [|c r IH]; [reflexivity|]. cbn [Js.strip_non_digits].
  destruct (Js.is_digit c) eqn:E; [cbn [digits_only]; rewrite E; exact IH | exact IH].
Qed.

Lemma strip_digits_only (s : string) :
  digits_only s = true -> Js.strip_non_digits s = s.
Proof.
  induction s as [|c r IH]; [reflexivity|]. cbn [digits_only Js.strip_non_digits].
  intros [Hc Hr]%andb_prop. rewrite Hc, (IH Hr). reflexivity.
Qed.

Lemma validatePhone_inv (p : option string) (c : string) :
  validatePhone p = inr c ->
  c = Js.strip_non_digits (Js.or_default p "") /\ (10 <= String.length c <= 15)%nat.
Proof.
  unfold validatePhone.
  destruct (Nat.ltb_spec (String.length (Js.strip_non_digits (Js.or_default p ""))) 10);
    [discriminate|].
  destruct (Nat.ltb_spec 15 (String.length (Js.strip_non_digits (Js.or_default p ""))));
    [discriminate|].
  cbn [orb]. intros E. injection E as <-. split; [reflexivity | lia].
Qed.

Lemma validatePhone_digits (c : string) :
  digits_only c = true -> (10 <= String.length c <= 15)%nat ->
  validatePhone (Some c) = inr c.
Proof.
  intros Hd Hl. unfold validatePhone.
  assert (E : Js.or_default (Some c) "" = c) by (destruct c; reflexivity).
  rewrite E, (strip_digits_only c Hd).
  destruct (Nat.ltb_spec (String.length c) 10); [lia|].
  destruct (Nat.ltb_spec 15 (String.length c)); [lia|]. reflexivity.
Qed.

(** X7: what [validatePhone] accepts it returns in a normal form: only
    digits, 10 to 15 of them; and the normal form is accepted again
    unchanged, so validating twice is validating once. *)
Theorem validatePhone_normal_form (p : option string) (c : string) :
  validatePhone p = inr c ->
  digits_only c = true /\ (10 <= String.length c <= 15)%nat /\
  validatePhone (Some c) = inr c.
Proof.
  intros H. apply validatePhone_inv in H as [-> Hl].
  pose proof (digits_only_strip (Js.or_default p "")) as Hd.
  split; [exact Hd|]. split; [exact Hl|]. apply validatePhone_digits; assumption.
Qed.

Lemma validatePhone_normal_form_witness :
  validatePhone (Some "+1 (555) 123-4567") = inr "15551234567" /\
  validatePhone (Some "15551234567") = inr "15551234567".
Proof.
  split; [reflexivity|].
  apply (validatePhone_normal_form (Some "+1 (555) 123-4567") "15551234567" eq_refl).
Defined.

(** X8: the page and the server agree on phone numbers up to the upper
    bound.  A number the server accepts passes the check of the page,
    which sends exactly the digits the server would keep; what the page
    sends is accepted by the server if and only if it has at most 15
    digits, the bound the page does not check. *)
Theorem page_and_server_agree_on_phone (input : string) :
  (forall c, validatePhone (Some input) = inr c -> client_phone input = Some c) /\
  (forall p, client_phone input = Some p ->
     validatePhone (Some p) = validatePhone (Some input) /\
     (validatePhone (Some p) = inr p <-> (String.length p <= 15)%nat)).
Proof.
  split.
  - intros c H. apply validatePhone_inv in H as [-> Hl]. unfold client_phone.
    rewrite or_default_strip in *.
    destruct (Nat.ltb_spec (String.length (Js.strip_non_digits input)) 10); [lia|].
    reflexivity.
  - intros p H. unfold client_phone in H.
    destruct (Nat.ltb_spec (String.length (Js.strip_non_digits input)) 10) as [|Hl];
      [discriminate|]. injection H as <-.
    pose proof (digits_only_strip input) as Hd.
    split.
    + unfold validatePhone. rewrite !or_default_strip.
      rewrite (strip_digits_only _ Hd). reflexivity.
    + split.
      * intros E. apply validatePhone_inv in E as [_ ?]. lia.
      * intros Hu. apply validatePhone_digits; [exact Hd | lia].
Qed.

Lemma page_and_server_agree_on_phone_witness :
  client_phone "+1 555 123 4567 8901 23" = Some "15551234567890123" /\
  validatePhone (Some "+1 555 123 4567 8901 23") = inl "Phone number must be 10-15 digits" /\
  ~ (String.length "15551234567890123" <= 15)%nat.
Proof.
  destruct (page_and_server_agree_on_phone "+1 555 123 4567 8901 23") as (_ & H).
  destruct (H "15551234567890123" eq_refl) as (E & Hiff).
  split; [reflexivity|]. split; [reflexivity|].
  intros Hl. apply Hiff in Hl. rewrite E in Hl. discriminate Hl.
Defined.

(** ** The self JID and the pairing code *)

Lemma occurs_before_same (c : ascii) (s : string) : occurs c (before c s) = false.
Proof.
  induction s as [|x r IH]; [reflexivity|]. cbn [before].
  destruct (Ascii.eqb x c) eqn:E; [reflexivity|]. cbn [occurs]. rewrite E. exact IH.
Qed.

Lemma occurs_before (c d : ascii) (s : string) :
  occurs c s = false -> occurs c (before d s) = false.
Proof.
  induction s as [|x r IH]; [reflexivity|]. cbn [occurs before].
  intros [Hx Hr]%orb_false_elim.
  destruct (Ascii.eqb x d); [reflexivity|]. cbn [occurs]. rewrite Hx. exact (IH Hr).
Qed.

Lemma occurs_trimStart (c : ascii) (s : string) :
  occurs c s = false -> occurs c (Js.trimStart s) = false.
Proof.
  induction s as [|x r IH]; [reflexivity|]. cbn [Js.trimStart].
  intros H. destruct (Js.is_space x); [|exact H].
  cbn [occurs] in H. apply orb_false_elim in H as [_ Hr]. exact (IH Hr).
Qed.

Lemma occurs_trimEnd (c : ascii) (s : string) :
  occurs c s = false -> occurs c (Js.trimEnd s) = false.
Proof.
  induction s as [|x r IH]; [reflexivity|]. cbn [occurs Js.trimEnd].
  intros [Hx Hr]%orb_false_elim. specialize (IH Hr).
  destruct (Js.trimEnd r) as [|y t].
  - destruct (Js.is_space x); [reflexivity|]. cbn [occurs]. rewrite Hx. reflexivity.
  - cbn [occurs] in *. rewrite Hx. exact IH.
Qed.

Lemma occurs_trim (c : ascii) (s : string) :
  occurs c s = false -> occurs c (Js.trim s) = false.
Proof. intros H. apply occurs_trimEnd, occurs_trimStart, H. Qed.

Lemma before_app (c : ascii) (x y : string) :
  occurs c x = false -> before c (x ++ String c y) = x.
Proof.
  induction x as [|a x IH].
  - intros _. change ("" ++ String c y) with (String c y). cbn [before].
    rewrite Ascii.eqb_refl. reflexivity.
  - cbn [occurs]. intros [Ha Hx]%orb_false_elim.
    rewrite string_app_cons. cbn [before]. rewrite Ha, (IH Hx). reflexivity.
Qed.

Lemma before_absent (c : ascii) (x : string) : occurs c x = false -> before c x = x.
Proof.
  induction x as [|a x IH]; [reflexivity|]. cbn [occurs before].
  intros [Ha Hx]%orb_false_elim. rewrite Ha, (IH Hx). reflexivity.
Qed.

Lemma digit_facts (c : ascii) :
  Js.is_digit c = true ->
  Js.is_space c = false /\ Ascii.eqb c "@" = false /\ Ascii.eqb c ":" = false.
Proof.
  intros H. destruct c as [[] [] [] [] [] [] [] []];
    vm_compute in H |- *; try discriminate H; repeat split.
Qed.

Lemma digits_no_occurrence (s : string) :
  digits_only s = true -> occurs "@" s = false /\ occurs ":" s = false.
Proof.
  induction s as [|c r IH]; [split; reflexivity|]. cbn [digits_only occurs].
  intros [Hc Hr]%andb_prop. destruct (digit_facts c Hc) as (_ & H1 & H2).
  destruct (IH Hr) as [I1 I2]. rewrite H1, H2, I1, I2. split; reflexivity.
Qed.

Lemma trim_digits (s : string) : digits_only s = true -> Js.trim s = s.
Proof.
  intros H. unfold Js.trim.
  assert (E : Js.trimStart s = s).
  { destruct s as [|c r]; [reflexivity|]. cbn [digits_only] in H.
    apply andb_prop in H as [Hc _]. cbn [Js.trimStart].
    destruct (digit_facts c Hc) as (-> & _). reflexivity. }
  rewrite E. clear E. induction s as [|c r IH]; [reflexivity|].
  cbn [digits_only] in H. apply andb_prop in H as [Hc Hr].
  cbn [Js.trimEnd]. rewrite (IH Hr). destruct (digit_facts c Hc) as (-> & _).
  destruct r; reflexivity.
Qed.

(** X9: the delivery target is built from the connection's own
    identity: what [safeSelfJid] returns is a number followed by
    [@s.whatsapp.net], where the number is not empty and contains neither
    [@] nor [:]; and from an identity [number:device@server] or
    [number@server] with a number of digits it returns
    [number@s.whatsapp.net], whatever the device and the server. *)
Theorem safeSelfJid_shape (user : option string) (jid : string) :
  safeSelfJid user = Some jid ->
  exists number,
    jid = number ++ "@s.whatsapp.net" /\ number <> "" /\
    occurs "@" number = false /\ occurs ":" number = false.
Proof.
  unfold safeSelfJid.
  set (number := Js.trim (before ":" (before "@" (Js.or_default user "")))).
  destruct (String.eqb number "") eqn:E; [discriminate|].
  intros H. injection H as <-. exists number.
  split; [reflexivity|]. split; [apply String.eqb_neq; exact E|].
  split.
  - apply occurs_trim, occurs_before, occurs_before_same.
  - apply occurs_trim, occurs_before_same.
Qed.

Lemma safeSelfJid_shape_witness :
  safeSelfJid (Some " 15551234567 :12@s.whatsapp.net") = Some "15551234567@s.whatsapp.net" /\
  exists number,
    "15551234567@s.whatsapp.net" = number ++ "@s.whatsapp.net" /\ number <> "".
Proof.
  split; [reflexivity|].
  destruct (safeSelfJid_shape (Some " 15551234567 :12@s.whatsapp.net")
              "15551234567@s.whatsapp.net" eq_refl) as (n & E & Hn & _).
  exists n. split; assumption.
Defined.

(** X10: from the identity of a paired account the number is taken and
    the device and server are dropped. *)
Theorem safeSelfJid_of_identity (number device server : string) :
  digits_only number = true -> number <> "" -> occurs "@" device = false ->
  safeSelfJid (Some (number ++ ":" ++ device ++ "@" ++ server))
    = Some (number ++ "@s.whatsapp.net") /\
  safeSelfJid (Some (number ++ "@" ++ server)) = Some (number ++ "@s.whatsapp.net").
Proof.
  intros Hd Hn Hdev. destruct (digits_no_occurrence number Hd) as [Hat Hcolon].
  assert (Hne : String.eqb number "" = false) by (apply String.eqb_neq; exact Hn).
  assert (Hdef : forall t, Js.or_default (Some (number ++ t)) "" = number ++ t).
  { intros t. destruct number as [|c r]; [congruence|]. reflexivity. }
  split; unfold safeSelfJid; rewrite Hdef.
  - assert (E : before "@" (number ++ ":" ++ device ++ "@" ++ server)
                = number ++ ":" ++ device).
    { rewrite <- (before_app "@" (number ++ ":" ++ device) server).
      - rewrite !string_app_assoc. reflexivity.
      - clear Hdef Hne Hn Hd Hcolon. induction number as [|c r IH].
        + exact Hdev.
        + cbn [occurs] in Hat. apply orb_false_elim in Hat as [Hc Hr].
          rewrite string_app_cons. cbn [occurs]. rewrite Hc. exact (IH Hr). }
    rewrite E. change (number ++ ":" ++ device) with (number ++ String ":" device).
    rewrite (before_app ":" number device Hcolon), (trim_digits number Hd), Hne.
    reflexivity.
  - change (number ++ "@" ++ server) with (number ++ String "@" server).
    rewrite (before_app "@" number server Hat), (before_absent ":" number Hcolon).
    rewrite (trim_digits number Hd), Hne. reflexivity.
Qed.

Lemma safeSelfJid_of_identity_witness :
  digits_only "254700000001" = true /\ "254700000001" <> "" /\
  occurs "@" "7" = false /\
  safeSelfJid (Some "254700000001:7@s.whatsapp.net") = Some "254700000001@s.whatsapp.net".
Proof.
  assert (H2 : "254700000001" <> "") by discriminate.
  split; [reflexivity|]. split; [exact H2|]. split; [reflexivity|].
  apply (safeSelfJid_of_identity "254700000001" "7" "s.whatsapp.net" eq_refl H2 eq_refl).
Defined.

(** ** The grouping of the pairing code *)

Lemma string_app_empty_r (s : string) : s ++ "" = s.
Proof. induction s as [|c r IH]; [reflexivity|]. rewrite string_app_cons, IH. reflexivity. Qed.

Lemma concat_empty_cons (x : string) (l : list string) :
  String.concat "" (x :: l) = x ++ String.concat "" l.
Proof. destruct l; cbn [String.concat]; [rewrite string_app_empty_r|]; reflexivity. Qed.

Lemma match_groups_spec (s cur : string) :
  one_line s = true -> (String.length cur < 4)%nat -> cur ++ s <> "" ->
  exists full rest,
    match_groups cur s = (full ++ [rest])%list /\
    Forall (fun g => String.length g = 4%nat) full /\
    (1 <= String.length rest <= 4)%nat /\
    String.concat "" (full ++ [rest])%list = cur ++ s.
Proof.
  revert cur. induction s as [|c r IH]; intros cur Hl Hcur Hne.
  - rewrite string_app_empty_r in Hne. cbn [match_groups].
    apply String.eqb_neq in Hne as E. rewrite E.
    exists [], cur. split; [reflexivity|]. split; [constructor|].
    split; [|cbn; rewrite string_app_empty_r; reflexivity].
    destruct cur; [congruence|cbn [String.length] in *; lia].
  - cbn [one_line] in Hl. apply andb_prop in Hl as [Hc Hr].
    apply negb_true_iff in Hc. cbn [match_groups]. rewrite Hc. cbv zeta.
    assert (Hlen : String.length (cur ++ String c "") = S (String.length cur)).
    { rewrite string_length_app. cbn [String.length]. lia. }
    assert (Happ : cur ++ String c r = (cur ++ String c "") ++ r).
    { rewrite string_app_assoc. reflexivity. }
    destruct (String.length (cur ++ String c "") =? 4)%nat eqn:E4.
    + apply Nat.eqb_eq in E4.
      destruct r as [|c' r'].
      * cbn [match_groups String.eqb]. exists [], (cur ++ String c "").
        split; [reflexivity|]. split; [constructor|]. split; [lia|].
        cbn [app String.concat]. reflexivity.
      * destruct (IH "" Hr) as (full & rest & Hg & Hf & Hrest & Hcat);
          [cbn; lia | discriminate |].
        exists ((cur ++ String c "")%string :: full), rest.
        split; [rewrite Hg; reflexivity|].
        split; [constructor; assumption|]. split; [exact Hrest|].
        change (String.concat "" ((cur ++ String c "") :: (full ++ [rest])%list)
                = cur ++ String c (String c' r')).
        rewrite concat_empty_cons, Hcat, Happ. reflexivity.
    + apply Nat.eqb_neq in E4.
      destruct (IH (cur ++ String c "") Hr) as (full & rest & Hg & Hf & Hrest & Hcat).
      * lia.
      * rewrite <- Happ. destruct cur; discriminate.
      * exists full, rest. rewrite Happ. repeat split; try assumption; lia.
Qed.

(** X11: a pairing code that is not empty and has no line break is shown
    in groups of four characters joined by [-]: every group but the last
    has four characters, the last has one to four, and the groups put
    together are the code the library gave. *)
Theorem formatCode_groups (raw : string) :
  raw <> "" -> one_line raw = true ->
  exists full rest,
    formatCode (Some raw) = Some (String.concat "-" (full ++ [rest])%list) /\
    Forall (fun g => String.length g = 4%nat) full /\
    (1 <= String.length rest <= 4)%nat /\
    String.concat "" (full ++ [rest])%list = raw.
Proof.
  intros Hne Hl.
  destruct (match_groups_spec raw "" Hl) as (full & rest & Hg & Hf & Hrest & Hcat);
    [cbn; lia | exact Hne |].
  exists full, rest. split; [|auto].
  unfold formatCode. rewrite Hg. destruct full; reflexivity.
Qed.

Lemma formatCode_groups_witness :
  formatCode (Some "ABCD1234") = Some "ABCD-1234" /\
  exists full rest,
    formatCode (Some "ABCD1234") = Some (String.concat "-" (full ++ [rest])%list) /\
    String.concat "" (full ++ [rest])%list = "ABCD1234".
Proof.
  split; [reflexivity|].
  assert (H : "ABCD1234" <> "") by discriminate.
  destruct (formatCode_groups "ABCD1234" H eq_refl) as (full & rest & E & _ & _ & Hc).
  exists full, rest. split; assumption.
Defined.

(** ** What every reachable state satisfies *)

Ltac simpl_world :=
  cbn [setTimeout snd update perform respond with_heap with_effects
       with_next_timer with_timers with_tasks with_next_task with_sessions
       with_socks with_clock with_responses suspend delay clearTimeout
       heap sessions timers tasks effects next_timer next_task socks clock
       responses] in *.

Section Consistency.

Variable L : Lib.
Variable cfg : Config.

Lemma alter_lookup_inv {A} (f : A -> A) (a b : nat) (l : list A) (y : A) :
  alter f a l !! b = Some y ->
  exists x, l !! b = Some x /\ ((b = a /\ y = f x) \/ (b <> a /\ y = x)).
Proof.
  destruct (decide (b = a)) as [->|N].
  - rewrite list_lookup_alter_eq. destruct (l !! a) as [x|]; [|discriminate].
    intros [= <-]. eauto.
  - rewrite list_lookup_alter_ne by congruence. eauto.
Qed.

Lemma alter_lookup_exists (P : Session -> Prop) (f : Session -> Session)
    (a b : nat) (l : list Session) :
  (forall s, l !! a = Some s -> P s -> P (f s)) ->
  (exists s, l !! b = Some s /\ P s) ->
  exists s, alter f a l !! b = Some s /\ P s.
Proof.
  intros Hf (s & Hs & HP). destruct (decide (b = a)) as [->|N].
  - exists (f s). rewrite list_lookup_alter_eq, Hs. split; [reflexivity|auto].
  - exists s. rewrite list_lookup_alter_ne by congruence. auto.
Qed.

Lemma owns_alter (w : World) (a : nat) (f : Session -> Session) t cb :
  (forall s, heap w !! a = Some s ->
     timers_ttl (f s) = timers_ttl s /\ timers_idle (f s) = timers_idle s) ->
  owns w t cb -> owns (update a f w) t cb.
Proof.
  intros Hf. unfold owns. cbn [update with_heap heap].
  apply alter_lookup_exists; intros s Hs E; destruct (Hf s Hs) as [E1 E2].
  destruct cb; cbn [timer_field] in *; congruence.
Qed.

Lemma consistent_update (a : nat) (f : Session -> Session) (w : World) :
  (forall s, heap w !! a = Some s -> keeps cfg f s) ->
  consistent cfg w -> consistent cfg (update a f w).
Proof.
  intros Hf [R H T K E]. split.
  - intros k b Hk. cbn [update with_heap heap sessions] in *.
    apply alter_lookup_exists; [|exact (R k b Hk)].
    intros s Hs <-. apply (Hf s Hs).
  - intros b s' Hb. cbn [update with_heap heap] in Hb.
    apply alter_lookup_inv in Hb as (s & Hs & [[-> ->]|[_ ->]]); [|exact (H b s Hs)].
    apply (Hf s Hs), (H a s Hs).
  - intros t cb due Ht. apply owns_alter; [|exact (T t cb due Ht)].
    intros s Hs. destruct (Hf s Hs) as (_ & _ & ? & ? & _). auto.
  - intros t b h aw Ht. cbn [update with_heap heap tasks] in *.
    apply alter_lookup_exists; [|exact (K t b h aw Ht)].
    intros s Hs <-. apply (Hf s Hs).
  - exact E.
Qed.

Lemma consistent_perform (e : Effect) (w : World) :
  match e with RequestPairingCode _ p => valid_phone p | _ => True end ->
  consistent cfg w -> consistent cfg (perform e w).
Proof.
  intros He [R H T K E]. split; try assumption.
  intros h p [->|Hin]; [exact He | exact (E h p Hin)].
Qed.

Lemma consistent_respond (r : Response) (w : World) :
  consistent cfg w -> consistent cfg (respond r w).
Proof. intros [R H T K E]. split; assumption. Qed.

Lemma consistent_suspend (k : Cont) (aw : Await) (w : World) :
  match k with
  | K_settle a _ => exists s, heap w !! a = Some s /\ method s = "code"
  | _ => True
  end ->
  consistent cfg w -> consistent cfg (suspend k aw w).
Proof.
  intros Hk [R H T K E]. split; try assumption.
  intros t a h aw'. cbn [suspend with_next_task with_tasks tasks heap].
  intros [[_ [= -> ->]]|[_ Ht]]%lookup_insert_Some; [exact Hk | exact (K t a h aw' Ht)].
Qed.

Lemma consistent_delay (ms : Z) (k : Cont) (w : World) :
  match k with
  | K_settle a _ => exists s, heap w !! a = Some s /\ method s = "code"
  | _ => True
  end ->
  consistent cfg w -> consistent cfg (delay ms k w).
Proof. apply consistent_suspend. Qed.

Lemma consistent_clearTimeout (t : nat) (w : World) :
  consistent cfg w -> consistent cfg (clearTimeout t w).
Proof.
  intros [R H T K E]. split; try assumption.
  - intros t' cb due. cbn [clearTimeout perform with_effects with_timers timers].
    intros [_ Ht]%lookup_delete_Some. exact (T t' cb due Ht).
  - intros h p [[=]|Hin]. exact (E h p Hin).
Qed.

Lemma consistent_clearTimeout_if (t : option nat) (w : World) :
  consistent cfg w -> consistent cfg (clearTimeout_if t w).
Proof. destruct t; [apply consistent_clearTimeout|auto]. Qed.

Lemma consistent_with_socks (x : list SockInfo) (w : World) :
  consistent cfg w -> consistent cfg (with_socks x w).
Proof. intros [R H T K E]. split; assumption. Qed.

Lemma consistent_with_clock (x : Z) (w : World) :
  consistent cfg w -> consistent cfg (with_clock x w).
Proof. intros [R H T K E]. split; assumption. Qed.

Lemma consistent_sock_end (h : nat) (w : World) :
  consistent cfg w -> consistent cfg (sock_end h w).
Proof.
  intros Hw. apply consistent_perform; [exact I|]. apply consistent_with_socks, Hw.
Qed.

Lemma consistent_drop_task (t : nat) (w : World) :
  consistent cfg w -> consistent cfg (with_tasks (delete t (tasks w)) w).
Proof.
  intros [R H T K E]. split; try assumption.
  intros t' a h aw. cbn [with_tasks tasks heap].
  intros [_ Ht]%lookup_delete_Some. exact (K t' a h aw Ht).
Qed.

Lemma consistent_drop_timer (t : nat) (w : World) :
  consistent cfg w -> consistent cfg (with_timers (delete t (timers w)) w).
Proof.
  intros [R H T K E]. split; try assumption.
  intros t' cb due. cbn [with_timers timers].
  intros [_ Ht]%lookup_delete_Some. exact (T t' cb due Ht).
Qed.

Lemma sound_set_emitted (e : Emitted) (t : Z) (s : Session) :
  announced_ok cfg e -> sound cfg s ->
  sound cfg (set_emitted (e :: emitted s) s) /\
  sound cfg (set_emitted (e :: emitted s) (set_lastEventAt t s)).
Proof. intros He [? ? ? ?]. split; split; cbn; auto. Qed.

Lemma consistent_emit (a : nat) (e : Emitted) (w : World) :
  announced_ok cfg e -> consistent cfg w -> consistent cfg (emit a e w).
Proof.
  intros He. apply consistent_update. intros s _.
  do 4 (split; [reflexivity|]).
  intros Hs. apply (sound_set_emitted e (clock w) s He Hs).
Qed.

Lemma consistent_emitter_emit (a : nat) (m : string) (w : World) :
  consistent cfg w -> consistent cfg (emitter_emit a (ESessionError m) w).
Proof.
  apply consistent_update. intros s _.
  do 4 (split; [reflexivity|]).
  intros Hs. apply (sound_set_emitted (ESessionError m) 0 s I Hs).
Qed.

Lemma keeps_plain (f : Session -> Session) (s : Session) :
  id (f s) = id s -> method (f s) = method s -> phone (f s) = phone s ->
  dir (f s) = dir s -> emitted (f s) = emitted s ->
  timers_ttl (f s) = timers_ttl s -> timers_idle (f s) = timers_idle s ->
  retries (f s) = 0%nat \/ Z.of_nat (retries (f s)) - 1 < MAX_RETRIES cfg ->
  keeps cfg f s.
Proof.
  intros Ei Em Ep Ed Ee Et1 Et2 Hr.
  do 4 (split; [assumption|]). intros H. split.
  - rewrite Ed, Ei. apply H.
  - exact Hr.
  - rewrite Ee. apply H.
  - rewrite Em, Ep. apply H.
Qed.

Lemma keeps_unless_retries (f : Session -> Session) (s : Session) :
  id (f s) = id s -> method (f s) = method s -> phone (f s) = phone s ->
  dir (f s) = dir s -> emitted (f s) = emitted s ->
  timers_ttl (f s) = timers_ttl s -> timers_idle (f s) = timers_idle s ->
  retries (f s) = retries s ->
  keeps cfg f s.
Proof.
  intros Ei Em Ep Ed Ee Et1 Et2 Er.
  do 4 (split; [assumption|]). intros H. split.
  - rewrite Ed, Ei. apply H.
  - rewrite Er. apply H.
  - rewrite Ee. apply H.
  - rewrite Em, Ep. apply H.
Qed.

Lemma consistent_arm (cb : TimerCb) (ms : Z) (s : Session) (w : World) :
  consistent cfg w ->
  heap w !! timer_owner cb = Some s ->
  (forall t due, timers w !! t = Some (cb, due) -> False) ->
  consistent cfg
    (update (timer_owner cb) (set_timer_field cb (Some (next_timer w)))
       (setTimeout cb ms w).2).
Proof.
  intros [R H T K E] Hs Hnone.
  assert (Hkeep : forall x, id (set_timer_field cb (Some (next_timer w)) x) = id x /\
                            method (set_timer_field cb (Some (next_timer w)) x) = method x /\
                            (sound cfg x -> sound cfg (set_timer_field cb (Some (next_timer w)) x))).
  { intros x. destruct cb; (split; [reflexivity|]); (split; [reflexivity|]);
      intros [? ? ? ?]; split; assumption. }
  split; cbn [setTimeout snd update perform with_heap with_effects with_next_timer
              with_timers heap sessions timers tasks effects].
  - intros k b Hk. apply alter_lookup_exists; [|exact (R k b Hk)].
    intros x _ <-. apply Hkeep.
  - intros b x Hb. apply alter_lookup_inv in Hb as (y & Hy & [[-> ->]|[_ ->]]).
    + apply Hkeep, (H _ _ Hy).
    + exact (H _ _ Hy).
  - intros t cb' due [[<- [= <- <-]]|[N Ht]]%lookup_insert_Some.
    + exists (set_timer_field cb (Some (next_timer w)) s).
      simpl_world. rewrite list_lookup_alter_eq, Hs. split; [reflexivity|].
      destruct cb; reflexivity.
    + destruct (T t cb' due Ht) as (x & Hx & Ex). unfold owns. simpl_world.
      destruct (decide (timer_owner cb' = timer_owner cb)) as [Eo|No].
      * rewrite Eo in *. rewrite list_lookup_alter_eq, Hs. eexists. split; [reflexivity|].
        assert (x = s) by congruence. subst x.
        destruct cb as [a|a], cb' as [b|b]; cbn [timer_owner timer_field set_timer_field] in *;
          try exact Ex; subst b; exfalso; exact (Hnone t due Ht).
      * rewrite list_lookup_alter_ne by congruence. eauto.
  - intros t b h aw Ht. apply alter_lookup_exists; [|exact (K t b h aw Ht)].
    intros x _ <-. apply Hkeep.
  - intros h p [[=]|Hin]. exact (E h p Hin).
Qed.

Lemma consistent_touchIdle (a : nat) (w : World) :
  consistent cfg w -> consistent cfg (touchIdle cfg a w).
Proof.
  intros Hw. unfold touchIdle. destruct (heap w !! a) as [s|] eqn:Hs; [|exact Hw].
  pose proof (consistent_clearTimeout_if (timers_idle s) w Hw) as H1.
  assert (Hheap : heap (clearTimeout_if (timers_idle s) w) = heap w)
    by (destruct (timers_idle s); reflexivity).
  apply (consistent_arm (IdleExpired a) (SESSION_IDLE_TTL_MS cfg) s _ H1).
  - cbn [timer_owner]. rewrite Hheap. exact Hs.
  - intros t due Ht.
    assert (Ht' : timers w !! t = Some (IdleExpired a, due) /\ timers_idle s <> Some t).
    { destruct (timers_idle s) as [t0|]; cbn in Ht.
      - apply lookup_delete_Some in Ht as [N Ht]. split; [exact Ht | congruence].
      - split; [exact Ht | discriminate]. }
    destruct Ht' as [Ht' N].
    destruct (timers_owned _ _ Hw t _ _ Ht') as (s' & Hs' & E).
    cbn [timer_owner timer_field] in *. congruence.
Qed.

Ltac pieces :=
  repeat first
    [ assumption
    | apply consistent_respond
    | apply consistent_sock_end
    | apply consistent_with_socks
    | apply consistent_perform; [exact I|]
    | apply consistent_suspend; [exact I|]
    | apply consistent_delay; [exact I|]
    | apply consistent_emit; [exact I|]
    | apply consistent_emitter_emit
    | apply consistent_clearTimeout_if
    | apply consistent_touchIdle
    | apply consistent_update; [intros ? _; apply keeps_unless_retries; reflexivity|] ].

Lemma consistent_cleanupSession (a : nat) (w : World) :
  consistent cfg w -> consistent cfg (cleanupSession a w).
Proof.
  intros Hw. unfold cleanupSession. destruct (heap w !! a) as [s|]; [|exact Hw].
  cbv zeta. destruct (sock s); pieces.
Qed.

Lemma consistent_cleanup_remove (a : nat) (w : World) :
  consistent cfg w -> consistent cfg (cleanup_remove a w).
Proof.
  intros Hw. unfold cleanup_remove. destruct (heap w !! a) as [s|]; pieces.
Qed.

Lemma In_map_delete (k k' : string) (a : nat) (m : list (string * nat)) :
  In (k, a) (map_delete k' m) -> In (k, a) m /\ k <> k'.
Proof.
  induction m as [|[k0 a0] m IH]; [intros []|]. cbn [map_delete].
  destruct (String.eqb k' k0) eqn:E.
  - intros H. destruct (IH H). split; [right; assumption | assumption].
  - apply String.eqb_neq in E. intros [[= <- <-]|H].
    + split; [left; reflexivity | congruence].
    + destruct (IH H). split; [right; assumption | assumption].
Qed.

Lemma map_get_In (k : string) (a : nat) (m : list (string * nat)) :
  map_get k m = Some a -> In (k, a) m.
Proof.
  induction m as [|[k0 a0] m IH]; [discriminate|]. cbn [map_get].
  destruct (String.eqb k k0) eqn:E.
  - apply String.eqb_eq in E. intros [= <-]. left. congruence.
  - intros H. right. exact (IH H).
Qed.

Lemma In_map_get (k : string) (a : nat) (m : list (string * nat)) :
  In (k, a) m -> exists a', map_get k m = Some a'.
Proof.
  induction m as [|[k0 a0] m IH]; [intros []|].
  intros [[= -> ->]|Hin]; cbn [map_get].
  - rewrite String.eqb_refl. eauto.
  - destruct (String.eqb k k0); [eauto | exact (IH Hin)].
Qed.

Lemma consistent_cleanup_delete (a : nat) (w : World) :
  consistent cfg w -> consistent cfg (cleanup_delete a w).
Proof.
  intros Hw. unfold cleanup_delete. destruct (heap w !! a) as [s|]; [|exact Hw].
  destruct Hw as [R H T K E]. split; try assumption.
  intros k b Hk. simpl_world. apply In_map_delete in Hk as [Hk _]. exact (R k b Hk).
Qed.

Lemma consistent_retry_wait (a : nat) (who : Caller) (w : World) :
  consistent cfg w -> consistent cfg (retry_wait cfg a who w).
Proof.
  intros Hw. unfold retry_wait. destruct (heap w !! a); pieces.
Qed.

Lemma consistent_end_returns (a : nat) (who : Caller) (w : World) :
  consistent cfg w -> consistent cfg (end_returns a who w).
Proof. intros Hw. unfold end_returns. pieces. Qed.

Lemma consistent_endSocketOnly (a : nat) (who : Caller) (w : World) :
  consistent cfg w -> consistent cfg (endSocketOnly a who w).
Proof.
  intros Hw. unfold endSocketOnly. destruct (heap w !! a) as [s|]; [|exact Hw].
  destruct (sock s); [pieces | apply consistent_end_returns, Hw].
Qed.

Lemma consistent_retry (a : nat) (who : Caller) (s : Session) (w : World) :
  heap w !! a = Some s -> Z.of_nat (retries s) < MAX_RETRIES cfg ->
  consistent cfg w -> consistent cfg (retry cfg a who w).
Proof.
  intros Hs Hlt Hw. unfold retry. rewrite Hs. cbv zeta.
  apply consistent_endSocketOnly, consistent_emit.
  - cbn. lia.
  - apply consistent_update; [|exact Hw]. intros x Hx.
    apply keeps_plain; try reflexivity. cbn [retries set_retries]. lia.
Qed.

Lemma consistent_startPairing (a : nat) (who : Caller) (w : World) :
  consistent cfg w -> consistent cfg (startPairing a who w).
Proof.
  intros Hw. unfold startPairing. destruct (heap w !! a); pieces.
Qed.

Lemma consistent_rejected (a : nat) (who : Caller) (w : World) :
  consistent cfg w -> consistent cfg (rejected a who w).
Proof.
  intros Hw. destruct who; cbn [rejected]; apply consistent_cleanupSession; pieces.
Qed.

Lemma consistent_open_socket (a : nat) (w : World) :
  consistent cfg w -> consistent cfg (open_socket a w).
Proof.
  intros Hw. unfold open_socket, makeWASocket. cbv zeta beta iota.
  match goal with |- context [heap ?x !! a] => set (w2 := x) end.
  assert (H2 : consistent cfg w2).
  { unfold w2. pieces. }
  destruct (heap w2 !! a) as [s|] eqn:Hs; [|exact H2].
  destruct (String.eqb (method s) "code") eqn:Em; [|pieces].
  apply String.eqb_eq in Em. apply consistent_delay; [|pieces].
  unfold emit. simpl_world.
  rewrite list_lookup_alter_eq, Hs. eexists. split; [reflexivity|exact Em].
Qed.

Lemma retryGate_bound (n : nat) (reason : option Z) :
  retryGate (DR L) cfg n reason = true -> Z.of_nat n < MAX_RETRIES cfg.
Proof. unfold retryGate. intros [_ H]%andb_prop. lia. Qed.

Lemma consistent_on_close (a : nat) (u : Update) (w : World) :
  consistent cfg w -> consistent cfg (on_close L cfg a u w).
Proof.
  intros Hw. unfold on_close. cbv zeta.
  destruct (bool_decide _); [apply consistent_cleanupSession; pieces|].
  destruct (heap w !! a) as [s|] eqn:Hs; [|exact Hw].
  destruct (retryGate _ _ _ _) eqn:G.
  - apply (consistent_retry a RetryClose s w Hs (retryGate_bound _ _ G) Hw).
  - apply consistent_cleanupSession; pieces.
Qed.

Lemma consistent_after_qr (a h : nat) (u : Update) (w : World) :
  consistent cfg w -> consistent cfg (after_qr L cfg a h u w).
Proof.
  intros Hw. unfold after_qr. destruct (bool_decide _).
  - pieces. apply consistent_update; [|exact Hw]. intros x _.
    apply keeps_plain; try reflexivity. cbn [retries set_retries]. lia.
  - destruct (bool_decide _); [apply consistent_on_close, Hw | exact Hw].
Qed.

Lemma consistent_on_update (h : nat) (u : Update) (w : World) :
  consistent cfg w -> consistent cfg (on_update L cfg h u w).
Proof.
  intros Hw. unfold on_update. destruct (socks w !! h) as [k|]; [|exact Hw].
  cbv zeta. destruct (heap w !! owner k) as [s|]; [|exact Hw].
  destruct (negb (is_current s h)); [exact Hw|].
  match goal with |- context [suspend _ _ ?x] => set (w1 := x) end.
  assert (H1 : consistent cfg w1).
  { unfold w1. destruct (connection u) as [c|]; [|exact Hw].
    destruct (String.eqb c ""); pieces. }
  destruct (_ && _); [pieces | apply consistent_after_qr, H1].
Qed.

Lemma consistent_export_failed (a : nat) (m : string) (w : World) :
  consistent cfg w -> consistent cfg (export_failed a m w).
Proof. intros Hw. unfold export_failed. pieces. Qed.

Lemma consistent_send_tokens (a h : nat) (jid : string) (tokens : list string)
    (w : World) :
  consistent cfg w -> consistent cfg (send_tokens L cfg a h jid tokens w).
Proof. intros Hw. destruct tokens; cbn [send_tokens]; unfold send_confirmation; pieces. Qed.

Lemma consistent_code_failed (a : nat) (e : JsError) (w : World) :
  consistent cfg w -> consistent cfg (code_failed L cfg a e w).
Proof.
  intros Hw. unfold code_failed. destruct (heap w !! a) as [s|] eqn:Hs; [|exact Hw].
  cbv zeta. destruct (retryGate _ _ _ _) eqn:G.
  - apply (consistent_retry a RetryCode s w Hs (retryGate_bound _ _ G) Hw).
  - destruct (bool_decide _); pieces.
Qed.

Lemma consistent_resume (t : nat) (k : Cont) (aw : Await) (r : Res) (w w' : World) :
  consistent cfg w -> tasks w !! t = Some (k, aw) ->
  resume L cfg k r (with_tasks (delete t (tasks w)) w) = Some w' ->
  consistent cfg w'.
Proof.
  intros Hw Ht. pose proof (consistent_drop_task t w Hw) as Hd.
  set (v := with_tasks (delete t (tasks w)) w) in *.
  destruct k as [a who|a who|a who|a h|a h|a who|a who|a who|a h u|a h|a h
                |a h jid rest|a h jid rest|a|a|a|a],
           r as [|e|ex|b iv|raw|url];
    cbn [resume]; intros H0; try discriminate H0;
    try solve [ injection H0 as <-; first [ pieces; fail
              | apply consistent_rejected, Hd
              | apply consistent_open_socket, Hd
              | apply consistent_code_failed, Hd
              | apply consistent_retry_wait, Hd
              | apply consistent_end_returns, Hd
              | apply consistent_after_qr; pieces
              | apply consistent_cleanupSession; pieces
              | apply consistent_export_failed, Hd
              | apply consistent_send_tokens, Hd
              | apply consistent_cleanup_remove, Hd
              | apply consistent_cleanup_delete, Hd ] ].
  all: revert H0.
  - (* K_settle *)
    destruct (tasks_sound _ _ Hw t _ _ _ Ht) as (s0 & Hs0 & Em).
    change (heap v) with (heap w). rewrite Hs0. cbn [mbind option_bind].
    destruct (negb (is_current s0 h)); intros [= <-]; [exact Hd|].
    apply consistent_suspend; [exact I|]. apply consistent_perform; [|exact Hd].
    apply (sound_phone _ _ (heap_sound _ _ Hw _ _ Hs0) Em).
  - (* K_backoff *)
    destruct (heap v !! a) as [s0|]; cbn [mbind option_bind]; [|discriminate].
    destruct (negb _); intros [= <-]; [exact Hd | apply consistent_startPairing, Hd].
  - (* K_openSettle *)
    destruct ex; intros [= <-]; [pieces | apply consistent_cleanupSession; pieces].
  - (* K_readFile *)
    destruct (safeSelfJid _); intros [= <-];
      [apply consistent_send_tokens, Hd | apply consistent_export_failed, Hd].
Qed.

Lemma consistent_fire (cb : TimerCb) (w : World) :
  consistent cfg w -> consistent cfg (fire cb w).
Proof. intros Hw. destruct cb; cbn [fire]; apply consistent_cleanupSession; pieces. Qed.

Lemma consistent_sweepExpired (w : World) :
  consistent cfg w -> consistent cfg (sweepExpired cfg w).
Proof.
  unfold sweepExpired. cbv zeta. generalize (clock w) as now.
  generalize (sessions w) as l. intros l. revert w.
  induction l as [|[k a] l IH]; intros w now Hw; [exact Hw|].
  cbn [fold_left]. apply IH.
  destruct (heap w !! a) as [s|]; [|exact Hw].
  destruct (_ <? _); [apply consistent_cleanupSession; pieces | exact Hw].
Qed.

Lemma In_map_set (k k' : string) (a b : nat) (m : list (string * nat)) :
  In (k, a) (map_set k' b m) -> (k = k' /\ a = b) \/ In (k, a) m.
Proof.
  induction m as [|[k0 a0] m IH]; cbn [map_set].
  - intros [[= <- <-]|[]]. auto.
  - destruct (String.eqb k' k0).
    + intros [[= <- <-]|H]; [auto | right; right; exact H].
    + intros [[= <- <-]|H]; [right; left; reflexivity|].
      destruct (IH H) as [?|?]; [auto | right; right; assumption].
Qed.

Lemma map_get_set_eq (k : string) (a : nat) (m : list (string * nat)) :
  map_get k (map_set k a m) = Some a.
Proof.
  induction m as [|[k0 a0] m IH]; cbn [map_set map_get].
  - rewrite String.eqb_refl. reflexivity.
  - destruct (String.eqb k k0) eqn:E; cbn [map_get]; rewrite ?String.eqb_refl, ?E; auto.
Qed.

Lemma validatePhone_valid (p : option string) (c : string) :
  validatePhone p = inr c -> valid_phone (Some c).
Proof.
  intros H. exists c. split; [reflexivity|].
  destruct (validatePhone_inv p c H) as [-> Hl]. split; [apply digits_only_strip | exact Hl].
Qed.

(** The session object of a creation request, registered and with its
    TTL timer armed. *)
Lemma consistent_register (s : Session) (w : World) :
  consistent cfg w -> sound cfg s ->
  consistent cfg
    (update (length (heap w)) (set_timers_ttl (Some (next_timer w)))
       (setTimeout (TtlExpired (length (heap w))) (SESSION_TTL_MS cfg)
          (with_sessions (map_set (id s) (length (heap w)) (sessions w))
             (with_heap (heap w ++ [s]) w))).2).
Proof.
  intros Hw Hs.
  set (w1 := with_sessions _ _).
  assert (Hlast : heap w1 !! length (heap w) = Some s).
  { unfold w1. simpl_world. apply list_lookup_middle. reflexivity. }
  assert (Hold : forall b x, heap w !! b = Some x -> heap w1 !! b = Some x).
  { intros b x Hb. unfold w1. simpl_world. apply lookup_app_l_Some, Hb. }
  assert (H1 : consistent cfg w1).
  { destruct Hw as [R H T K E]. split.
    - intros k b [[-> ->]|Hk]%In_map_set; [eauto|].
      destruct (R k b Hk) as (x & Hx & Ex). eauto.
    - intros b x Hb. unfold w1 in Hb. simpl_world.
      apply lookup_app_Some in Hb as [Hb|[_ Hb]]; [exact (H b x Hb)|].
      destruct (b - length (heap w))%nat; [|discriminate].
      injection Hb as <-. exact Hs.
    - intros t cb due Ht. destruct (T t cb due Ht) as (x & Hx & Ex).
      exists x. split; [apply Hold, Hx | exact Ex].
    - intros t b h aw Ht. destruct (K t b h aw Ht) as (x & Hx & Ex). eauto.
    - exact E. }
  apply (consistent_arm (TtlExpired (length (heap w))) (SESSION_TTL_MS cfg) s w1 H1 Hlast).
  intros t due Ht. destruct (timers_owned _ _ Hw t _ _ Ht) as (x & Hx & _).
  cbn [timer_owner] in Hx. apply lookup_lt_Some in Hx. lia.
Qed.

Lemma consistent_post_pair (m p : option string) (hex key : string) (w : World) :
  consistent cfg w -> consistent cfg (post_pair cfg m p hex key w).
Proof.
  intros Hw. unfold post_pair. cbv zeta.
  destruct (negb _); [pieces|].
  match goal with |- context [match ?c with inl _ => _ | inr _ => _ end] =>
    destruct c as [err|ph] eqn:Hc end; [pieces|].
  unfold setTimeout. cbv beta iota zeta.
  apply consistent_respond, consistent_startPairing.
  match goal with |- context [(heap w ++ [?x])%list] => set (s := x) end.
  assert (Hs : sound cfg s).
  { split; cbn; [reflexivity | lia | constructor |].
    intros Em. rewrite Em in Hc. cbn in Hc.
    destruct (validatePhone p) as [e|c] eqn:Hv; [discriminate|].
    injection Hc as <-. exact (validatePhone_valid p c Hv). }
  exact (consistent_register s w Hw Hs).
Qed.

Lemma consistent_step (l : Label) (w w' : World) :
  consistent cfg w -> step L cfg l w = Some w' -> consistent cfg w'.
Proof.
  intros Hw. destruct l; cbn [step].
  - destruct (0 <=? dt); intros [= <-]. apply consistent_with_clock, Hw.
  - intros [= <-]. unfold route_pair.
    destruct (requireApiKey _ _); [apply consistent_post_pair, Hw | pieces].
  - intros [= <-]. unfold get_events. destruct (_ ≫= _); [destruct (_ && _)|]; pieces.
  - destruct (socks w !! h); cbn [mbind option_bind]; intros [= <-]. pieces.
  - destruct (socks w !! h); cbn [mbind option_bind]; intros [= <-].
    apply consistent_on_update. destruct (bool_decide _); pieces.
  - destruct (tasks w !! t) as [[k aw]|] eqn:Ht; cbn [mbind option_bind]; [|discriminate].
    destruct (may_resume _ _ _); [|discriminate].
    apply (consistent_resume t k aw r w w' Hw Ht).
  - destruct (timers w !! t) as [[cb due]|]; cbn [mbind option_bind]; [|discriminate].
    destruct (_ <=? _); intros [= <-].
    apply consistent_fire, consistent_drop_timer, Hw.
  - intros [= <-]. apply consistent_sweepExpired, Hw.
Qed.

Lemma consistent_init : consistent cfg init.
Proof. split; intros *; cbn; try discriminate; try rewrite lookup_empty; try discriminate; tauto. Qed.

Lemma consistent_run (ls : list Label) (w w' : World) :
  consistent cfg w -> run L cfg ls w = Some w' -> consistent cfg w'.
Proof.
  revert w. induction ls as [|l ls IH]; intros w Hw; cbn [run].
  - intros [= <-]. exact Hw.
  - destruct (step L cfg l w) as [w1|] eqn:E; cbn [mbind option_bind]; [|discriminate].
    apply IH, (consistent_step l w w1 Hw E).
Qed.

End Consistency.

(** X12: in every state the server reaches, an id in the registry
    leads to a session object with that id, whose working directory is
    [temp/<id>]. *)
Theorem registry_entries_are_sessions (L : Lib) (cfg : Config)
    (ls : list Label) (w : World) (k : string) (a : nat) :
  run L cfg ls init = Some w ->
  map_get k (sessions w) = Some a ->
  exists s, heap w !! a = Some s /\ id s = k /\ dir s = sessionDir k.
Proof.
  intros Hrun Hk.
  pose proof (consistent_run L cfg ls init w (consistent_init cfg) Hrun) as Hw.
  destruct (registry_sound _ _ Hw k a (map_get_In _ _ _ Hk)) as (s & Hs & <-).
  exists s. split; [exact Hs|]. split; [reflexivity|].
  apply (sound_dir _ _ (heap_sound _ _ Hw a s Hs)).
Qed.

Lemma registry_entries_are_sessions_witness :
  exists w s,
    run example_lib default_config waiting_qr init = Some w /\
    heap w !! 0%nat = Some s /\ dir s = "temp/sess_0_ab12".
Proof.
  destruct (run example_lib default_config waiting_qr init) as [w|] eqn:E;
    [|vm_compute in E; discriminate E].
  assert (Hk : map_get "sess_0_ab12" (sessions w) = Some 0%nat)
    by (vm_compute in E; injection E as <-; reflexivity).
  destruct (registry_entries_are_sessions example_lib default_config waiting_qr w
              "sess_0_ab12" 0 E Hk) as (s & Hs & _ & Hd).
  exists w, s. split; [reflexivity|]. split; [exact Hs | exact Hd].
Defined.

(** X13: in every state the server reaches, the retry counter of a
    session is zero or a count whose predecessor passed the gate
    [retries < MAX_RETRIES] (so it exceeds [MAX_RETRIES] by less than
    one, and is at most [MAX_RETRIES] when that is a whole number), and
    every retry announced to the client carries such a count, at least
    one, together with [MAX_RETRIES] itself. *)
Theorem retry_counts_passed_the_gate (L : Lib) (cfg : Config)
    (ls : list Label) (w : World) (a : nat) (s : Session) :
  run L cfg ls init = Some w ->
  heap w !! a = Some s ->
  (retries s = 0%nat \/ Z.of_nat (retries s) - 1 < MAX_RETRIES cfg) /\
  forall st n m, In (EStatus st (Some (n, m))) (emitted s) ->
    (1 <= n)%nat /\ Z.of_nat n - 1 < MAX_RETRIES cfg /\ m = MAX_RETRIES cfg.
Proof.
  intros Hrun Hs.
  pose proof (consistent_run L cfg ls init w (consistent_init cfg) Hrun) as Hw.
  destruct (heap_sound _ _ Hw a s Hs) as [_ Hr He _]. split; [exact Hr|].
  intros st n m Hin.
  exact (proj1 (List.Forall_forall _ _) He _ Hin).
Qed.

Lemma retry_counts_passed_the_gate_witness :
  exists w s,
    run example_lib default_config racing_retries init = Some w /\
    heap w !! 0%nat = Some s /\ retries s = 2%nat /\
    In (EStatus "retrying" (Some (2%nat, 8))) (emitted s) /\
    Z.of_nat 2 - 1 < MAX_RETRIES default_config.
Proof.
  destruct (run example_lib default_config racing_retries init) as [w|] eqn:E;
    [|vm_compute in E; discriminate E].
  destruct (heap w !! 0%nat) as [s|] eqn:Hs;
    [|vm_compute in E; injection E as <-; discriminate Hs].
  assert (Hr : retries s = 2%nat)
    by (vm_compute in E; injection E as <-; injection Hs as <-; reflexivity).
  assert (Hin : In (EStatus "retrying" (Some (2%nat, 8))) (emitted s)).
  { vm_compute in E. injection E as <-. injection Hs as <-. cbn. tauto. }
  exists w, s. split; [reflexivity|]. split; [exact Hs|]. split; [exact Hr|].
  split; [exact Hin|].
  exact (proj1 (proj2 (proj2 (retry_counts_passed_the_gate example_lib default_config
                                racing_retries w 0 s E Hs) _ _ _ Hin))).
Defined.

(** X14: in every state the server reaches, a pending timer belongs to
    a session object that holds the timer in its field ([timers.ttl] or
    [timers.idle]); so a session has at most one pending timer of each
    kind. *)
Theorem one_pending_timer_of_each_kind (L : Lib) (cfg : Config)
    (ls : list Label) (w : World) (t : nat) (cb : TimerCb) (due : Z) :
  run L cfg ls init = Some w ->
  timers w !! t = Some (cb, due) ->
  (exists s, heap w !! timer_owner cb = Some s /\ timer_field cb s = Some t) /\
  forall t' due', timers w !! t' = Some (cb, due') -> t' = t.
Proof.
  intros Hrun Ht.
  pose proof (consistent_run L cfg ls init w (consistent_init cfg) Hrun) as Hw.
  destruct (timers_owned _ _ Hw t cb due Ht) as (s & Hs & Hf).
  split; [exists s; auto|].
  intros t' due' Ht'.
  destruct (timers_owned _ _ Hw t' cb due' Ht') as (s' & Hs' & Hf'). congruence.
Qed.

Lemma one_pending_timer_of_each_kind_witness :
  exists w t due,
    run example_lib default_config waiting_qr init = Some w /\
    timers w !! t = Some (IdleExpired 0, due) /\
    forall t' due', timers w !! t' = Some (IdleExpired 0, due') -> t' = t.
Proof.
  destruct (run example_lib default_config waiting_qr init) as [w|] eqn:E;
    [|vm_compute in E; discriminate E].
  assert (Ht : timers w !! 3%nat = Some (IdleExpired 0, 320000))
    by (vm_compute in E; injection E as <-; reflexivity).
  exists w, 3%nat, 320000. split; [reflexivity|]. split; [exact Ht|].
  exact (proj2 (one_pending_timer_of_each_kind example_lib default_config waiting_qr
                  w 3 (IdleExpired 0) 320000 E Ht)).
Defined.

(** X15: in every run of the server, a pairing code is requested only
    for a phone number that [validatePhone] produced: ten to fifteen
    digits and nothing else. *)
Theorem pairing_code_requested_for_validated_phone (L : Lib) (cfg : Config)
    (ls : list Label) (w : World) (h : nat) (p : option string) :
  run L cfg ls init = Some w ->
  In (RequestPairingCode h p) (effects w) ->
  exists c, p = Some c /\ digits_only c = true /\ (10 <= String.length c <= 15)%nat.
Proof.
  intros Hrun Hin.
  pose proof (consistent_run L cfg ls init w (consistent_init cfg) Hrun) as Hw.
  exact (effects_sound _ _ Hw h p Hin).
Qed.

Lemma pairing_code_requested_for_validated_phone_witness :
  exists w,
    run example_lib default_config racing_retries init = Some w /\
    In (RequestPairingCode 0 (Some "15551234567")) (effects w) /\
    exists c, Some "15551234567" = Some c /\ digits_only c = true.
Proof.
  destruct (run example_lib default_config racing_retries init) as [w|] eqn:E;
    [|vm_compute in E; discriminate E].
  assert (Hin : In (RequestPairingCode 0 (Some "15551234567")) (effects w)).
  { vm_compute in E. injection E as <-. cbn. tauto. }
  exists w. split; [reflexivity|]. split; [exact Hin|].
  destruct (pairing_code_requested_for_validated_phone example_lib default_config
              racing_retries w 0 _ E Hin) as (c & Hc & Hd & _).
  exists c. split; assumption.
Defined.

(** X16: in every state the server reaches, the event stream of an id
    is refused with 404 exactly when the id is not in the registry; for
    a registered id the session object is found, and the answer is 200
    when no API key is configured or the trimmed [key] is the session's
    stream key, and 401 otherwise. *)
Theorem events_found_iff_registered (L : Lib) (cfg : Config)
    (ls : list Label) (w : World) (i : string) (key : option string) :
  run L cfg ls init = Some w ->
  match map_get i (sessions w) with
  | None => get_events cfg i key w = respond (json_error 404 "Session not found") w
  | Some a =>
      exists s, heap w !! a = Some s /\ id s = i /\
        get_events cfg i key w =
        respond
          (if String.eqb (PAIR_API_KEY cfg) ""
              || (negb (String.eqb (Js.trim (Js.or_default key "")) "")
                  && String.eqb (Js.trim (Js.or_default key "")) (streamKey s))
           then {| status := 200; res_ok := true; res_id := None;
                   res_streamKey := None; res_error := None |}
           else json_error 401 "Unauthorized") w
  end.
Proof.
  intros Hrun.
  pose proof (consistent_run L cfg ls init w (consistent_init cfg) Hrun) as Hw.
  unfold get_events. destruct (map_get i (sessions w)) as [a|] eqn:Hi; [|reflexivity].
  destruct (registry_sound _ _ Hw i a (map_get_In _ _ _ Hi)) as (s & Hs & Hid).
  exists s. split; [exact Hs|]. split; [exact Hid|].
  cbn [mbind option_bind]. rewrite Hs.
  destruct (String.eqb (PAIR_API_KEY cfg) ""); [reflexivity|].
  destruct (String.eqb (Js.trim (Js.or_default key "")) ""); [reflexivity|].
  destruct (String.eqb (Js.trim (Js.or_default key "")) (streamKey s)); reflexivity.
Qed.

Lemma events_found_iff_registered_witness :
  exists w,
    run example_lib default_config grace_over init = Some w /\
    get_events default_config "sess_0_ab12" None w
      = respond (json_error 404 "Session not found") w.
Proof.
  destruct (run example_lib default_config grace_over init) as [w|] eqn:E;
    [|vm_compute in E; discriminate E].
  assert (Hk : map_get "sess_0_ab12" (sessions w) = None)
    by (vm_compute in E; injection E as <-; reflexivity).
  exists w. split; [reflexivity|].
  pose proof (events_found_iff_registered example_lib default_config grace_over w
                "sess_0_ab12" None E) as H.
  rewrite Hk in H. exact H.
Defined.

(** ** Requests *)

Section Requests.

Variable cfg : Config.

Lemma requireApiKey_true (header : option string) :
  PAIR_API_KEY cfg = "" \/ Js.trim (Js.or_default header "") = PAIR_API_KEY cfg ->
  requireApiKey cfg header = true.
Proof.
  unfold requireApiKey. destruct (String.eqb (PAIR_API_KEY cfg) "") eqn:E; [reflexivity|].
  intros [H| ->]; [rewrite H in E; discriminate|].
  rewrite E, String.eqb_refl. reflexivity.
Qed.

Lemma requireApiKey_false (header : option string) :
  PAIR_API_KEY cfg <> "" -> Js.trim (Js.or_default header "") <> PAIR_API_KEY cfg ->
  requireApiKey cfg header = false.
Proof.
  intros H1 H2. unfold requireApiKey.
  apply String.eqb_neq in H1, H2. rewrite H1, H2. apply andb_false_r.
Qed.

(** The state after a creation request that passes the checks. *)
Lemma post_pair_created (m p : option string) (hex key : string) (w : World)
    (meth : string) (ph : option string) :
  Js.or_default m "code" = meth ->
  match ph with
  | Some c => meth = "code" /\ validatePhone p = inr c
  | None => meth = "qr"
  end ->
  post_pair cfg m p hex key w =
  respond {| status := 200; res_ok := true;
             res_id := Some (randomId "sess" (clock w) hex);
             res_streamKey :=
               if String.eqb (PAIR_API_KEY cfg) "" then None else Some key;
             res_error := None |}
    (suspend (K_ensureDir (length (heap w)) Initial) AwaitIO
       (perform (FsEnsureDir (sessionDir (randomId "sess" (clock w) hex)))
          (update (length (heap w)) (set_timers_ttl (Some (next_timer w)))
             (setTimeout (TtlExpired (length (heap w))) (SESSION_TTL_MS cfg)
                (with_sessions
                   (map_set (randomId "sess" (clock w) hex) (length (heap w))
                      (sessions w))
                   (with_heap
                      (heap w ++
                       [{| id := randomId "sess" (clock w) hex; streamKey := key;
                           method := meth; phone := ph; createdAt := clock w;
                           lastEventAt := clock w;
                           dir := sessionDir (randomId "sess" (clock w) hex);
                           emitted := []; sock := None; lastQr := None;
                           lastCode := None; retries := 0; timers_ttl := None;
                           timers_idle := None |}]) w))).2))).
Proof.
  intros Hm Hph. unfold post_pair. rewrite Hm. cbv zeta.
  assert (Hchk : (if String.eqb meth "code"
                  then match validatePhone p with
                       | inl err => inl err
                       | inr p0 => inr (Some p0)
                       end
                  else inr None) = (inr ph : string + option string)
                 /\ negb (String.eqb meth "code" || String.eqb meth "qr") = false).
  { destruct ph as [c|].
    - destruct Hph as [-> ->]. split; reflexivity.
    - rewrite Hph. split; reflexivity. }
  destruct Hchk as [-> ->].
  unfold setTimeout. cbv beta iota zeta. cbn [snd].
  unfold startPairing at 1.
  match goal with |- context [heap ?x !! length (heap w)] =>
    assert (Hl : heap x !! length (heap w) =
                 Some (set_timers_ttl (Some (next_timer w))
                         {| id := randomId "sess" (clock w) hex; streamKey := key;
                            method := meth; phone := ph; createdAt := clock w;
                            lastEventAt := clock w;
                            dir := sessionDir (randomId "sess" (clock w) hex);
                            emitted := []; sock := None; lastQr := None;
                            lastCode := None; retries := 0; timers_ttl := None;
                            timers_idle := None |}))
  end.
  { simpl_world. rewrite list_lookup_alter_eq, list_lookup_middle by reflexivity.
    reflexivity. }
  rewrite Hl. reflexivity.
Qed.

End Requests.

(** X17: a creation request that fails a check gets the answer of
    that check and nothing else happens.  With an API key configured
    and another (or no) key in the header the answer is 401
    [Unauthorized], whatever the body.  With the key check passed, a
    method other than [code] and [qr] gets 400 with the message about
    the method, and the method [code] with a phone number that
    [validatePhone] refuses gets 400 with the message of
    [validatePhone].  In each case the state is the one before with
    this answer added: no session is registered, no timer armed, no task
    started and no call made. *)
Theorem rejected_request_creates_nothing (cfg : Config)
    (header m p : option string) (hex key : string) (w : World) :
  (PAIR_API_KEY cfg <> "" ->
   Js.trim (Js.or_default header "") <> PAIR_API_KEY cfg ->
   route_pair cfg header m p hex key w
   = respond (json_error 401 "Unauthorized") w) /\
  (PAIR_API_KEY cfg = "" \/ Js.trim (Js.or_default header "") = PAIR_API_KEY cfg ->
   (Js.or_default m "code" <> "code" -> Js.or_default m "code" <> "qr" ->
    route_pair cfg header m p hex key w
    = respond (json_error 400 invalid_method) w) /\
   (Js.or_default m "code" = "code" ->
    forall err, validatePhone p = inl err ->
    err = "Phone number must be 10-15 digits" /\
    route_pair cfg header m p hex key w = respond (json_error 400 err) w)) /\
  (forall r,
     sessions (respond r w) = sessions w /\ heap (respond r w) = heap w /\
     timers (respond r w) = timers w /\ tasks (respond r w) = tasks w /\
     effects (respond r w) = effects w /\ socks (respond r w) = socks w /\
     responses (respond r w) = r :: responses w).
Proof.
  split; [|split].
  - intros H1 H2. unfold route_pair.
    rewrite (requireApiKey_false cfg header H1 H2). reflexivity.
  - intros Hk. unfold route_pair. rewrite (requireApiKey_true cfg header Hk).
    unfold post_pair. cbv zeta. split.
    + intros H1 H2. apply String.eqb_neq in H1, H2. rewrite H1, H2. reflexivity.
    + intros H1 err Hv. rewrite H1. cbn [String.eqb Ascii.eqb Bool.eqb orb negb].
      rewrite Hv. split; [|reflexivity].
      unfold validatePhone in Hv.
      destruct (_ || _) in Hv; [injection Hv as <-; reflexivity | discriminate Hv].
  - intros r. repeat split.
Qed.

Lemma rejected_request_creates_nothing_witness :
  route_pair default_config None (Some "code") (Some "12345") "ab12" "k1" init
  = respond (json_error 400 "Phone number must be 10-15 digits") init /\
  route_pair default_config None (Some "sms") None "ab12" "k1" init
  = respond (json_error 400 invalid_method) init /\
  route_pair keyed_config (Some "wrong") (Some "qr") None "ab12" "k1" init
  = respond (json_error 401 "Unauthorized") init.
Proof.
  destruct (rejected_request_creates_nothing default_config None (Some "code")
              (Some "12345") "ab12" "k1" init) as (_ & H & _).
  destruct (H (or_introl eq_refl)) as (_ & Hphone).
  destruct (Hphone eq_refl _ eq_refl) as (_ & E1).
  destruct (rejected_request_creates_nothing default_config None (Some "sms")
              None "ab12" "k1" init) as (_ & H' & _).
  destruct (H' (or_introl eq_refl)) as (Hmeth & _).
  assert (N1 : Js.or_default (Some "sms") "code" <> "code") by discriminate.
  assert (N2 : Js.or_default (Some "sms") "code" <> "qr") by discriminate.
  destruct (rejected_request_creates_nothing keyed_config (Some "wrong")
              (Some "qr") None "ab12" "k1" init) as (Hkey & _).
  assert (K1 : PAIR_API_KEY keyed_config <> "") by discriminate.
  assert (K2 : Js.trim (Js.or_default (Some "wrong") "")
               <> PAIR_API_KEY keyed_config) by discriminate.
  split; [exact E1|]. split; [exact (Hmeth N1 N2) | exact (Hkey K1 K2)].
Defined.

(** X18: a creation request that passes the checks registers a new
    session object under a fresh id, arms its TTL timer for
    [SESSION_TTL_MS] from now and keeps the timer in the session, starts
    pairing (the first call is [fs.ensureDir] on the working directory),
    and answers 200 with the id; the stream key is in the answer only
    when an API key is configured. *)
Theorem creation_registers_session (cfg : Config)
    (header m p : option string) (hex key : string) (w : World)
    (meth : string) (ph : option string) :
  PAIR_API_KEY cfg = "" \/ Js.trim (Js.or_default header "") = PAIR_API_KEY cfg ->
  Js.or_default m "code" = meth ->
  match ph with
  | Some c => meth = "code" /\ validatePhone p = inr c
  | None => meth = "qr"
  end ->
  let i := randomId "sess" (clock w) hex in
  let a := length (heap w) in
  let w' := route_pair cfg header m p hex key w in
  map_get i (sessions w') = Some a /\
  heap w' !! a =
    Some {| id := i; streamKey := key; method := meth; phone := ph;
            createdAt := clock w; lastEventAt := clock w; dir := sessionDir i;
            emitted := []; sock := None; lastQr := None; lastCode := None;
            retries := 0; timers_ttl := Some (next_timer w); timers_idle := None |} /\
  timers w' !! next_timer w = Some (TtlExpired a, clock w + SESSION_TTL_MS cfg) /\
  tasks w' !! next_task w = Some (K_ensureDir a Initial, AwaitIO) /\
  effects w' =
    FsEnsureDir (sessionDir i) :: SetTimeout (next_timer w) (SESSION_TTL_MS cfg)
      :: effects w /\
  responses w' =
    {| status := 200; res_ok := true; res_id := Some i;
       res_streamKey := if String.eqb (PAIR_API_KEY cfg) "" then None else Some key;
       res_error := None |} :: responses w.
Proof.
  intros Hk Hm Hph i a w'. unfold w', route_pair.
  rewrite (requireApiKey_true cfg header Hk).
  rewrite (post_pair_created cfg m p hex key w meth ph Hm Hph).
  fold i. fold a. simpl_world.
  split; [apply map_get_set_eq|].
  split; [rewrite list_lookup_alter_eq, list_lookup_middle by reflexivity; reflexivity|].
  split; [apply lookup_insert_eq|].
  split; [apply lookup_insert_eq|].
  split; reflexivity.
Qed.

Lemma creation_registers_session_witness :
  map_get "sess_0_ab12"
    (sessions (route_pair default_config None None (Some "+1 (555) 123-4567")
                 "ab12" "k1" init)) = Some 0%nat /\
  (phone <$> heap (route_pair default_config None None (Some "+1 (555) 123-4567")
                     "ab12" "k1" init) !! 0%nat) = Some (Some "15551234567").
Proof.
  destruct (creation_registers_session default_config None None
              (Some "+1 (555) 123-4567") "ab12" "k1" init "code" (Some "15551234567")
              (or_introl eq_refl) eq_refl (conj eq_refl eq_refl))
    as (H1 & H2 & _).
  split; [exact H1|]. exact (f_equal (fmap phone) H2).
Defined.

(** X19: the stream of a session just created is opened with the key
    the creation request returned: with an API key configured, the
    events route answers 200 when the trimmed [key] parameter is the
    stream key of the session and 401 otherwise; without an API key it
    answers 200 whatever the parameter. *)
Theorem created_session_opens_with_its_key (cfg : Config)
    (header m p : option string) (hex key : string) (w : World)
    (meth : string) (ph : option string) (k : option string) :
  PAIR_API_KEY cfg = "" \/ Js.trim (Js.or_default header "") = PAIR_API_KEY cfg ->
  Js.or_default m "code" = meth ->
  match ph with
  | Some c => meth = "code" /\ validatePhone p = inr c
  | None => meth = "qr"
  end ->
  key <> "" ->
  let w' := route_pair cfg header m p hex key w in
  get_events cfg (randomId "sess" (clock w) hex) k w' =
  respond
    (if String.eqb (PAIR_API_KEY cfg) ""
        || String.eqb (Js.trim (Js.or_default k "")) key
     then {| status := 200; res_ok := true; res_id := None;
             res_streamKey := None; res_error := None |}
     else json_error 401 "Unauthorized") w'.
Proof.
  intros Hk Hm Hph Hkey w'. unfold get_events.
  assert (Hs : map_get (randomId "sess" (clock w) hex) (sessions w')
                 ≫= (fun a => heap w' !! a)
               = Some {| id := randomId "sess" (clock w) hex; streamKey := key;
                         method := meth; phone := ph; createdAt := clock w;
                         lastEventAt := clock w;
                         dir := sessionDir (randomId "sess" (clock w) hex);
                         emitted := []; sock := None; lastQr := None;
                         lastCode := None; retries := 0;
                         timers_ttl := Some (next_timer w); timers_idle := None |}).
  { unfold w', route_pair. rewrite (requireApiKey_true cfg header Hk).
    rewrite (post_pair_created cfg m p hex key w meth ph Hm Hph). simpl_world.
    rewrite map_get_set_eq. cbn [mbind option_bind].
    rewrite list_lookup_alter_eq, list_lookup_middle by reflexivity. reflexivity. }
  rewrite Hs. cbn [streamKey].
  destruct (String.eqb (PAIR_API_KEY cfg) ""); [reflexivity|]. cbn [negb andb orb].
  destruct (String.eqb (Js.trim (Js.or_default k "")) key) eqn:E; cbn [negb orb].
  - apply String.eqb_eq in E. apply String.eqb_neq in Hkey. rewrite E, Hkey. reflexivity.
  - rewrite orb_true_r. reflexivity.
Qed.

Lemma created_session_opens_with_its_key_witness :
  let cfg := read_config
    {| env_PAIR_API_KEY := Some "letmein"; env_SESSION_TTL_MS := None;
       env_SESSION_IDLE_TTL_MS := None; env_MAX_RETRIES := None;
       env_RETRY_DELAY_MS := None; env_RETRY_DELAY_MAX_MS := None;
       env_EXPORT_ENCRYPTED := None; env_SESSION_SECRET := None |} in
  status <$> head (responses
    (get_events cfg "sess_0_ab12" (Some " k1 ")
       (route_pair cfg (Some "letmein") (Some "qr") None "ab12" "k1" init))) = Some 200%nat /\
  status <$> head (responses
    (get_events cfg "sess_0_ab12" None
       (route_pair cfg (Some "letmein") (Some "qr") None "ab12" "k1" init))) = Some 401%nat.
Proof.
  intros cfg.
  assert (Hkey : "k1" <> "") by discriminate.
  split.
  - exact (f_equal (fun x => status <$> head (responses x))
             (created_session_opens_with_its_key cfg (Some "letmein") (Some "qr") None
                "ab12" "k1" init "qr" None (Some " k1 ") (or_intror eq_refl) eq_refl
                eq_refl Hkey)).
  - exact (f_equal (fun x => status <$> head (responses x))
             (created_session_opens_with_its_key cfg (Some "letmein") (Some "qr") None
                "ab12" "k1" init "qr" None None (or_intror eq_refl) eq_refl
                eq_refl Hkey)).
Defined.

(** ** Sweep, failures and the export *)

Section Lifecycle.

Variable L : Lib.
Variable cfg : Config.

Lemma cleanupSession_sessions_same (a : nat) (w : World) :
  sessions (cleanupSession a w) = sessions w.
Proof.
  unfold cleanupSession. destruct (heap w !! a) as [s|]; [|reflexivity].
  cbv zeta. destruct (sock s), (timers_ttl s), (timers_idle s); reflexivity.
Qed.

Lemma sweep_fold_sessions (now : Z) (l : list (string * nat)) (w : World) :
  sessions
    (fold_left
       (fun w '(_, a) =>
          match heap w !! a with
          | None => w
          | Some s =>
              if SESSION_TTL_MS cfg <? now - createdAt s
              then cleanupSession a (emitter_emit a (ESessionError "Session expired.") w)
              else w
          end) l w) = sessions w.
Proof.
  revert w. induction l as [|[k a] l IH]; intros w; [reflexivity|].
  cbn [fold_left]. rewrite IH. destruct (heap w !! a) as [s|]; [|reflexivity].
  destruct (_ <? _); [|reflexivity]. rewrite cleanupSession_sessions_same. reflexivity.
Qed.

Lemma sweep_fold_young (now : Z) (l : list (string * nat)) (w : World) :
  (forall k a s, In (k, a) l -> heap w !! a = Some s ->
     now - createdAt s <= SESSION_TTL_MS cfg) ->
  fold_left
    (fun w '(_, a) =>
       match heap w !! a with
       | None => w
       | Some s =>
           if SESSION_TTL_MS cfg <? now - createdAt s
           then cleanupSession a (emitter_emit a (ESessionError "Session expired.") w)
           else w
       end) l w = w.
Proof.
  induction l as [|[k a] l IH]; intros H; [reflexivity|].
  cbn [fold_left].
  assert (E : match heap w !! a with
              | None => w
              | Some s =>
                  if SESSION_TTL_MS cfg <? now - createdAt s
                  then cleanupSession a
                         (emitter_emit a (ESessionError "Session expired.") w)
                  else w
              end = w).
  { destruct (heap w !! a) as [s|] eqn:Hs; [|reflexivity].
    assert (Hy := H k a s (or_introl eq_refl) Hs).
    destruct (Z.ltb_spec (SESSION_TTL_MS cfg) (now - createdAt s)); [lia|reflexivity]. }
  rewrite E. apply IH. intros k' a' s' Hin. apply (H k' a' s'). right. exact Hin.
Qed.

End Lifecycle.

(** X20: a sweep leaves the server as it is when no registered session
    is older than [SESSION_TTL_MS]. *)
Theorem sweep_spares_unexpired (cfg : Config) (w : World) :
  (forall k a s, In (k, a) (sessions w) -> heap w !! a = Some s ->
     clock w - createdAt s <= SESSION_TTL_MS cfg) ->
  sweepExpired cfg w = w.
Proof. intros H. unfold sweepExpired. cbv zeta. apply sweep_fold_young, H. Qed.

Lemma sweep_spares_unexpired_witness :
  sweepExpired default_config created = created.
Proof.
  apply (sweep_spares_unexpired default_config created).
  intros k a s [[= <- <-]|[]] [= <-]. vm_compute. discriminate.
Defined.

(** X21: a sweep removes no entry from the registry: an expired
    session is told so and its cleanup is called, and the entry stays
    until that cleanup reaches its last step. *)
Theorem sweep_leaves_registry (cfg : Config) (w : World) :
  sessions (sweepExpired cfg w) = sessions w.
Proof. unfold sweepExpired. cbv zeta. apply sweep_fold_sessions. Qed.

(** X22: a failed request for the pairing code that is not retried only
    tells the client: the session stays registered, its connection is
    not ended, its timers stay armed and no cleanup is started. *)
Theorem unretried_code_failure_leaves_session_open (L : Lib) (cfg : Config)
    (a : nat) (e : JsError) (s : Session) (w : World) :
  heap w !! a = Some s ->
  retryGate (DR L) cfg (retries s) (statusCodeFromError e) = false ->
  (exists msg, code_failed L cfg a e w = emit a (ESessionError msg) w) /\
  sessions (code_failed L cfg a e w) = sessions w /\
  socks (code_failed L cfg a e w) = socks w /\
  timers (code_failed L cfg a e w) = timers w /\
  tasks (code_failed L cfg a e w) = tasks w /\
  effects (code_failed L cfg a e w) = effects w.
Proof.
  intros Hs Hg.
  assert (E : exists msg, code_failed L cfg a e w = emit a (ESessionError msg) w).
  { unfold code_failed. rewrite Hs. cbv zeta. rewrite Hg.
    destruct (bool_decide _); eauto. }
  destruct E as (msg & E). rewrite E. split; [eauto|]. repeat split.
Qed.

Lemma unretried_code_failure_leaves_session_open_witness :
  exists w s,
    run example_lib default_config
      [ PostPair None (Some "code") (Some "15551234567") "ab12" "k1";
        Resume 0 Done; Resume 1 Done; Resume 2 Done; Tick 5000; Resume 3 Done ] init
    = Some w /\
    heap w !! 0%nat = Some s /\
    tasks (code_failed example_lib default_config 0 (boom 403 "forbidden") w) = tasks w /\
    sessions (code_failed example_lib default_config 0 (boom 403 "forbidden") w)
    = sessions w.
Proof.
  destruct (run example_lib default_config
              [ PostPair None (Some "code") (Some "15551234567") "ab12" "k1";
                Resume 0 Done; Resume 1 Done; Resume 2 Done; Tick 5000; Resume 3 Done ]
              init) as [w|] eqn:E; [|vm_compute in E; discriminate E].
  destruct (heap w !! 0%nat) as [s|] eqn:Hs;
    [|vm_compute in E; injection E as <-; discriminate Hs].
  assert (Hg : retryGate (DR example_lib) default_config (retries s)
                 (statusCodeFromError (boom 403 "forbidden")) = false).
  { vm_compute in E. injection E as <-. injection Hs as <-. reflexivity. }
  destruct (unretried_code_failure_leaves_session_open example_lib default_config 0
              (boom 403 "forbidden") s w Hs Hg) as (_ & H1 & _ & _ & H2 & _).
  exists w, s. split; [reflexivity|]. split; [exact Hs|]. split; [exact H2 | exact H1].
Defined.

Section ExportRun.

Variable L : Lib.
Variable cfg : Config.

Lemma step_resume (w : World) (t : nat) (k : Cont) (aw : Await) (r : Res) :
  tasks w !! t = Some (k, aw) -> may_resume aw r (clock w) = true ->
  step L cfg (Resume t r) w = resume L cfg k r (with_tasks (delete t (tasks w)) w).
Proof.
  intros Ht Hm. unfold step. rewrite Ht. cbn [mbind option_bind]. rewrite Hm. reflexivity.
Qed.

End ExportRun.

(** X23: once the credentials are read and the connection knows its
    own identity, the export sends two messages to that identity over
    the connection that opened: the one token in a code block, and, 300
    ms later, the confirmation; then the cleanup is due 2500 ms later. *)
Theorem export_sends_token_then_confirmation (L : Lib) (cfg : Config) (w : World)
    (t a h : nat) (k : SockInfo) (jid : string) (b iv : list Byte.byte) :
  tasks w !! t = Some (K_readFile a h, AwaitIO) ->
  socks w !! h = Some k ->
  safeSelfJid (user_id k) = Some jid ->
  exists token w',
    exportTokensFromCreds (crypto L) cfg iv (clock w) b = [token] /\
    run L cfg [ Resume t (Bytes b iv); Resume (next_task w) Done; Tick 300;
                Resume (S (next_task w)) Done; Resume (S (S (next_task w))) Done ] w
    = Some w' /\
    effects w' =
      SendMessage h jid (confirmation cfg (toISOString L (clock w + 300)))
        :: SendMessage h jid (token_message token) :: effects w /\
    tasks w' !! S (S (S (next_task w)))
    = Some (K_grace a, AwaitDelay (clock w + 300 + 2500)) /\
    sessions w' = sessions w.
Proof.
  intros Ht Hh Hjid.
  destruct (export_singleton (crypto L) cfg iv (clock w) b) as (token & Htok).
  exists token.
  set (w0 := with_tasks (delete t (tasks w)) w).
  set (w1 := suspend (K_sendToken a h jid []) AwaitIO
               (perform (SendMessage h jid (token_message token)) w0)).
  assert (S1 : step L cfg (Resume t (Bytes b iv)) w = Some w1).
  { rewrite (step_resume L cfg w t _ _ _ Ht eq_refl). fold w0. cbn [resume].
    change (socks w0) with (socks w). change (clock w0) with (clock w).
    rewrite Hh. cbn [mbind option_bind]. rewrite Hjid, Htok. reflexivity. }
  set (w1' := with_tasks (delete (next_task w) (tasks w1)) w1).
  set (w2 := delay 300 (K_tokenGap a h jid []) w1').
  assert (S2 : step L cfg (Resume (next_task w) Done) w1 = Some w2).
  { rewrite (step_resume L cfg w1 (next_task w) (K_sendToken a h jid []) AwaitIO Done);
      [reflexivity | apply lookup_insert_eq | reflexivity]. }
  set (w3 := with_clock (clock w2 + 300) w2).
  assert (S3 : step L cfg (Tick 300) w2 = Some w3) by reflexivity.
  set (w3' := with_tasks (delete (S (next_task w)) (tasks w3)) w3).
  set (w4 := send_confirmation L cfg a h jid w3').
  assert (S4 : step L cfg (Resume (S (next_task w)) Done) w3 = Some w4).
  { rewrite (step_resume L cfg w3 (S (next_task w)) (K_tokenGap a h jid [])
               (AwaitDelay (clock w + 300)) Done);
      [reflexivity | apply lookup_insert_eq |].
    cbn [may_resume]. change (clock w3) with (clock w + 300).
    rewrite Z.leb_refl. reflexivity. }
  set (w4' := with_tasks (delete (S (S (next_task w))) (tasks w4)) w4).
  set (w5 := delay 2500 (K_grace a)
               (emit a (EExported (if EXPORT_ENCRYPTED cfg then "encrypted" else "legacy"))
                  w4')).
  assert (S5 : step L cfg (Resume (S (S (next_task w))) Done) w4 = Some w5).
  { rewrite (step_resume L cfg w4 (S (S (next_task w))) (K_sendConfirm a) AwaitIO Done);
      [reflexivity | apply lookup_insert_eq | reflexivity]. }
  exists w5. split; [exact Htok|]. split.
  { cbn [run]. rewrite S1. cbn [mbind option_bind]. rewrite S2. cbn [mbind option_bind].
    rewrite S3. cbn [mbind option_bind]. rewrite S4. cbn [mbind option_bind].
    rewrite S5. reflexivity. }
  split; [reflexivity|]. split; [|reflexivity].
  apply lookup_insert_eq.
Qed.

Lemma export_sends_token_then_confirmation_witness :
  exists w token w',
    run example_lib default_config paired init = Some w /\
    run example_lib default_config
      [ Resume 6 (Bytes [Byte.x7b; Byte.x7d] (repeat Byte.x07 12));
        Resume (next_task w) Done; Tick 300;
        Resume (S (next_task w)) Done; Resume (S (S (next_task w))) Done ] w = Some w' /\
    effects w' =
      SendMessage 0 "15551234567@s.whatsapp.net"
        (confirmation default_config (toISOString example_lib (clock w + 300)))
        :: SendMessage 0 "15551234567@s.whatsapp.net" (token_message token) :: effects w.
Proof.
  destruct (run example_lib default_config paired init) as [w|] eqn:E;
    [|vm_compute in E; discriminate E].
  assert (Ht : tasks w !! 6%nat = Some (K_readFile 0 0, AwaitIO))
    by (vm_compute in E; injection E as <-; reflexivity).
  destruct (socks w !! 0%nat) as [k|] eqn:Hk;
    [|vm_compute in E; injection E as <-; discriminate Hk].
  assert (Hj : safeSelfJid (user_id k) = Some "15551234567@s.whatsapp.net").
  { vm_compute in E. injection E as <-. injection Hk as <-. reflexivity. }
  destruct (export_sends_token_then_confirmation example_lib default_config w 6 0 0 k
              "15551234567@s.whatsapp.net" [Byte.x7b; Byte.x7d] (repeat Byte.x07 12)
              Ht Hk Hj) as (token & w' & _ & Hrun & He & _).
  exists w, token, w'. split; [reflexivity|]. split; [exact Hrun | exact He].
Defined.

(** X24: when a call of the export fails (reading the credentials,
    sending a token, sending the confirmation), the client is told
    [Failed to export session: ...] and the cleanup is still due 2500 ms
    later; when that delay is over the cleanup of the session begins. *)
Theorem failed_export_still_cleans_up (L : Lib) (cfg : Config) (k : Cont)
    (a : nat) (e : JsError) (w : World) :
  export_step k = Some a ->
  exists w1,
    resume L cfg k (Failed e) w = Some w1 /\
    w1 = delay 2500 (K_grace a)
           (emit a (ESessionError ("Failed to export session: " ++ message_of e)) w) /\
    tasks w1 !! next_task w = Some (K_grace a, AwaitDelay (clock w + 2500)) /\
    run L cfg [Tick 2500; Resume (next_task w) Done] w1
    = Some (cleanupSession a
              (with_tasks (delete (next_task w) (tasks w1))
                 (with_clock (clock w + 2500) w1))).
Proof.
  intros Hk. eexists. split; [|split; [reflexivity|]].
  - destruct k; try discriminate Hk; injection Hk as <-; reflexivity.
  - split; [apply lookup_insert_eq|].
    cbn [run].
    match goal with |- context [step L cfg (Tick 2500) ?x] =>
      change (step L cfg (Tick 2500) x) with (Some (with_clock (clock w + 2500) x))
    end.
    cbn [mbind option_bind].
    rewrite (step_resume L cfg _ (next_task w) (K_grace a) (AwaitDelay (clock w + 2500)) Done).
    + reflexivity.
    + apply lookup_insert_eq.
    + cbn [may_resume]. simpl_world. rewrite Z.leb_refl. reflexivity.
Qed.

Lemma failed_export_still_cleans_up_witness :
  exists w1,
    resume example_lib default_config (K_sendToken 0 0 "15551234567@s.whatsapp.net" [])
      (Failed (boom 500 "socket closed")) created = Some w1 /\
    tasks w1 !! next_task created = Some (K_grace 0, AwaitDelay (clock created + 2500)).
Proof.
  destruct (failed_export_still_cleans_up example_lib default_config
              (K_sendToken 0 0 "15551234567@s.whatsapp.net" []) 0
              (boom 500 "socket closed") created eq_refl) as (w1 & H1 & _ & H2 & _).
  exists w1. split; [exact H1 | exact H2].
Defined.


(** X26: when the cleanup of a session has run to its last step, the
    event stream of its id is refused with 404, whatever key is given. *)
Theorem cleaned_session_is_not_found (L : Lib) (cfg : Config) (a : nat)
    (w : World) (s : Session) (key : option string) :
  heap w !! a = Some s ->
  exists w1,
    cleanup_to_completion L cfg a w = Some w1 /\
    get_events cfg (id s) key w1 = respond (json_error 404 "Session not found") w1.
Proof.
  intros Hs.
  destruct (cleanup_to_completion_result L cfg a w s Hs) as (w1 & Hrun & Hse & _).
  exists w1. split; [exact Hrun|].
  unfold get_events. rewrite Hse, map_get_delete. reflexivity.
Qed.

Lemma cleaned_session_is_not_found_witness :
  exists s w1,
    heap created !! 0%nat = Some s /\
    (status <$> head (responses (get_events default_config "sess_0_ab12" None created)))
    = Some 200%nat /\
    cleanup_to_completion example_lib default_config 0 created = Some w1 /\
    get_events default_config (id s) None w1
    = respond (json_error 404 "Session not found") w1.
Proof.
  destruct (heap created !! 0%nat) as [s|] eqn:Hs;
    [|vm_compute in Hs; discriminate Hs].
  destruct (cleaned_session_is_not_found example_lib default_config 0 created s None Hs)
    as (w1 & Hrun & H404).
  exists s, w1. split; [reflexivity|]. split; [reflexivity|].
  split; [exact Hrun | exact H404].
Defined.

(** X27: a retry counts, announces and ends: the counter goes up by
    one, the client is told [retrying] with the new count and
    [MAX_RETRIES], and [end()] is called on the connection in the handle
    field; when that call returns or throws, the field is cleared and
    the retry is suspended once more, at [await endSocketOnly(s)].  When
    it resumes, it waits the backoff of the count the session has at
    that moment: the new count, or a higher one when another retry of
    the session has counted in between. *)
Theorem retry_waits_backoff_of_count_at_resumption (L : Lib) (cfg : Config)
    (a : nat) (who : Caller) :
  (forall w s h r,
     heap w !! a = Some s -> sock s = Some h ->
     r = Done \/ (exists e, r = Failed e) ->
     exists w1 s1,
       run L cfg [Resume (next_task w) r] (retry cfg a who w) = Some w1 /\
       heap w1 !! a = Some s1 /\
       retries s1 = S (retries s) /\
       sock s1 = None /\
       emitted s1
       = EStatus "retrying" (Some (S (retries s), MAX_RETRIES cfg)) :: emitted s /\
       effects w1 = SockEnd h :: effects w /\
       tasks w1 !! S (next_task w) = Some (K_endSocketOnly a who, AwaitIO)) /\
  (forall w t s,
     tasks w !! t = Some (K_endSocketOnly a who, AwaitIO) ->
     heap w !! a = Some s ->
     exists w',
       step L cfg (Resume t Done) w = Some w' /\
       tasks w' !! next_task w
       = Some (K_backoff a who, AwaitDelay (clock w + backoff cfg (retries s))) /\
       heap w' = heap w /\ effects w' = effects w /\ socks w' = socks w).
Proof.
  split.
  - intros w s h r Hs Hh Hr.
    set (s0 := set_emitted (EStatus "retrying" (Some (S (retries s), MAX_RETRIES cfg))
                              :: emitted (set_retries (S (retries s)) s))
                 (set_lastEventAt (clock w) (set_retries (S (retries s)) s))).
    set (w0 := emit a (EStatus "retrying" (Some (S (retries s), MAX_RETRIES cfg)))
                 (update a (set_retries (S (retries s))) w)).
    assert (H0 : heap w0 !! a = Some s0).
    { unfold w0, emit. rewrite !heap_update, Hs. reflexivity. }
    assert (E : retry cfg a who w = suspend (K_retryEnd a who) AwaitIO (sock_end h w0)).
    { unfold retry. rewrite Hs. cbv zeta. fold w0. unfold endSocketOnly.
      rewrite H0. cbn [s0 sock set_emitted set_lastEventAt set_retries]. rewrite Hh.
      reflexivity. }
    rewrite E.
    set (w1 := suspend (K_retryEnd a who) AwaitIO (sock_end h w0)).
    set (v := with_tasks (delete (next_task w) (tasks w1)) w1).
    assert (Hv : heap (end_returns a who v) !! a = Some (set_sock None s0)).
    { unfold end_returns. change (heap (suspend _ _ ?x)) with (heap x).
      rewrite heap_update. change (heap v) with (heap w0). rewrite H0. reflexivity. }
    assert (S1 : step L cfg (Resume (next_task w) r) w1 = Some (end_returns a who v)).
    { unfold step.
      assert (Ht : tasks w1 !! next_task w = Some (K_retryEnd a who, AwaitIO))
        by apply lookup_insert_eq.
      rewrite Ht. cbn [mbind option_bind may_resume]. fold v.
      destruct Hr as [->|[e ->]]; reflexivity. }
    exists (end_returns a who v), (set_sock None s0).
    split; [cbn [run]; rewrite S1; reflexivity|].
    split; [exact Hv|]. split; [reflexivity|]. split; [reflexivity|].
    split; [reflexivity|]. split; [reflexivity|].
    apply lookup_insert_eq.
  - intros w t s Ht Hs. eexists. split.
    + unfold step. rewrite Ht. cbn [mbind option_bind may_resume resume].
      unfold retry_wait.
      change (heap (with_tasks (delete t (tasks w)) w)) with (heap w). rewrite Hs.
      reflexivity.
    + split; [apply lookup_insert_eq|]. repeat split.
Qed.

Lemma retry_waits_backoff_of_count_at_resumption_witness :
  exists w s w',
    run example_lib default_config retries_overlap init = Some w /\
    ends_of w = [0%nat] /\
    tasks w !! 6%nat = Some (K_endSocketOnly 0 RetryClose, AwaitIO) /\
    tasks w !! 7%nat = Some (K_endSocketOnly 0 RetryCode, AwaitIO) /\
    heap w !! 0%nat = Some s /\ retries s = 2%nat /\
    step example_lib default_config (Resume 6 Done) w = Some w' /\
    tasks w' !! next_task w = Some (K_backoff 0 RetryClose, AwaitDelay (5000 + 8000)).
Proof.
  destruct (run example_lib default_config retries_overlap init) as [w|] eqn:E;
    [|vm_compute in E; discriminate E].
  assert (He : ends_of w = [0%nat]) by (vm_compute in E; injection E as <-; reflexivity).
  assert (H6 : tasks w !! 6%nat = Some (K_endSocketOnly 0 RetryClose, AwaitIO))
    by (vm_compute in E; injection E as <-; reflexivity).
  assert (H7 : tasks w !! 7%nat = Some (K_endSocketOnly 0 RetryCode, AwaitIO))
    by (vm_compute in E; injection E as <-; reflexivity).
  assert (Hc : clock w = 5000) by (vm_compute in E; injection E as <-; reflexivity).
  destruct (heap w !! 0%nat) as [s|] eqn:Hs;
    [|vm_compute in E; injection E as <-; discriminate Hs].
  assert (Hr : retries s = 2%nat)
    by (vm_compute in E; injection E as <-; injection Hs as <-; reflexivity).
  destruct (proj2 (retry_waits_backoff_of_count_at_resumption example_lib default_config
                     0 RetryClose) w 6%nat s H6 Hs) as (w' & Hstep & Ht & _).
  exists w, s, w'. split; [reflexivity|]. split; [exact He|]. split; [exact H6|].
  split; [exact H7|]. split; [exact Hs|]. split; [exact Hr|]. split; [exact Hstep|].
  rewrite Ht, Hr, Hc. reflexivity.
Defined.

(** ** Shutdown *)

Section Shutdown.

Variable L : Lib.
Variable cfg : Config.

Lemma delete_every_key (l m : list (string * nat)) :
  (forall k a, In (k, a) m -> exists a', In (k, a') l) ->
  fold_left (fun m '(k, _) => map_delete k m) l m = [].
Proof.
  revert m. induction l as [|[k1 a1] l IH]; intros m H.
  - destruct m as [|[k a] m]; [reflexivity|].
    destruct (H k a (or_introl eq_refl)) as (a' & []).
  - cbn [fold_left]. apply IH. intros k a Hin.
    apply In_map_delete in Hin as [Hin N].
    destruct (H k a Hin) as (a' & [[= -> ->]|Hl]); [congruence | eauto].
Qed.

Lemma shutdown_result (l : list (string * nat)) (w : World) :
  (forall k a, In (k, a) l ->
     exists s, heap w !! a = Some s /\ id s = k /\ dir s = sessionDir k) ->
  exists w',
    shutdown L cfg l w = Some w' /\
    sessions w' = fold_left (fun m '(k, _) => map_delete k m) l (sessions w) /\
    (forall d, In d (removals_of w) -> In d (removals_of w')) /\
    (forall k a, In (k, a) l -> In (sessionDir k) (removals_of w')).
Proof.
  revert w. induction l as [|[k a] l IH]; intros w H.
  - exists w. split; [reflexivity|]. split; [reflexivity|]. split; [auto|intros ? ? []].
  - destruct (H k a (or_introl eq_refl)) as (s & Hs & Hid & Hdir).
    destruct (cleanup_to_completion_result L cfg a w s Hs)
      as (w1 & Hrun & Hse & _ & _ & Hh & Hre).
    destruct (IH w1) as (w' & Hsh & Hse' & Hmono & Hall).
    { intros k' a' Hin. rewrite Hh. apply H. right. exact Hin. }
    exists w'. cbn [shutdown]. rewrite Hrun. cbn [mbind option_bind].
    split; [exact Hsh|]. split; [rewrite Hse', Hse, Hid; reflexivity|].
    split.
    + intros d Hd. apply Hmono. rewrite Hre. right. exact Hd.
    + intros k' a' [[= <- <-]|Hin]; [|exact (Hall k' a' Hin)].
      apply Hmono. rewrite Hre, Hdir. left. reflexivity.
Qed.

End Shutdown.

(** X28: on [SIGINT], in any state the server has reached and with
    nothing else running between the cleanups, every registered session
    is cleaned: the loop ends, the registry is empty, and the working
    directory of every session that was registered has been removed. *)
Theorem shutdown_empties_registry (L : Lib) (cfg : Config) (ls : list Label)
    (w : World) :
  run L cfg ls init = Some w ->
  exists w',
    on_sigint L cfg w = Some w' /\
    sessions w' = [] /\
    forall k a, In (k, a) (sessions w) -> In (sessionDir k) (removals_of w').
Proof.
  intros Hrun.
  pose proof (consistent_run L cfg ls init w (consistent_init cfg) Hrun) as Hw.
  assert (Hfirst : forall k a, In (k, a) (sessions w) ->
            exists s, heap w !! a = Some s /\ id s = k /\ dir s = sessionDir k).
  { intros k a Hin. destruct (registry_sound _ _ Hw k a Hin) as (s & Hs & <-).
    exists s. split; [exact Hs|]. split; [reflexivity|].
    apply (sound_dir _ _ (heap_sound _ _ Hw a s Hs)). }
  destruct (shutdown_result L cfg (sessions w) w Hfirst) as (w' & Hsh & Hse & _ & Hall).
  exists w'. split; [exact Hsh|]. split; [|exact Hall].
  rewrite Hse. apply delete_every_key. eauto.
Qed.

Lemma shutdown_empties_registry_witness :
  exists w w',
    run example_lib default_config waiting_qr init = Some w /\
    sessions w = [("sess_0_ab12", 0%nat)] /\
    on_sigint example_lib default_config w = Some w' /\
    sessions w' = [] /\ In "temp/sess_0_ab12" (removals_of w').
Proof.
  destruct (run example_lib default_config waiting_qr init) as [w|] eqn:E;
    [|vm_compute in E; discriminate E].
  assert (Hs : sessions w = [("sess_0_ab12", 0%nat)])
    by (vm_compute in E; injection E as <-; reflexivity).
  destruct (shutdown_empties_registry example_lib default_config waiting_qr w E)
    as (w' & Hsh & Hempty & Hall).
  exists w, w'. split; [reflexivity|]. split; [exact Hs|]. split; [exact Hsh|].
  split; [exact Hempty|].
  apply (Hall "sess_0_ab12" 0%nat). rewrite Hs. left. reflexivity.
Defined.
